(** * sandfly-entropyscan: a shallow embedding and its verified properties

    The development follows the two Go packages of the repository:
    - [fileutils] (fileutils/fileutils.go): [IsElfType], [Entropy] and the four
      digest functions [HashMD5], [HashSHA1], [HashSHA256], [HashSHA512];
    - [entropyscan] (sandfly-entropyscan.go, package main): [checkFilePath],
      [genPIDExePaths], [printResults] and the three scan modes of [main].

    Modelling choices.
    - Go's [float64] is idealised as the real numbers [R]: sums, quotients,
      [math.Log2] and [math.Round] are exact.  Comparisons are the decidable
      comparisons of [R].
    - Go's [int] and [int64] are integers in [Z]; where the code increments a
      counter the wrap-around of the 64-bit [int] of the amd64 build is
      written out ([wrap64]).
    - The file system is an environment [FileSystem] that answers [os.Open]
      (symbolic links already followed, see [os.mount]); it does not change
      during one call of [checkFilePath].
    - [log.Fatalf] ends the process: computations that can reach it return a
      [proc], either [Done v] or [Fatal format args].
    - The Go standard library is modelled where the code calls it: [encoding/hex],
      [strconv.Itoa], [path.Join], [filepath.Split], [io.ReadFull] under
      [binary.Read], [io.Copy], and the digests of crypto/md5, crypto/sha1,
      crypto/sha256, crypto/sha512 (after RFC 1321 and FIPS 180-4). *)

From Stdlib Require Import ZArith NArith List Bool Arith Lia.
From Stdlib.Strings Require Import String Ascii Byte.
From Stdlib Require Import Reals Lra.
From Stdlib Require Import FunInd Recdef.
From Stdlib Require Import Permutation.
Import ListNotations.

Local Open Scope Z_scope.

(** ** Bytes and machine words *)

Definition byte_to_Z (b : byte) : Z := Z.of_N (Byte.to_N b).

Definition byte_of_Z (z : Z) : byte :=
  match Byte.of_N (Z.to_N (z mod 256)) with
  | Some b => b
  | None => x00
  end.

(** [int(dataBytes[i])]: the index a byte selects in the histogram. *)
Definition byte_index (b : byte) : nat := N.to_nat (Byte.to_N b).

(** Two's complement wrap-around of a 64-bit Go [int]. *)
Definition wrap64 (z : Z) : Z := (z + 2 ^ 63) mod 2 ^ 64 - 2 ^ 63.

(** ** Package encoding/hex *)

Module hex.

Definition hextable : list ascii :=
  list_ascii_of_string "0123456789abcdef".

Definition digit (n : Z) : ascii := nth (Z.to_nat n) hextable "0"%char.

(** [hex.EncodeToString]: two lowercase digits per byte, high nibble first. *)
Fixpoint EncodeToString (src : list byte) : string :=
  match src with
  | [] => EmptyString
  | b :: rest =>
      String (digit (Z.shiftr (byte_to_Z b) 4))
        (String (digit (Z.land (byte_to_Z b) 15)) (EncodeToString rest))
  end.

(** [fromHexChar]: the value of one hexadecimal digit, in either case. *)
Definition fromHexChar (c : ascii) : option Z :=
  let n := Z.of_N (N_of_ascii c) in
  if (48 <=? n) && (n <=? 57) then Some (n - 48)
  else if (97 <=? n) && (n <=? 102) then Some (n - 97 + 10)
  else if (65 <=? n) && (n <=? 70) then Some (n - 65 + 10)
  else None.

Inductive DecodeError : Type :=
| ErrLength
| InvalidByteError (c : ascii).

(** [hex.DecodeString]: pairs of digits to bytes; an odd length or a
    character that is no digit is an error. *)
Fixpoint DecodeString (s : string) : list byte + DecodeError :=
  match s with
  | EmptyString => inl []
  | String c EmptyString =>
      match fromHexChar c with
      | Some _ => inr ErrLength
      | None => inr (InvalidByteError c)
      end
  | String c1 (String c2 rest) =>
      match fromHexChar c1, fromHexChar c2 with
      | None, _ => inr (InvalidByteError c1)
      | Some _, None => inr (InvalidByteError c2)
      | Some hi, Some lo =>
          match DecodeString rest with
          | inl bs => inl (byte_of_Z (Z.shiftl hi 4 + lo) :: bs)
          | inr e => inr e
          end
      end
  end.

End hex.

(** ** Packages crypto/md5, crypto/sha1, crypto/sha256, crypto/sha512

    The digests the four [Hash...] functions obtain from [New], [io.Copy] and
    [Sum(nil)].  They are not code of this repository; the model is the
    algorithm of RFC 1321 (MD5) and of FIPS 180-4 (SHA-1, SHA-256, SHA-512) on
    whole messages. *)

Module crypto.

Definition mask (w : Z) : Z := 2 ^ w - 1.
Definition trunc (w x : Z) : Z := Z.land x (mask w).
Definition add (w x y : Z) : Z := trunc w (x + y).
Definition rotl (w x n : Z) : Z :=
  trunc w (Z.lor (Z.shiftl x n) (Z.shiftr x (w - n))).
Definition rotr (w x n : Z) : Z := rotl w x (w - n).
Definition lnot (w x : Z) : Z := Z.lxor x (mask w).

(** Big-endian and little-endian serialisation of an [n]-byte word. *)
Fixpoint be_bytes (n : nat) (x : Z) : list byte :=
  match n with
  | O => []
  | S k => byte_of_Z (Z.shiftr x (8 * Z.of_nat k)) :: be_bytes k x
  end.

Definition le_bytes (n : nat) (x : Z) : list byte := rev (be_bytes n x).

Definition be_word (bs : list byte) : Z :=
  fold_left (fun acc b => Z.lor (Z.shiftl acc 8) (byte_to_Z b)) bs 0.

Definition le_word (bs : list byte) : Z := be_word (rev bs).

(** Cut a list into pieces of [S k] elements (the last may be shorter). *)
Fixpoint chunks_aux {A} (k : nat) (cur : list A) (room : nat) (l : list A)
  : list (list A) :=
  match l with
  | [] => match cur with [] => [] | _ => [rev cur] end
  | x :: rest =>
      match room with
      | O => rev (x :: cur) :: chunks_aux k [] k rest
      | S r => chunks_aux k (x :: cur) r rest
      end
  end.

Definition chunks {A} (size : nat) (l : list A) : list (list A) :=
  chunks_aux (pred size) [] (pred size) l.

(** Merkle-Damgard padding: a [0x80] byte, zeros up to [lenbytes] short of a
    block boundary, then the bit length on [lenbytes] bytes. *)
Definition pad (block lenbytes : nat) (ser : nat -> Z -> list byte)
    (msg : list byte) : list byte :=
  let n := List.length msg in
  let used := ((n + 1 + lenbytes) mod block)%nat in
  let zeros := ((block - used) mod block)%nat in
  msg ++ [x80] ++ repeat x00 zeros ++ ser lenbytes (8 * Z.of_nat n).

Definition wnth (l : list Z) (i : nat) : Z := nth i l 0.

(** *** MD5 *)

Definition md5_K : list Z :=
  [ 0xd76aa478; 0xe8c7b756; 0x242070db; 0xc1bdceee;
    0xf57c0faf; 0x4787c62a; 0xa8304613; 0xfd469501;
    0x698098d8; 0x8b44f7af; 0xffff5bb1; 0x895cd7be;
    0x6b901122; 0xfd987193; 0xa679438e; 0x49b40821;
    0xf61e2562; 0xc040b340; 0x265e5a51; 0xe9b6c7aa;
    0xd62f105d; 0x02441453; 0xd8a1e681; 0xe7d3fbc8;
    0x21e1cde6; 0xc33707d6; 0xf4d50d87; 0x455a14ed;
    0xa9e3e905; 0xfcefa3f8; 0x676f02d9; 0x8d2a4c8a;
    0xfffa3942; 0x8771f681; 0x6d9d6122; 0xfde5380c;
    0xa4beea44; 0x4bdecfa9; 0xf6bb4b60; 0xbebfbc70;
    0x289b7ec6; 0xeaa127fa; 0xd4ef3085; 0x04881d05;
    0xd9d4d039; 0xe6db99e5; 0x1fa27cf8; 0xc4ac5665;
    0xf4292244; 0x432aff97; 0xab9423a7; 0xfc93a039;
    0x655b59c3; 0x8f0ccc92; 0xffeff47d; 0x85845dd1;
    0x6fa87e4f; 0xfe2ce6e0; 0xa3014314; 0x4e0811a1;
    0xf7537e82; 0xbd3af235; 0x2ad7d2bb; 0xeb86d391 ].

Definition md5_shift (i : nat) : Z :=
  nth (i mod 4)
    (nth (i / 16) [[7; 12; 17; 22]; [5; 9; 14; 20]; [4; 11; 16; 23]; [6; 10; 15; 21]] [])
    0.

Definition md5_round (M : list Z) (st : Z * Z * Z * Z) (i : nat)
  : Z * Z * Z * Z :=
  let '(a, b, c, d) := st in
  let q := (i / 16)%nat in
  let f :=
    match q with
    | 0%nat => Z.lor (Z.land b c) (Z.land (lnot 32 b) d)
    | 1%nat => Z.lor (Z.land d b) (Z.land (lnot 32 d) c)
    | 2%nat => Z.lxor b (Z.lxor c d)
    | _ => Z.lxor c (Z.lor b (lnot 32 d))
    end in
  let g :=
    match q with
    | 0%nat => i
    | 1%nat => ((5 * i + 1) mod 16)%nat
    | 2%nat => ((3 * i + 5) mod 16)%nat
    | _ => ((7 * i) mod 16)%nat
    end in
  let t := add 32 (add 32 (add 32 f a) (wnth md5_K i)) (wnth M g) in
  (d, add 32 b (rotl 32 t (md5_shift i)), b, c).

Definition md5_block (st : Z * Z * Z * Z) (blk : list byte) : Z * Z * Z * Z :=
  let M := map le_word (chunks 4 blk) in
  let '(a, b, c, d) := st in
  let '(a', b', c', d') := fold_left (md5_round M) (seq 0 64) st in
  (add 32 a a', add 32 b b', add 32 c c', add 32 d d').

Definition md5_Sum (data : list byte) : list byte :=
  let '(a, b, c, d) :=
    fold_left md5_block (chunks 64 (pad 64 8 le_bytes data))
      (0x67452301, 0xefcdab89, 0x98badcfe, 0x10325476) in
  le_bytes 4 a ++ le_bytes 4 b ++ le_bytes 4 c ++ le_bytes 4 d.

(** *** SHA-1 *)

Fixpoint extend (n : nat) (next : list Z -> Z) (W : list Z) : list Z :=
  match n with
  | O => W
  | S k => extend k next (W ++ [next W])
  end.

(** [back W j]: the word [j] places before the end of the schedule. *)
Definition back (W : list Z) (j : nat) : Z := wnth W (List.length W - j)%nat.

Definition sha1_round (W : list Z) (st : Z * Z * Z * Z * Z) (i : nat)
  : Z * Z * Z * Z * Z :=
  let '(a, b, c, d, e) := st in
  let '(f, k) :=
    match (i / 20)%nat with
    | 0%nat => (Z.lor (Z.land b c) (Z.land (lnot 32 b) d), 0x5a827999)
    | 1%nat => (Z.lxor b (Z.lxor c d), 0x6ed9eba1)
    | 2%nat => (Z.lor (Z.lor (Z.land b c) (Z.land b d)) (Z.land c d), 0x8f1bbcdc)
    | _ => (Z.lxor b (Z.lxor c d), 0xca62c1d6)
    end in
  let t := add 32 (add 32 (add 32 (add 32 (rotl 32 a 5) f) e) k) (wnth W i) in
  (t, a, rotl 32 b 30, c, d).

Definition sha1_block (st : Z * Z * Z * Z * Z) (blk : list byte)
  : Z * Z * Z * Z * Z :=
  let W :=
    extend 64
      (fun W => rotl 32 (Z.lxor (Z.lxor (back W 3) (back W 8))
                           (Z.lxor (back W 14) (back W 16))) 1)
      (map be_word (chunks 4 blk)) in
  let '(a, b, c, d, e) := st in
  let '(a', b', c', d', e') := fold_left (sha1_round W) (seq 0 80) st in
  (add 32 a a', add 32 b b', add 32 c c', add 32 d d', add 32 e e').

Definition sha1_Sum (data : list byte) : list byte :=
  let '(a, b, c, d, e) :=
    fold_left sha1_block (chunks 64 (pad 64 8 be_bytes data))
      (0x67452301, 0xefcdab89, 0x98badcfe, 0x10325476, 0xc3d2e1f0) in
  be_bytes 4 a ++ be_bytes 4 b ++ be_bytes 4 c ++ be_bytes 4 d ++ be_bytes 4 e.

(** *** SHA-256 and SHA-512

    Both are the SHA-2 construction at word widths 32 and 64.  The round
    constants are the leading fractional bits of the cube roots of the first
    primes, the initial state those of the square roots of the first eight. *)

Definition is_prime (n : nat) : bool :=
  forallb (fun d => negb (n mod d =? 0)%nat) (seq 2 (n - 2)%nat).

Definition primes : list Z :=
  Eval vm_compute in map Z.of_nat (filter is_prime (seq 2 408%nat)).

Fixpoint icbrt_aux (bits : nat) (n r : Z) : Z :=
  match bits with
  | O => r
  | S b =>
      let r' := r + 2 ^ Z.of_nat b in
      if r' * r' * r' <=? n then icbrt_aux b n r' else icbrt_aux b n r
  end.

(** Integer cube root of a number below [2 ^ 300]. *)
Definition icbrt (n : Z) : Z := icbrt_aux 100 n 0.

Definition frac_cbrt (w p : Z) : Z := trunc w (icbrt (p * 2 ^ (3 * w))).
Definition frac_sqrt (w p : Z) : Z := trunc w (Z.sqrt (p * 2 ^ (2 * w))).

Record sha2_params : Type := {
  width : Z;                      (* word width in bits *)
  rounds : nat;
  big_sigma0 : Z * Z * Z;         (* rotations of Sigma0 *)
  big_sigma1 : Z * Z * Z;         (* rotations of Sigma1 *)
  small_sigma0 : Z * Z * Z;       (* two rotations and a shift *)
  small_sigma1 : Z * Z * Z
}.

Definition sha256_params : sha2_params :=
  {| width := 32; rounds := 64;
     big_sigma0 := (2, 13, 22); big_sigma1 := (6, 11, 25);
     small_sigma0 := (7, 18, 3); small_sigma1 := (17, 19, 10) |}.

Definition sha512_params : sha2_params :=
  {| width := 64; rounds := 80;
     big_sigma0 := (28, 34, 39); big_sigma1 := (14, 18, 41);
     small_sigma0 := (1, 8, 7); small_sigma1 := (19, 61, 6) |}.

Definition sha256_K : list Z :=
  Eval vm_compute in map (frac_cbrt 32) (firstn 64 primes).
Definition sha256_H0 : list Z :=
  Eval vm_compute in map (frac_sqrt 32) (firstn 8 primes).
Definition sha512_K : list Z :=
  Eval vm_compute in map (frac_cbrt 64) (firstn 80 primes).
Definition sha512_H0 : list Z :=
  Eval vm_compute in map (frac_sqrt 64) (firstn 8 primes).

Section SHA2.
Variable P : sha2_params.
Variable K : list Z.

Let w := width P.

Definition Sigma (r : Z * Z * Z) (x : Z) : Z :=
  let '(r1, r2, r3) := r in
  Z.lxor (rotr w x r1) (Z.lxor (rotr w x r2) (rotr w x r3)).

Definition sigma (r : Z * Z * Z) (x : Z) : Z :=
  let '(r1, r2, s) := r in
  Z.lxor (rotr w x r1) (Z.lxor (rotr w x r2) (Z.shiftr x s)).

Definition sha2_schedule (blk : list byte) : list Z :=
  extend (rounds P - 16)%nat
    (fun W => add w (add w (add w (sigma (small_sigma1 P) (back W 2)) (back W 7))
                       (sigma (small_sigma0 P) (back W 15)))
                (back W 16))
    (map be_word (chunks (Z.to_nat (w / 8)) blk)).

Definition sha2_round (W : list Z) (st : list Z) (i : nat) : list Z :=
  let a := wnth st 0 in let b := wnth st 1 in
  let c := wnth st 2 in let d := wnth st 3 in
  let e := wnth st 4 in let f := wnth st 5 in
  let g := wnth st 6 in let h := wnth st 7 in
  let ch := Z.lxor (Z.land e f) (Z.land (lnot w e) g) in
  let maj := Z.lxor (Z.land a b) (Z.lxor (Z.land a c) (Z.land b c)) in
  let t1 := add w (add w (add w (add w h (Sigma (big_sigma1 P) e)) ch)
                     (wnth K i)) (wnth W i) in
  let t2 := add w (Sigma (big_sigma0 P) a) maj in
  [add w t1 t2; a; b; c; add w d t1; e; f; g].

Definition sha2_block (st : list Z) (blk : list byte) : list Z :=
  let W := sha2_schedule blk in
  let st' := fold_left (sha2_round W) (seq 0 (rounds P)) st in
  map (fun i => add w (wnth st i) (wnth st' i)) (seq 0 8).

Definition sha2_Sum (H0 : list Z) (data : list byte) : list byte :=
  let wb := Z.to_nat (w / 8) in
  let st :=
    fold_left sha2_block (chunks (16 * wb)%nat (pad (16 * wb)%nat (2 * wb)%nat be_bytes data))
      H0 in
  flat_map (fun i => be_bytes wb (wnth st i)) (seq 0 8).
End SHA2.

Definition sha256_Sum : list byte -> list byte :=
  sha2_Sum sha256_params sha256_K sha256_H0.

Definition sha512_Sum : list byte -> list byte :=
  sha2_Sum sha512_params sha512_K sha512_H0.

End crypto.

(** ** Go errors

    [fmt.Errorf] is kept unformatted: the format string and its arguments. *)

(** Error numbers of the system calls behind [os.Open], [Stat] and [Read]. *)
Inductive Errno : Type := ENOENT | EACCES | ELOOP | EIO.

Inductive error : Type :=
| EOF                                          (* io.EOF *)
| ErrUnexpectedEOF                             (* io.ErrUnexpectedEOF *)
| PathError (op path : string) (errno : Errno) (* *fs.PathError *)
| HexError (e : hex.DecodeError)
| Errorf (format : string) (args : list arg)
with arg : Type :=
| Str (s : string)
| Int (z : Z)
| Err (e : error).

Definition is_EOF (e : error) : bool :=
  match e with EOF => true | _ => false end.

(** ** Package os: files as the code observes them *)

Module os.

(** The file types [f.Stat()] can report for an open file (never a symbolic
    link: opening follows links). *)
Inductive FileMode : Type :=
| ModeRegular | ModeDir | ModeNamedPipe
| ModeSocket | ModeDevice | ModeCharDevice | ModeIrregular.

(** [FileMode.IsRegular]: no type bit is set. *)
Definition IsRegular (m : FileMode) : bool :=
  match m with ModeRegular => true | _ => false end.

Record FileInfo : Type := { Mode : FileMode; Size : Z }.

(** What the file system holds under a name: what [Stat] answers, the bytes
    successive reads deliver, and how the stream ends after them ([None]: end
    of file, [Some errno]: the next read fails). *)
Record Node : Type := {
  info : FileInfo + Errno;
  data : list byte;
  bad : option Errno
}.

(** The file system answers every path with a node or an error number. *)
Definition FileSystem : Type := string -> Node + Errno.

(** An open file: its name, its node and the bytes not yet read. *)
Record File : Type := {
  Name : string;
  node : Node;
  pending : list byte
}.

(** Where the answers come from: a name is bound to a node or to a symbolic
    link, and opening follows links as open(2) does, up to 40 of them; a name
    that is not bound does not exist. *)
Inductive Entry : Type :=
| Bound (nd : Node)
| Symlink (target : string).

Definition Directory : Type := string -> option Entry.

Fixpoint follow (links : nat) (d : Directory) (name : string) : Node + Errno :=
  match d name with
  | None => inr ENOENT
  | Some (Bound nd) => inl nd
  | Some (Symlink target) =>
      match links with
      | O => inr ELOOP
      | S k => follow k d target
      end
  end.

Definition mount (d : Directory) : FileSystem := follow 40 d.

Definition Open (fs : FileSystem) (name : string) : File + error :=
  match fs name with
  | inl nd => inl {| Name := name; node := nd; pending := data nd |}
  | inr errno => inr (PathError "open" name errno)
  end.

Definition Stat (f : File) : FileInfo + error :=
  match info (node f) with
  | inl fi => inl fi
  | inr errno => inr (PathError "stat" (Name f) errno)
  end.

(** The error of a read once no byte is pending. *)
Definition ending (f : File) : error :=
  match bad (node f) with
  | Some errno => PathError "read" (Name f) errno
  | None => EOF
  end.

(** [f.Read(buf)] with [len(buf) = n]: up to [n] of the pending bytes, or the
    way the stream ends when none is left.  The third component is the file
    after the read. *)
Definition Read (f : File) (n : nat) : list byte * option error * File :=
  match n, pending f with
  | O, _ => ([], None, f)
  | _, [] => ([], Some (ending f), f)
  | _, _ =>
      (firstn n (pending f), None,
       {| Name := Name f; node := node f; pending := skipn n (pending f) |})
  end.

End os.

(** ** Package io *)

Module io.

(** [io.ReadFull(f, buf)] with [len(buf) = n], as [binary.Read] calls it for a
    fixed-size value: exactly [n] bytes; when the stream ends before, its
    error, with [ErrUnexpectedEOF] in place of [EOF] if some bytes were read. *)
Definition ReadFull (f : os.File) (n : nat) : list byte * option error :=
  let data := os.pending f in
  if (n <=? List.length data)%nat then (firstn n data, None)
  else
    match data, os.ending f with
    | _ :: _, EOF => (data, Some ErrUnexpectedEOF)
    | _, err => (data, Some err)
    end.

End io.

(** [hash.Hash]: the bytes written so far and the digest [Sum] appends. *)
Record Hash : Type := {
  written : list byte;
  digest : list byte -> list byte
}.

Definition Hash_Write (h : Hash) (p : list byte) : Hash :=
  {| written := written h ++ p; digest := digest h |}.

Definition Hash_Sum (h : Hash) (b : list byte) : list byte :=
  b ++ digest h (written h).

(** [io.Copy(dst, f)] into a hash: every pending byte is written to [dst];
    the error is [nil] at end of file, or the error that ended the stream. *)
Definition io_Copy (dst : Hash) (f : os.File) : Hash * option error :=
  (Hash_Write dst (os.pending f),
   if is_EOF (os.ending f) then None else Some (os.ending f)).

Definition md5_New : Hash := {| written := []; digest := crypto.md5_Sum |}.
Definition sha1_New : Hash := {| written := []; digest := crypto.sha1_Sum |}.
Definition sha256_New : Hash := {| written := []; digest := crypto.sha256_Sum |}.
Definition sha512_New : Hash := {| written := []; digest := crypto.sha512_Sum |}.

(** ** Package bytes *)

Fixpoint bytes_Equal (a b : list byte) : bool :=
  match a, b with
  | [], [] => true
  | x :: a', y :: b' => Byte.eqb x y && bytes_Equal a' b'
  | _, _ => false
  end.

(** ** Package strconv *)

Module strconv.

Definition digit_char (d : Z) : ascii := ascii_of_N (Z.to_N (48 + d)).

(** The decimal digits of [n >= 0], most significant first, in front of [acc];
    [fuel] bounds the number of further digits. *)
Fixpoint utoa (fuel : nat) (n : Z) (acc : string) : string :=
  let acc' := String (digit_char (n mod 10)) acc in
  match fuel with
  | O => acc'
  | S k => if n / 10 =? 0 then acc' else utoa k (n / 10) acc'
  end.

(** [strconv.Itoa]: a number has at most [log2 n + 1] decimal digits. *)
Definition Itoa (i : Z) : string :=
  if i <? 0 then String "-" (utoa (Z.to_nat (Z.log2 (- i))) (- i) "")
  else utoa (Z.to_nat (Z.log2 i)) i "".

End strconv.

(** ** Packages path and path/filepath *)

Module path.

Definition slash : ascii := "/"%char.

(** The elements between the slashes of a path. *)
Fixpoint split (s : string) : list string :=
  match s with
  | EmptyString => [EmptyString]
  | String c rest =>
      if Ascii.eqb c slash then EmptyString :: split rest
      else
        match split rest with
        | e :: es => String c e :: es
        | [] => [String c EmptyString]
        end
  end.

(** The elements [path.Clean] keeps, on a stack [out] (last kept first): empty
    and [.] elements go, [..] removes the element before it, and is itself
    dropped at the root and kept at the start of a relative path. *)
Fixpoint cleanElems (rooted : bool) (elems out : list string) : list string :=
  match elems with
  | [] => rev out
  | e :: rest =>
      if (e =? "")%string || (e =? ".")%string then cleanElems rooted rest out
      else if (e =? "..")%string then
        match out with
        | top :: out' =>
            if (top =? "..")%string then cleanElems rooted rest (e :: out)
            else cleanElems rooted rest out'
        | [] => cleanElems rooted rest (if rooted then [] else [e])
        end
      else cleanElems rooted rest (e :: out)
  end.

Definition rooted (p : string) : bool :=
  match p with String c _ => Ascii.eqb c slash | EmptyString => false end.

(** [path.Clean]: the shortest equivalent path. *)
Definition Clean (p : string) : string :=
  if (p =? "")%string then "."%string
  else
    let out := String.concat "/" (cleanElems (rooted p) (split p) []) in
    if rooted p then String slash out
    else if (out =? "")%string then "."%string else out.

(** The buffer [path.Join] fills: leading empty elements are skipped, every
    later element follows a slash. *)
Fixpoint joinBuf (buf : string) (elem : list string) : string :=
  match elem with
  | [] => buf
  | e :: rest =>
      if negb (buf =? "")%string then joinBuf (buf ++ String slash e) rest
      else if negb (e =? "")%string then joinBuf e rest
      else joinBuf buf rest
  end.

(** [path.Join]: the elements joined by slashes, then cleaned; the empty
    string when every element is empty. *)
Definition Join (elem : list string) : string :=
  if forallb (fun e => (e =? "")%string) elem then EmptyString
  else Clean (joinBuf EmptyString elem).

End path.

Module filepath.

(** [filepath.Split]: the path cut after its last slash. *)
Fixpoint Split (p : string) : string * string :=
  match p with
  | EmptyString => (EmptyString, EmptyString)
  | String c rest =>
      let (dir, file) := Split rest in
      if negb (dir =? "")%string then (String c dir, file)
      else if Ascii.eqb c path.slash then (String c EmptyString, file)
      else (EmptyString, String c file)
  end.

End filepath.

(** ** Package math, on the idealised [float64] *)

Definition float64 : Type := R.

Definition math_Log2 (x : float64) : float64 := (ln x / ln 2)%R.

(** [math.Round]: the nearest integer, halves away from zero. *)
Definition math_Round (x : float64) : float64 :=
  if Rle_dec 0 x then IZR (Zfloor (x + / 2)%R)
  else (- IZR (Zfloor (- x + / 2)))%R.

(** ** Package fileutils (fileutils/fileutils.go) *)

Module fileutils.

(* Max file size for entropy, etc. is 2GB *)
Definition constMaxFileSize : Z := 2147483648.
(* Chunk of data size to read in for entropy calc *)
Definition constMaxEntropyChunk : Z := 256000.
(* Need 4 bytes to determine basic ELF type *)
Definition constMagicNumRead : Z := 4.
(* Magic number for basic ELF type *)
Definition constMagicNumElf : string := "7f454c46".

(** Pass in a path and we'll see if the magic number is Linux ELF type. *)
Definition IsElfType (fs : os.FileSystem) (path : string) : bool * option error :=
  if (path =? "")%string then
    (false, Some (Errorf "must provide a path to file to get ELF type" []))
  else
    match os.Open fs path with
    | inr err => (false, Some err)
    | inl f =>
        match os.Stat f with
        | inr err => (false, Some err)
        | inl fStat =>
            (* Not a regular file, so can't be ELF *)
            if negb (os.IsRegular (os.Mode fStat)) then (false, None)
            (* Too small to be ELF *)
            else if os.Size fStat <? constMagicNumRead then (false, None)
            else
              (* binary.Read(f, binary.LittleEndian, &hexData) *)
              match io.ReadFull f (Z.to_nat constMagicNumRead) with
              | (_, Some err) => (false, Some err)
              | (hexData, None) =>
                  match hex.DecodeString constMagicNumElf with
                  | inr err => (false, Some (HexError err))
                  | inl elfType =>
                      if Z.of_nat (List.length elfType) >? constMagicNumRead then
                        (false,
                         Some (Errorf "elf magic number string is longer than magic number read bytes" []))
                      else if bytes_Equal (firstn (List.length elfType) hexData) elfType
                      then (true, None)
                      else (false, None)
                  end
              end
        end
    end.

(** [l[i] = v] on a slice; the histogram is only indexed by a byte value,
    always below its length 256, so no index is ever out of range. *)
Fixpoint update (i : nat) (v : Z) (l : list Z) : list Z :=
  match l, i with
  | [], _ => []
  | _ :: t, O => v :: t
  | x :: t, S j => x :: update j v t
  end.

(** [byteCounts[int(dataBytes[i])]++] *)
Definition countByte (byteCounts : list Z) (b : byte) : list Z :=
  update (byte_index b) (wrap64 (nth (byte_index b) byteCounts 0 + 1)) byteCounts.

(** The read loop of [Entropy]: chunks of [constMaxEntropyChunk] bytes are
    read and counted until [Read] answers [io.EOF] (the histogram is
    complete) or another error.  Every successful read of a non-empty buffer
    consumes at least one pending byte, which is why the loop ends. *)
Function readLoop (f : os.File) (byteCounts : list Z)
    {measure (fun f => List.length (os.pending f)) f} : list Z + error :=
  match os.Read f (Z.to_nat constMaxEntropyChunk) with
  | (_, Some err, _) => if is_EOF err then inl byteCounts else inr err
  | (dataBytes, None, f') =>
      readLoop f' (fold_left countByte dataBytes byteCounts)
  end.
Proof.
  intros f _ p f' dataBytes o _ _ Hread.
  unfold os.Read in Hread.
  destruct (Z.to_nat constMaxEntropyChunk) as [|k] eqn:Hk;
    [unfold constMaxEntropyChunk in Hk; lia|].
  destruct (os.pending f) as [|b rest]; [discriminate|].
  injection Hread as _ <-. cbn [os.pending skipn List.length].
  pose proof (length_skipn k rest). lia.
Defined.

(** One turn of the summing loop, for the counter [c] of one byte value. *)
Definition addTerm (size : Z) (entropy : float64) (c : Z) : float64 :=
  let px := (IZR c / IZR size)%R in
  if Rlt_dec 0 px then (entropy + - px * math_Log2 px)%R else entropy.

Definition sumLoop (byteCounts : list Z) (size : Z) : float64 :=
  fold_left (fun entropy i => addTerm size entropy (nth i byteCounts 0))
    (seq 0 256) 0%R.

(** Calculates entropy of a file. *)
Definition Entropy (fs : os.FileSystem) (path : string) : float64 * option error :=
  if (path =? "")%string then
    (0%R, Some (Errorf "must provide a path to file to get entropy" []))
  else
    match os.Open fs path with
    | inr err =>
        (0%R, Some (Errorf "couldn't open path (%s) to get entropy: %v" [Str path; Err err]))
    | inl f =>
        match os.Stat f with
        | inr err => (0%R, Some err)
        | inl fStat =>
            if negb (os.IsRegular (os.Mode fStat)) then
              (0%R, Some (Errorf "file (%s) is not a regular file to calculate entropy" [Str path]))
            else
              let size := os.Size fStat in
              (* Zero sized file is zero entropy. *)
              if size =? 0 then (0%R, None)
              else if size >? constMaxFileSize then
                (0%R,
                 Some (Errorf "file size (%d) is too large to calculate entropy (max allowed: %d)"
                         [Int size; Int constMaxFileSize]))
              else
                match readLoop f (repeat 0 256) with
                | inr err => (0%R, Some err)
                | inl byteCounts =>
                    (* Returns rounded to nearest two decimals. *)
                    ((math_Round (sumLoop byteCounts size * 100) / 100)%R, None)
                end
        end
    end.

(** The body the four digest functions share; [new] is the constructor of the
    hash and [readErr] the format of its read error. *)
Definition hashFile (new : Hash) (readErr : string)
    (fs : os.FileSystem) (path : string) : string * option error :=
  if (path =? "")%string then
    (EmptyString, Some (Errorf "must provide a path to file to hash" []))
  else
    match os.Open fs path with
    | inr err =>
        (EmptyString, Some (Errorf "couldn't open path (%s): %v" [Str path; Err err]))
    | inl f =>
        match os.Stat f with
        | inr err => (EmptyString, Some err)
        | inl fStat =>
            if negb (os.IsRegular (os.Mode fStat)) then
              (EmptyString,
               Some (Errorf "file (%s) is not a regular file to calculate hash" [Str path]))
            (* Zero sized file is no hash. *)
            else if os.Size fStat =? 0 then (EmptyString, None)
            else if os.Size fStat >? constMaxFileSize then
              (EmptyString,
               Some (Errorf "file size (%d) is too large to calculate hash (max allowed: %d)"
                       [Int (os.Size fStat); Int constMaxFileSize]))
            else
              match io_Copy new f with
              | (_, Some err) =>
                  (EmptyString, Some (Errorf readErr [Str path; Err err]))
              | (h, None) => (hex.EncodeToString (Hash_Sum h []), None)
              end
        end
    end.

(** Generates MD5 hash of a file *)
Definition HashMD5 : os.FileSystem -> string -> string * option error :=
  hashFile md5_New "couldn't read path (%s) to get MD5 hash: %v".

(** Generates SHA1 hash of a file *)
Definition HashSHA1 : os.FileSystem -> string -> string * option error :=
  hashFile sha1_New "couldn't read path (%s) to get SHA1 hash: %v".

(** Generates SHA256 hash of a file *)
Definition HashSHA256 : os.FileSystem -> string -> string * option error :=
  hashFile sha256_New "couldn't read path (%s) to get SHA256 hash: %v".

(** Generates SHA512 hash of a file *)
Definition HashSHA512 : os.FileSystem -> string -> string * option error :=
  hashFile sha512_New "couldn't read path (%s) to get SHA512 hash: %v".

End fileutils.

(** ** [filepath.Walk] and the directory tree it visits

    [Walk] learns about the tree from [os.Lstat] (which does not follow
    symbolic links) and from the listing of each directory, sorted by name.
    The function it calls gets the path, the [Lstat] information ([nil] when
    [Lstat] failed) and the error met.  The model is for functions that, like
    [search] in [main], return [nil] whenever they return: besides the state
    they pass on, they may only end the program. *)

Module walk.

(** The types of an entry that is no directory, as [Lstat] reports them. *)
Inductive LeafMode : Type :=
| LRegular | LSymlink | LNamedPipe | LSocket | LDevice | LCharDevice | LIrregular.

#[warnings="-register-all"]
Inductive Tree : Type :=
| Leaf (mode : LeafMode)                  (* an entry that is no directory *)
| Dir (entries : list (string * Tree))    (* a directory and its sorted listing *)
| Unlisted (errno : Errno)                (* a directory that cannot be listed *)
| Vanished (errno : Errno).               (* a name whose [Lstat] fails *)

(** The [os.FileInfo] of an entry: a directory, or a leaf of some mode. *)
Inductive Info : Type :=
| InfoDir
| InfoLeaf (mode : LeafMode).

Definition IsDir (i : Info) : bool :=
  match i with InfoDir => true | InfoLeaf _ => false end.

Definition IsRegular (i : Info) : bool :=
  match i with InfoLeaf LRegular => true | _ => false end.

Section Walk.
Variables S E : Type.
Variable walkFn : string -> option Info -> option error -> S -> S * option E.

(** [walk(path, info, walkFn)] and, for an entry whose [Lstat] failed, the
    call [walkFn(filename, nil, err)] its caller makes instead. *)
Fixpoint visit (p : string) (t : Tree) (st : S) : S * option E :=
  match t with
  | Leaf mode => walkFn p (Some (InfoLeaf mode)) None st
  | Vanished errno => walkFn p None (Some (PathError "lstat" p errno)) st
  | Unlisted errno => walkFn p (Some InfoDir) (Some (PathError "open" p errno)) st
  | Dir entries =>
      match walkFn p (Some InfoDir) None st with
      | (st', Some e) => (st', Some e)
      | (st', None) =>
          (fix each (names : list (string * Tree)) (st : S) : S * option E :=
             match names with
             | [] => (st, None)
             | (name, child) :: rest =>
                 match visit (path.Join [p; name]) child st with
                 | (st', Some e) => (st', Some e)
                 | (st', None) => each rest st'
                 end
             end) entries st'
      end
  end.

(** [filepath.Walk(root, walkFn)]. *)
Definition Walk (root : string) (t : Tree) (st : S) : S * option E :=
  visit root t st.
End Walk.

Arguments visit {S E} walkFn p t st.
Arguments Walk {S E} walkFn root t st.

End walk.

(** ** Package main (sandfly-entropyscan.go) *)

(** A computation that [log.Fatalf] can end: [Fatal] carries the format and
    the arguments of the message, and no value comes back to the caller. *)
Inductive proc (A : Type) : Type :=
| Done (a : A)
| Fatal (format : string) (args : list arg).

Arguments Done {A} a.
Arguments Fatal {A} format args.

Definition bind {A B} (m : proc A) (k : A -> proc B) : proc B :=
  match m with
  | Done a => k a
  | Fatal format args => Fatal format args
  end.

Notation "x <- m ;; k" := (bind m (fun x => k))
  (at level 61, m at next level, right associativity).

(** [v, err := call; if err != nil { log.Fatalf(format, filePath, err) }] *)
Definition orFatal {A} (r : A * option error) (format filePath : string) : proc A :=
  match r with
  | (_, Some err) => Fatal format [Str filePath; Err err]
  | (v, None) => Done v
  end.

Module main.

(* constProcDir default /proc dir for processes. *)
Definition constProcDir : string := "/proc".
(* constMinPID minimum PID value allowed for process checks. *)
Definition constMinPID : Z := 1.
(* constMaxPID maximum PID value allowed for process checks. 64bit linux is
   2^22. This value is a limiter. *)
Definition constMaxPID : Z := 4194304.

Record hashes : Type := {
  md5 : string;
  sha1 : string;
  sha256 : string;
  sha512 : string
}.

Record fileData : Type := {
  path : string;
  name : string;
  entropy : float64;
  elf : bool;
  hash : hashes
}.

(** The zero value of [fileData], which the named result starts from. *)
Definition zeroHashes : hashes :=
  {| md5 := ""; sha1 := ""; sha256 := ""; sha512 := "" |}.

Definition zeroFileData : fileData :=
  {| path := ""; name := ""; entropy := 0%R; elf := false; hash := zeroHashes |}.

Definition setEntropy (fileInfo : fileData) (e : float64) : fileData :=
  {| path := path fileInfo; name := name fileInfo; entropy := e;
     elf := elf fileInfo; hash := hash fileInfo |}.

Definition setHash (fileInfo : fileData) (h : hashes) : fileData :=
  {| path := path fileInfo; name := name fileInfo; entropy := entropy fileInfo;
     elf := elf fileInfo; hash := h |}.

Definition checkFilePath (fs : os.FileSystem) (filePath : string) (elfOnly : bool)
    (entropyMaxVal : float64) : proc (fileData * option error) :=
  match fileutils.IsElfType fs filePath with
  | (_, Some err) => Done (zeroFileData, Some err)
  | (isElfType, None) =>
      let (_, fileName) := filepath.Split filePath in
      let fileInfo :=
        {| path := filePath; name := fileName; entropy := (-1)%R;
           elf := isElfType; hash := zeroHashes |} in
      (* If they only want Linux ELFs. *)
      fileInfo <-
        (if elfOnly && isElfType then
           entropy <- orFatal (fileutils.Entropy fs filePath)
                        "error calculating entropy for file (%s): %v\n" filePath ;;
           Done (setEntropy fileInfo entropy)
         else Done fileInfo) ;;
      (* They want entropy on all files. *)
      fileInfo <-
        (if negb elfOnly then
           entropy <- orFatal (fileutils.Entropy fs filePath)
                        "error calculating entropy for file (%s): %v\n" filePath ;;
           Done (setEntropy fileInfo entropy)
         else Done fileInfo) ;;
      fileInfo <-
        (if Rge_dec (entropy fileInfo) entropyMaxVal then
           md5 <- orFatal (fileutils.HashMD5 fs filePath)
                    "error calculating MD5 hash for file (%s): %v\n" filePath ;;
           sha1 <- orFatal (fileutils.HashSHA1 fs filePath)
                     "error calculating SHA1 hash for file (%s): %v\n" filePath ;;
           sha256 <- orFatal (fileutils.HashSHA256 fs filePath)
                       "error calculating SHA256 hash for file (%s): %v\n" filePath ;;
           sha512 <- orFatal (fileutils.HashSHA512 fs filePath)
                       "error calculating SHA512 hash for file (%s): %v\n" filePath ;;
           Done (setHash fileInfo
                   {| md5 := md5; sha1 := sha1; sha256 := sha256; sha512 := sha512 |})
         else Done fileInfo) ;;
      Done (fileInfo, None)
  end.

(** The loop of [genPIDExePaths]: [n] turns from [pid], each appending the
    executable path of [pid]. *)
Fixpoint pidLoop (n : nat) (pid : Z) (pidPaths : list string) : list string :=
  match n with
  | O => pidPaths
  | S k =>
      pidLoop k (pid + 1)
        (pidPaths ++ [path.Join [constProcDir; strconv.Itoa pid; "/exe"%string]])
  end.

(** [for pid := constMinPID; pid < constMaxPID; pid++] makes
    [constMaxPID - constMinPID] turns. *)
Definition genPIDExePaths : list string * option error :=
  (pidLoop (Z.to_nat (constMaxPID - constMinPID)) constMinPID [], None).

(** What one call of [printResults] writes to standard output: the record
    and the layout ([%.2f] of the idealised entropy is not rendered). *)
Record printed : Type := {
  record : fileData;
  csvFormat : bool;
  delim : string
}.

Definition printResults (fileInfo : fileData) (csvFormat : bool) (delimChar : string)
  : printed :=
  {| record := fileInfo; csvFormat := csvFormat; delim := delimChar |}.

(** How the program ends: [os.Exit(0)] or a [log.Fatalf]. *)
Inductive exit : Type :=
| Exit0
| ExitFatal (format : string) (args : list arg).

(** The loop over [pidPaths] of the process mode, from the output written so
    far to the whole output and the way the program ends. *)
Fixpoint procLoop (fs : os.FileSystem) (entropyMaxVal : float64) (csvOutput : bool)
    (delimChar : string) (pidPaths : list string) (stdout : list printed)
  : list printed * exit :=
  match pidPaths with
  | [] => (stdout, Exit0)
  | pidPath :: rest =>
      (* Only check elf files which should be all these will be anyway. *)
      match checkFilePath fs pidPath true entropyMaxVal with
      | Fatal format args => (stdout, ExitFatal format args)
      | Done (fileInfo, err) =>
          (* anything that is not an error is a valid /proc/*/exe link we
             could see and process. We will analyze it. *)
          let stdout :=
            match err with
            | None =>
                if Rge_dec (entropy fileInfo) entropyMaxVal
                then stdout ++ [printResults fileInfo csvOutput delimChar]
                else stdout
            | Some _ => stdout
            end in
          procLoop fs entropyMaxVal csvOutput delimChar rest stdout
      end
  end.

(** [main] with [-proc]: a PID bust of all PID range. *)
Definition mainProc (fs : os.FileSystem) (entropyMaxVal : float64) (csvOutput : bool)
    (delimChar : string) : list printed * exit :=
  match genPIDExePaths with
  | (_, Some err) => ([], ExitFatal "error generating PID list: %v\n" [Err err])
  | (pidPaths, None) => procLoop fs entropyMaxVal csvOutput delimChar pidPaths []
  end.

(** [main] with [-file filePath]. *)
Definition mainFile (fs : os.FileSystem) (filePath : string) (elfOnly : bool)
    (entropyMaxVal : float64) (csvOutput : bool) (delimChar : string)
  : list printed * exit :=
  match checkFilePath fs filePath elfOnly entropyMaxVal with
  | Fatal format args => ([], ExitFatal format args)
  | Done (_, Some err) =>
      ([], ExitFatal "error processing file (%s): %v\n" [Str filePath; Err err])
  | Done (fileInfo, None) =>
      if Rge_dec (entropy fileInfo) entropyMaxVal
      then ([printResults fileInfo csvOutput delimChar], Exit0)
      else ([], Exit0)
  end.

(** What [Lstat] and the directory listings answer under each root. *)
Definition Forest : Type := string -> walk.Tree.

(** The function [search] that [main] passes to [filepath.Walk], from the
    output written so far. *)
Definition search (fs : os.FileSystem) (elfOnly : bool) (entropyMaxVal : float64)
    (csvOutput : bool) (delimChar : string)
    (filePath : string) (info : option walk.Info) (err : option error)
    (stdout : list printed) : list printed * option exit :=
  match err with
  | Some err =>
      (stdout,
       Some (ExitFatal "error walking directory (%s) inside search function: %v\n"
               [Str filePath; Err err]))
  | None =>
      (* If info comes back as nil we don't want to read it or we panic. *)
      match info with
      | None => (stdout, None)
      | Some info =>
          (* if not a directory, then check it for a file we want. *)
          if negb (walk.IsDir info) then
            (* Only check regular files. Checking devices, etc. won't work. *)
            if walk.IsRegular info then
              match checkFilePath fs filePath elfOnly entropyMaxVal with
              | Fatal format args => (stdout, Some (ExitFatal format args))
              | Done (_, Some err) =>
                  (stdout,
                   Some (ExitFatal "error processing file (%s): %v\n"
                           [Str filePath; Err err]))
              | Done (fileInfo, None) =>
                  if Rge_dec (entropy fileInfo) entropyMaxVal
                  then (stdout ++ [printResults fileInfo csvOutput delimChar], None)
                  else (stdout, None)
              end
            else (stdout, None)
          else (stdout, None)
      end
  end.

(** [main] with [-dir dirPath]: [search] never returns an error, so neither
    does [filepath.Walk], and the program ends in [os.Exit(0)] unless a
    [log.Fatalf] ended it before. *)
Definition mainDir (fs : os.FileSystem) (dirs : Forest) (dirPath : string)
    (elfOnly : bool) (entropyMaxVal : float64) (csvOutput : bool) (delimChar : string)
  : list printed * exit :=
  match walk.Walk (search fs elfOnly entropyMaxVal csvOutput delimChar)
          dirPath (dirs dirPath) [] with
  | (stdout, Some e) => (stdout, e)
  | (stdout, None) => (stdout, Exit0)
  end.

(* constVersion Version *)
Definition constVersion : string := "1.1".

(** The command line, as [flag.Parse] leaves it in the variables of [main]. *)
Record flags : Type := {
  flagFile : string;          (* -file, default "" *)
  flagDir : string;           (* -dir, default "" *)
  flagDelim : string;         (* -delim, default "," *)
  flagEntropy : float64;      (* -entropy, default 0 *)
  flagElf : bool;             (* -elf *)
  flagProc : bool;            (* -proc *)
  flagCsv : bool;             (* -csv *)
  flagVersion : bool          (* -version *)
}.

(** What the program writes to standard output: the lines of [-version] and
    the records of [printResults]. *)
Inductive output : Type :=
| Text (format : string) (args : list arg)
| Result (p : printed).

Definition results (r : list printed * exit) : list output * exit :=
  (map Result (fst r), snd r).

(** [main], after [flag.Parse]. *)
Definition main (fs : os.FileSystem) (dirs : Forest) (fl : flags) : list output * exit :=
  if flagVersion fl then
    ([Text "sandfly-entropyscan Version %s\n" [Str constVersion];
      Text "Copyright (c) 2019-2022 Sandlfy Security - www.sandflysecurity.com\n\n" []],
     Exit0)
  else if Rgt_dec (flagEntropy fl) 8 then ([], ExitFatal "max entropy value is 8.0" [])
  else if Rlt_dec (flagEntropy fl) 0 then ([], ExitFatal "min entropy value is 0.0" [])
  else if flagProc fl then
    results (mainProc fs (flagEntropy fl) (flagCsv fl) (flagDelim fl))
  else if negb (flagFile fl =? "")%string then
    results (mainFile fs (flagFile fl) (flagElf fl) (flagEntropy fl) (flagCsv fl)
               (flagDelim fl))
  else if negb (flagDir fl =? "")%string then
    results (mainDir fs dirs (flagDir fl) (flagElf fl) (flagEntropy fl) (flagCsv fl)
               (flagDelim fl))
  else ([], Exit0).

End main.

(** ** Vocabulary of the specification *)

(** The ELF magic number, [0x7F 'E' 'L' 'F']. *)
Definition elfMagic : list byte := [x7f; x45; x4c; x46].

(** A regular file holding [content], read without error. *)
Definition regularFile (content : list byte) : os.Node :=
  {| os.info := inl {| os.Mode := os.ModeRegular;
                       os.Size := Z.of_nat (List.length content) |};
     os.data := content;
     os.bad := None |}.

(** A node that is no regular file: nothing to read, size zero. *)
Definition specialFile (m : os.FileMode) : os.Node :=
  {| os.info := inl {| os.Mode := m; os.Size := 0 |};
     os.data := [];
     os.bad := None |}.

(** The target of [path] is a regular file of at least four bytes that
    starts with the ELF magic number. *)
Definition elfTarget (fs : os.FileSystem) (path : string) : Prop :=
  path <> EmptyString /\
  exists nd fi,
    fs path = inl nd /\ os.info nd = inl fi /\
    os.IsRegular (os.Mode fi) = true /\ 4 <= os.Size fi /\
    firstn 4 (os.data nd) = elfMagic.

(** The two size-violation errors of [fileutils]. *)
Definition sizeViolation (err : option error) : Prop :=
  exists what size,
    (what = "entropy"%string \/ what = "hash"%string) /\
    err = Some (Errorf ("file size (%d) is too large to calculate " ++ what
                         ++ " (max allowed: %d)")
                  [Int size; Int fileutils.constMaxFileSize]).

(** Number of bytes of [content] with value [v]. *)
Definition occurrences (v : nat) (content : list byte) : Z :=
  Z.of_nat (count_occ Nat.eq_dec (map byte_index content) v).

(** Observed probability of the byte value [v]. *)
Definition probability (v : nat) (content : list byte) : R :=
  (IZR (occurrences v content) / IZR (Z.of_nat (List.length content)))%R.

Definition Rsum (l : list R) : R := fold_right Rplus 0%R l.

(** Shannon entropy of the byte histogram: the sum of [- p * log2 p] over the
    256 byte values of probability [p > 0]. *)
Definition shannon (content : list byte) : R :=
  Rsum (map (fun v => (- probability v content * math_Log2 (probability v content))%R)
          (filter (fun v => 0 <? occurrences v content) (seq 0 256))).

(** [r] is [x] rounded to two decimal places. *)
Definition roundedTo2 (r x : R) : Prop :=
  (exists k : Z, r = IZR k / 100)%R /\ (Rabs (r - x) <= / 200)%R.

(** The file [os.Open] returns for [path] when the file system holds [nd]. *)
Definition opened (path : string) (nd : os.Node) : os.File :=
  {| os.Name := path; os.node := nd; os.pending := os.data nd |}.

(** The entropy field when the threshold is tested: the computed
    entropy, or the sentinel when the ELF-only policy skipped it. *)
Definition testedEntropy (fs : os.FileSystem) (filePath : string) (elfOnly isElf : bool)
  : float64 :=
  if negb elfOnly || isElf then fst (fileutils.Entropy fs filePath) else (-1)%R.

(** The histogram [Entropy] has built when its read loop ends: 256 counters,
    one more in the counter of each byte read. *)
Definition histogram (content : list byte) : list Z :=
  fold_left fileutils.countByte content (repeat 0 256).

(** The value [Entropy] returns for a file holding [content]. *)
Definition entropyOf (content : list byte) : float64 :=
  match content with
  | [] => 0%R
  | _ :: _ =>
      (math_Round
         (fileutils.sumLoop (histogram content) (Z.of_nat (List.length content)) * 100)
       / 100)%R
  end.

(** The string a digest function returns for a file holding [content]. *)
Definition encodedDigest (sum : list byte -> list byte) (content : list byte) : string :=
  match content with
  | [] => EmptyString
  | _ :: _ => hex.EncodeToString (sum content)
  end.

(** Decimal digits, and the number a string of decimal digits denotes. *)
Definition is_digit (c : ascii) : bool :=
  let n := Z.of_N (N_of_ascii c) in (48 <=? n) && (n <=? 57).

Fixpoint all_digits (s : string) : bool :=
  match s with
  | EmptyString => true
  | String c rest => is_digit c && all_digits rest
  end.

Fixpoint decimal_value (acc : Z) (s : string) : Z :=
  match s with
  | EmptyString => acc
  | String c rest => decimal_value (10 * acc + (Z.of_N (N_of_ascii c) - 48)) rest
  end.

(** The candidate path of one process id, as the specification writes it. *)
Definition exePath (pid : Z) : string :=
  ("/proc/" ++ strconv.Itoa pid ++ "/exe")%string.


Definition Zsum (l : list Z) : Z := fold_right Z.add 0 l.

(** What the walk of a tree amounts to for [search]: the regular files to
    check and the failures of [Lstat] and of the listings, in the order they
    are met. *)
Inductive visited : Type :=
| Check (filePath : string)
| Broken (filePath : string) (err : error).

Fixpoint visits (p : string) (t : walk.Tree) : list visited :=
  match t with
  | walk.Leaf walk.LRegular => [Check p]
  | walk.Leaf _ => []
  | walk.Vanished errno => [Broken p (PathError "lstat" p errno)]
  | walk.Unlisted errno => [Broken p (PathError "open" p errno)]
  | walk.Dir entries =>
      (fix each (names : list (string * walk.Tree)) : list visited :=
         match names with
         | [] => []
         | (name, child) :: rest => visits (path.Join [p; name]) child ++ each rest
         end) entries
  end.

(** The sweep in which every failure ends the program, over such a list. *)
Fixpoint strictLoop (fs : os.FileSystem) (elfOnly : bool) (entropyMaxVal : float64)
    (csvOutput : bool) (delimChar : string) (todo : list visited)
    (stdout : list main.printed) : list main.printed * main.exit :=
  match todo with
  | [] => (stdout, main.Exit0)
  | Broken filePath err :: _ =>
      (stdout,
       main.ExitFatal "error walking directory (%s) inside search function: %v\n"
         [Str filePath; Err err])
  | Check filePath :: rest =>
      match main.checkFilePath fs filePath elfOnly entropyMaxVal with
      | Fatal format args => (stdout, main.ExitFatal format args)
      | Done (_, Some err) =>
          (stdout,
           main.ExitFatal "error processing file (%s): %v\n" [Str filePath; Err err])
      | Done (fileInfo, None) =>
          strictLoop fs elfOnly entropyMaxVal csvOutput delimChar rest
            (if Rge_dec (main.entropy fileInfo) entropyMaxVal
             then stdout ++ [main.printResults fileInfo csvOutput delimChar]
             else stdout)
      end
  end.

(** A record as [checkFilePath] returns it for its own path, printed because
    its entropy meets the threshold, in the layout asked for. *)
Definition reported (fs : os.FileSystem) (elfOnly : bool) (entropyMaxVal : float64)
    (csvOutput : bool) (delimChar : string) (pr : main.printed) : Prop :=
  main.checkFilePath fs (main.path (main.record pr)) elfOnly entropyMaxVal
    = Done (main.record pr, None) /\
  (main.entropy (main.record pr) >= entropyMaxVal)%R /\
  main.csvFormat pr = csvOutput /\ main.delim pr = delimChar.

(** [s] is written with the lowercase hexadecimal digits only. *)
Definition lowerHex (s : string) : Prop :=
  Forall (fun c => In c hex.hextable) (list_ascii_of_string s).

(** ** A sample file system *)

Definition sampleFS : os.FileSystem := fun p =>
  if (p =? "/bin/true")%string then
    inl (regularFile (elfMagic ++ [x02; x01; x01; x00]))
  else if (p =? "/proc/1/exe")%string then
    inl (regularFile (elfMagic ++ [x02; x01; x01; x00]))
  else if (p =? "/etc/motd")%string then
    inl (regularFile (list_byte_of_string "hello"))
  else if (p =? "/tmp/aaaa")%string then
    inl (regularFile (repeat x61 4))
  else if (p =? "/tmp/tiny")%string then inl (regularFile [x7f; x45; x4c])
  else if (p =? "/tmp/empty")%string then inl (regularFile [])
  else if (p =? "/dev/null")%string then inl (specialFile os.ModeCharDevice)
  else if (p =? "/run/fifo")%string then inl (specialFile os.ModeNamedPipe)
  else if (p =? "/root/secret")%string then inr EACCES
  else inr ENOENT.

(** A directory with symbolic links: one to an ELF file, one whose target
    does not exist, one to itself. *)
Definition linkDir : os.Directory := fun p =>
  if (p =? "/usr/bin/true")%string then
    Some (os.Bound (regularFile (elfMagic ++ [x02; x01; x01; x00])))
  else if (p =? "/bin/true")%string then Some (os.Symlink "/usr/bin/true")
  else if (p =? "/tmp/dangling")%string then Some (os.Symlink "/tmp/gone")
  else if (p =? "/tmp/loop")%string then Some (os.Symlink "/tmp/loop")
  else None.

(** Files that fail while they are read: one whose reads fail with EIO after
    the first four bytes, one that ends before the size [Stat] announced. *)
Definition faultyFS : os.FileSystem := fun p =>
  if (p =? "/mnt/bad")%string then
    inl {| os.info := inl {| os.Mode := os.ModeRegular; os.Size := 8 |};
           os.data := elfMagic;
           os.bad := Some EIO |}
  else if (p =? "/mnt/short")%string then
    inl {| os.info := inl {| os.Mode := os.ModeRegular; os.Size := 4 |};
           os.data := [x7f; x45];
           os.bad := None |}
  else inr ENOENT.

(** A directory tree over [sampleFS]: two regular files, a device, a
    dangling link and a sub-directory; and one whose sub-directory cannot be
    listed. *)
Definition sampleForest : main.Forest := fun root =>
  if (root =? "/")%string then
    walk.Dir [("bin", walk.Dir [("true", walk.Leaf walk.LRegular)]);
              ("dev", walk.Dir [("null", walk.Leaf walk.LCharDevice)]);
              ("etc", walk.Dir [("motd", walk.Leaf walk.LRegular)]);
              ("tmp", walk.Dir [("dangling", walk.Leaf walk.LSymlink);
                                ("empty", walk.Leaf walk.LRegular)])]%string
  else if (root =? "/srv")%string then
    walk.Dir [("motd", walk.Leaf walk.LRegular);
              ("private", walk.Unlisted EACCES)]%string
  else walk.Vanished ENOENT.

(** A content in which every byte value occurs once. *)
Definition allBytes : list byte :=
  map (fun n => byte_of_Z (Z.of_nat n)) (seq 0 256).

(** The record of the empty file of [sampleFS], and a command line that
    asks for it: [-file /tmp/empty]. *)
Definition emptyRecord : main.fileData :=
  {| main.path := "/tmp/empty"; main.name := "empty"; main.entropy := 0%R;
     main.elf := false; main.hash := main.zeroHashes |}.

Definition sampleFlags : main.flags :=
  {| main.flagFile := "/tmp/empty"; main.flagDir := ""; main.flagDelim := ",";
     main.flagEntropy := 0%R; main.flagElf := false; main.flagProc := false;
     main.flagCsv := false; main.flagVersion := false |}.

(** The command line [fl] with another value for [-entropy]. *)
Definition atThreshold (fl : main.flags) (entropyMaxVal : float64) : main.flags :=
  {| main.flagFile := main.flagFile fl; main.flagDir := main.flagDir fl;
     main.flagDelim := main.flagDelim fl; main.flagEntropy := entropyMaxVal;
     main.flagElf := main.flagElf fl; main.flagProc := main.flagProc fl;
     main.flagCsv := main.flagCsv fl; main.flagVersion := main.flagVersion fl |}.

(** A regular file whose size is exactly the ceiling, and one a byte larger
    (only their sizes matter: no byte is listed). *)
Definition sizedFile (size : Z) : os.Node :=
  {| os.info := inl {| os.Mode := os.ModeRegular; os.Size := size |};
     os.data := [];
     os.bad := None |}.

Definition bigFS : os.FileSystem := fun p =>
  if (p =? "/var/at-limit")%string then inl (sizedFile 2147483648)
  else if (p =? "/var/over-limit")%string then inl (sizedFile 2147483649)
  else inr ENOENT.

(** * Properties *)

(** ** Tests on the sample file system *)

Example IsElfType_samples :
  fileutils.IsElfType sampleFS "/bin/true" = (true, None) /\
  fileutils.IsElfType sampleFS "/etc/motd" = (false, None) /\
  fileutils.IsElfType sampleFS "/tmp/tiny" = (false, None) /\
  fileutils.IsElfType sampleFS "/run/fifo" = (false, None) /\
  fileutils.IsElfType sampleFS "/proc/2/exe"
    = (false, Some (PathError "open" "/proc/2/exe" ENOENT)).
Proof. repeat split; reflexivity. Qed.

Example digests_of_abc :
  hex.EncodeToString (crypto.md5_Sum (list_byte_of_string "abc"))
    = "900150983cd24fb0d6963f7d28e17f72"%string /\
  hex.EncodeToString (crypto.sha1_Sum (list_byte_of_string "abc"))
    = "a9993e364706816aba3e25717850c26c9cd0d89d"%string /\
  hex.EncodeToString (crypto.sha256_Sum (list_byte_of_string "abc"))
    = "ba7816bf8f01cfea414140de5dae2223b00361a396177a9cb410ff61f20015ad"%string.
Proof. repeat split; vm_compute; reflexivity. Qed.

Example HashMD5_samples :
  fileutils.HashMD5 sampleFS "/etc/motd"
    = ("5d41402abc4b2a76b9719d911017c592"%string, None) /\
  fileutils.HashMD5 sampleFS "/tmp/empty" = (EmptyString, None).
Proof. split; vm_compute; reflexivity. Qed.

Example read_failures :
  fileutils.IsElfType faultyFS "/mnt/bad" = (true, None) /\
  fileutils.IsElfType faultyFS "/mnt/short" = (false, Some ErrUnexpectedEOF) /\
  fileutils.Entropy faultyFS "/mnt/bad"
    = (0%R, Some (PathError "read" "/mnt/bad" EIO)) /\
  fileutils.HashSHA1 faultyFS "/mnt/bad"
    = (EmptyString,
       Some (Errorf "couldn't read path (%s) to get SHA1 hash: %v"
               [Str "/mnt/bad"; Err (PathError "read" "/mnt/bad" EIO)])) /\
  main.checkFilePath faultyFS "/mnt/bad" true 0%R
    = Fatal "error calculating entropy for file (%s): %v\n"
        [Str "/mnt/bad"; Err (PathError "read" "/mnt/bad" EIO)].
Proof. repeat split; reflexivity. Qed.

Example genPID_samples :
  main.pidLoop 3 main.constMinPID []
    = ["/proc/1/exe"; "/proc/2/exe"; "/proc/3/exe"]%string /\
  path.Join [main.constProcDir; strconv.Itoa 4194303; "/exe"]%string
    = "/proc/4194303/exe"%string /\
  exePath 1 = "/proc/1/exe"%string /\
  exePath 4194303 = "/proc/4194303/exe"%string.
Proof. repeat split; vm_compute; reflexivity. Qed.

(** ** The functions of [fileutils] on a target that opens *)

Lemma bytes_Equal_eq (a b : list byte) : bytes_Equal a b = true <-> a = b.
Proof.
  revert b; induction a as [|x a IH]; intros [|y b]; simpl;
    try (split; [discriminate | discriminate]); [tauto|].
  rewrite andb_true_iff, IH. split.
  - intros [Hxy ->]. apply Byte.byte_dec_bl in Hxy. now subst.
  - intros H; injection H as -> ->. split; [now apply Byte.byte_dec_lb | reflexivity].
Qed.

Lemma magic_decoded : hex.DecodeString fileutils.constMagicNumElf = inl elfMagic.
Proof. reflexivity. Qed.

Lemma path_eqb_false (path : string) :
  path <> EmptyString -> (path =? "")%string = false.
Proof. intros H. now apply String.eqb_neq. Qed.

Section Opened.
Variables (fs : os.FileSystem) (path : string) (nd : os.Node) (fi : os.FileInfo).
Hypothesis Hpath : path <> EmptyString.
Hypothesis Hopen : fs path = inl nd.
Hypothesis Hinfo : os.info nd = inl fi.

Lemma IsElfType_opened :
  fileutils.IsElfType fs path =
    if negb (os.IsRegular (os.Mode fi)) then (false, None)
    else if os.Size fi <? 4 then (false, None)
    else
      match io.ReadFull (opened path nd) 4 with
      | (_, Some err) => (false, Some err)
      | (hexData, None) => (bytes_Equal (firstn 4 hexData) elfMagic, None)
      end.
Proof.
  unfold fileutils.IsElfType, os.Open, os.Stat.
  rewrite (path_eqb_false _ Hpath), Hopen. cbn [os.node]. rewrite Hinfo.
  destruct (negb _); [reflexivity|].
  change fileutils.constMagicNumRead with 4.
  destruct (os.Size fi <? 4); [reflexivity|].
  rewrite magic_decoded. change (Z.to_nat 4) with 4%nat. fold (opened path nd).
  destruct (io.ReadFull (opened path nd) 4) as [hexData [err|]]; [reflexivity|].
  cbn [List.length elfMagic Z.of_nat].
  change (Z.of_nat 4 >? 4) with false. cbv iota.
  now destruct (bytes_Equal _ _).
Qed.

Lemma Entropy_opened :
  fileutils.Entropy fs path =
    if negb (os.IsRegular (os.Mode fi)) then
      (0%R, Some (Errorf "file (%s) is not a regular file to calculate entropy" [Str path]))
    else if os.Size fi =? 0 then (0%R, None)
    else if os.Size fi >? fileutils.constMaxFileSize then
      (0%R,
       Some (Errorf "file size (%d) is too large to calculate entropy (max allowed: %d)"
               [Int (os.Size fi); Int fileutils.constMaxFileSize]))
    else
      match fileutils.readLoop (opened path nd) (repeat 0 256) with
      | inr err => (0%R, Some err)
      | inl byteCounts =>
          ((math_Round (fileutils.sumLoop byteCounts (os.Size fi) * 100) / 100)%R, None)
      end.
Proof.
  unfold fileutils.Entropy, os.Open, os.Stat.
  rewrite (path_eqb_false _ Hpath), Hopen. cbn [os.node]. now rewrite Hinfo.
Qed.

Lemma hashFile_opened (new : Hash) (readErr : string) :
  fileutils.hashFile new readErr fs path =
    if negb (os.IsRegular (os.Mode fi)) then
      (EmptyString,
       Some (Errorf "file (%s) is not a regular file to calculate hash" [Str path]))
    else if os.Size fi =? 0 then (EmptyString, None)
    else if os.Size fi >? fileutils.constMaxFileSize then
      (EmptyString,
       Some (Errorf "file size (%d) is too large to calculate hash (max allowed: %d)"
               [Int (os.Size fi); Int fileutils.constMaxFileSize]))
    else
      match os.bad nd with
      | Some errno =>
          (EmptyString,
           Some (Errorf readErr [Str path; Err (PathError "read" path errno)]))
      | None =>
          (hex.EncodeToString (digest new (written new ++ os.data nd)), None)
      end.
Proof.
  unfold fileutils.hashFile, os.Open, os.Stat.
  rewrite (path_eqb_false _ Hpath), Hopen. cbn [os.node]. rewrite Hinfo.
  destruct (negb _); [reflexivity|].
  destruct (os.Size fi =? 0); [reflexivity|].
  destruct (os.Size fi >? _); [reflexivity|].
  unfold io_Copy, os.ending, Hash_Sum, Hash_Write. cbn [os.node os.Name os.pending].
  destruct (os.bad nd); reflexivity.
Qed.
End Opened.

(** A target that cannot be opened: every function reports the failure. *)
Lemma IsElfType_unopened fs path errno :
  fs path = inr errno -> exists err, fileutils.IsElfType fs path = (false, Some err).
Proof.
  intros H. unfold fileutils.IsElfType, os.Open. rewrite H.
  destruct (path =? "")%string; eexists; reflexivity.
Qed.

(** [IsElfType] never answers [true] together with an error. *)
Lemma IsElfType_true_no_error fs path err :
  fileutils.IsElfType fs path <> (true, Some err).
Proof.
  unfold fileutils.IsElfType.
  repeat match goal with
         | |- context [if ?c then _ else _] => destruct c
         | |- context [match ?x with _ => _ end] => destruct x
         end; discriminate.
Qed.

(** ** C2: ELF detection *)

Lemma ReadFull_4 (f : os.File) :
  (exists hexData, io.ReadFull f 4 = (hexData, None) /\ firstn 4 hexData = firstn 4 (os.pending f)
                   /\ (4 <= List.length (os.pending f))%nat)
  \/ (exists got err, io.ReadFull f 4 = (got, Some err) /\ (List.length (os.pending f) < 4)%nat).
Proof.
  unfold io.ReadFull. destruct (4 <=? _)%nat eqn:E.
  - left. eexists. split; [reflexivity|]. apply Nat.leb_le in E. split; [|exact E].
    now rewrite firstn_firstn.
  - right. apply Nat.leb_gt in E.
    destruct (os.pending f), (os.ending f); eauto.
Qed.

(** C2, as the code has it: a broken symbolic link is never seen as a file
    that is not regular; it does not open, and [IsElfType] returns the open
    error. *)
Lemma broken_symlink_counterexample :
  linkDir "/tmp/dangling"%string = Some (os.Symlink "/tmp/gone") /\
  linkDir "/tmp/gone"%string = None /\
  fileutils.IsElfType (os.mount linkDir) "/tmp/dangling"
    = (false, Some (PathError "open" "/tmp/dangling" ENOENT)).
Proof. repeat split; reflexivity. Qed.

Example IsElfType_through_links :
  fileutils.IsElfType (os.mount linkDir) "/bin/true" = (true, None) /\
  fileutils.IsElfType (os.mount linkDir) "/tmp/loop"
    = (false, Some (PathError "open" "/tmp/loop" ELOOP)).
Proof. split; reflexivity. Qed.

(** C2 (amended). [IsElfType] answers [true] exactly for a target that is a
    regular file of at least 4 bytes starting with 7F 45 4C 46 (and then
    without error); a regular file of fewer than 4 bytes and a file that
    opens and is not regular both give [false] and no error; a target that
    does not open, as a broken symbolic link, gives [false] and the open
    error. *)
Theorem IsElfType_spec (fs : os.FileSystem) (path : string) :
  (fileutils.IsElfType fs path = (true, None) <-> elfTarget fs path) /\
  (fst (fileutils.IsElfType fs path) = true <-> elfTarget fs path) /\
  (forall nd fi,
      path <> EmptyString -> fs path = inl nd -> os.info nd = inl fi ->
      (os.IsRegular (os.Mode fi) = true /\ os.Size fi < 4 \/
       os.IsRegular (os.Mode fi) = false) ->
      fileutils.IsElfType fs path = (false, None)) /\
  (forall errno,
      path <> EmptyString -> fs path = inr errno ->
      fileutils.IsElfType fs path = (false, Some (PathError "open" path errno))) /\
  (forall d target,
      d path = Some (os.Symlink target) -> d target = None ->
      os.mount d path = inr ENOENT).
Proof.
  assert (Hiff : fileutils.IsElfType fs path = (true, None) <-> elfTarget fs path).
  { split.
    - intros H. unfold elfTarget.
      destruct (String.eqb_spec path "") as [->|Hp]; [discriminate H|].
      split; [exact Hp|].
      destruct (fs path) as [nd|errno] eqn:Hopen.
      2:{ destruct (IsElfType_unopened _ _ _ Hopen) as [e He]. congruence. }
      destruct (os.info nd) as [fi|errno] eqn:Hinfo.
      2:{ unfold fileutils.IsElfType, os.Open, os.Stat in H.
          rewrite (path_eqb_false _ Hp), Hopen in H. cbn [os.node] in H.
          rewrite Hinfo in H. discriminate. }
      exists nd, fi. rewrite (IsElfType_opened fs path nd fi Hp Hopen Hinfo) in H.
      destruct (os.IsRegular (os.Mode fi)); [|discriminate]. cbn [negb] in H.
      destruct (Z.ltb_spec (os.Size fi) 4); [discriminate|].
      destruct (ReadFull_4 (opened path nd)) as [(hx & Hr & Hfst & _)|(got & err & Hr & _)];
        rewrite Hr in H; [|discriminate].
      assert (H' : bytes_Equal (firstn 4 hx) elfMagic = true) by congruence.
      apply bytes_Equal_eq in H'. rewrite Hfst in H'.
      repeat split; auto.
    - intros (Hp & nd & fi & Hopen & Hinfo & Hreg & Hsize & Hmagic).
      rewrite (IsElfType_opened fs path nd fi Hp Hopen Hinfo), Hreg. cbn [negb].
      destruct (Z.ltb_spec (os.Size fi) 4); [lia|].
      destruct (ReadFull_4 (opened path nd)) as [(hx & Hr & Hfst & _)|(got & err & Hr & Hlen)];
        rewrite Hr.
      + cbn [opened os.pending] in Hfst. rewrite Hfst, Hmagic.
        now replace (bytes_Equal elfMagic elfMagic) with true by reflexivity.
      + cbn [opened os.pending] in Hlen.
        assert (List.length (firstn 4 (os.data nd)) = 4%nat) by now rewrite Hmagic.
        rewrite length_firstn in *. lia. }
  split; [exact Hiff|]. split; [|split; [|split]].
  - rewrite <- Hiff. destruct (fileutils.IsElfType fs path) as [b [err|]] eqn:E; cbn [fst].
    + split; [intros ->; now apply IsElfType_true_no_error in E | discriminate].
    + split; [now intros -> | congruence].
  - intros nd fi Hp Hopen Hinfo Hcase.
    rewrite (IsElfType_opened fs path nd fi Hp Hopen Hinfo).
    destruct Hcase as [[-> Hsz]| ->]; cbn [negb]; [|reflexivity].
    now destruct (Z.ltb_spec (os.Size fi) 4); [|lia].
  - intros errno Hp Hopen. unfold fileutils.IsElfType, os.Open.
    now rewrite (path_eqb_false _ Hp), Hopen.
  - intros d target Hlink Hgone. unfold os.mount. cbn [os.follow].
    now rewrite Hlink, Hgone.
Qed.

(** ** The read loop of [Entropy] *)

Lemma chunk_positive : (0 < Z.to_nat fileutils.constMaxEntropyChunk)%nat.
Proof. unfold fileutils.constMaxEntropyChunk. lia. Qed.

(** A read with a non-empty buffer either finds the end of the stream or
    takes a non-empty prefix of the pending bytes. *)
Lemma Read_inv (f : os.File) (n : nat) dataBytes err f' :
  (0 < n)%nat -> os.Read f n = (dataBytes, err, f') ->
  (os.pending f = [] /\ dataBytes = [] /\ err = Some (os.ending f) /\ f' = f) \/
  (os.pending f <> [] /\ dataBytes = firstn n (os.pending f) /\ err = None /\
   f' = {| os.Name := os.Name f; os.node := os.node f;
           os.pending := skipn n (os.pending f) |}).
Proof.
  intros Hn. unfold os.Read. destruct n as [|k]; [lia|].
  destruct (os.pending f) as [|b rest]; intros H; injection H as <- <- <-.
  - left. auto.
  - right. repeat split; auto. discriminate.
Qed.

(** The loop returns the histogram of all pending bytes, or the read error
    that ends the stream. *)
Lemma readLoop_spec (f : os.File) (byteCounts : list Z) :
  fileutils.readLoop f byteCounts =
    match os.bad (os.node f) with
    | None => inl (fold_left fileutils.countByte (os.pending f) byteCounts)
    | Some errno => inr (PathError "read" (os.Name f) errno)
    end.
Proof.
  functional induction (fileutils.readLoop f byteCounts) as
    [f byteCounts d e f' Hread Heof | f byteCounts d e f' Hread Heof
    | f byteCounts d f' Hread IH];
    apply (Read_inv _ _ _ _ _ chunk_positive) in Hread;
    destruct Hread as [(Hp & _ & He & _) | (Hp & Hd & He & Hf)]; try discriminate.
  - injection He as ->. unfold os.ending in Heof.
    destruct (os.bad (os.node f)); [discriminate|]. now rewrite Hp.
  - injection He as ->. unfold os.ending in *.
    destruct (os.bad (os.node f)); [reflexivity|discriminate].
  - rewrite IH. subst f' d. cbn [os.node os.pending os.Name].
    destruct (os.bad (os.node f)); [reflexivity|].
    now rewrite <- fold_left_app, firstn_skipn.
Qed.

(** ** C5: the size ceiling *)

Lemma sizeViolation_entropy size :
  sizeViolation
    (Some (Errorf "file size (%d) is too large to calculate entropy (max allowed: %d)"
             [Int size; Int fileutils.constMaxFileSize])).
Proof. exists "entropy"%string, size. split; [now left | reflexivity]. Qed.

Lemma sizeViolation_hash size :
  sizeViolation
    (Some (Errorf "file size (%d) is too large to calculate hash (max allowed: %d)"
             [Int size; Int fileutils.constMaxFileSize])).
Proof. exists "hash"%string, size. split; [now right | reflexivity]. Qed.

Ltac not_size_violation :=
  let what := fresh "what" in
  let size := fresh "size" in
  let H := fresh "H" in
  intros (what & size & _ & H); discriminate H.

Section SizeCeiling.
Variables (fs : os.FileSystem) (path : string) (nd : os.Node) (fi : os.FileInfo).
Hypothesis Hpath : path <> EmptyString.
Hypothesis Hopen : fs path = inl nd.
Hypothesis Hinfo : os.info nd = inl fi.
Hypothesis Hreg : os.IsRegular (os.Mode fi) = true.

Lemma Entropy_size_violation :
  sizeViolation (snd (fileutils.Entropy fs path))
  <-> os.Size fi > fileutils.constMaxFileSize.
Proof.
  rewrite (Entropy_opened fs path nd fi Hpath Hopen Hinfo), Hreg. cbn [negb].
  destruct (Z.eqb_spec (os.Size fi) 0) as [E|E].
  { cbn [snd]. rewrite E. split; [not_size_violation | discriminate]. }
  destruct (os.Size fi >? fileutils.constMaxFileSize) eqn:G; cbn [snd].
  - split; [intros _; now apply Z.gtb_gt | intros _; apply sizeViolation_entropy].
  - assert (~ os.Size fi > fileutils.constMaxFileSize).
    { intros Hgt. apply Z.gtb_gt in Hgt. congruence. }
    rewrite readLoop_spec. cbn [opened os.node os.Name].
    destruct (os.bad nd); cbn [snd]; (split; [not_size_violation | tauto]).
Qed.

Lemma hashFile_size_violation (new : Hash) (readErr : string) :
  sizeViolation (snd (fileutils.hashFile new readErr fs path))
  <-> os.Size fi > fileutils.constMaxFileSize.
Proof.
  rewrite (hashFile_opened fs path nd fi Hpath Hopen Hinfo), Hreg. cbn [negb].
  destruct (Z.eqb_spec (os.Size fi) 0) as [E|E].
  { cbn [snd]. rewrite E. split; [not_size_violation | discriminate]. }
  destruct (os.Size fi >? fileutils.constMaxFileSize) eqn:G; cbn [snd].
  - split; [intros _; now apply Z.gtb_gt | intros _; apply sizeViolation_hash].
  - assert (~ os.Size fi > fileutils.constMaxFileSize).
    { intros Hgt. apply Z.gtb_gt in Hgt. congruence. }
    destruct (os.bad nd); cbn [snd]; (split; [not_size_violation | tauto]).
Qed.
End SizeCeiling.

(** C5. On a regular file, [Entropy] and each of the four digest functions
    fail with a size-violation error exactly when the size is strictly above
    2,147,483,648 bytes; so all five fail on the same files, and a file of
    exactly 2,147,483,648 bytes gets no size error from any of them. *)
Theorem size_ceiling (fs : os.FileSystem) (path : string) (nd : os.Node)
    (fi : os.FileInfo) :
  path <> EmptyString -> fs path = inl nd -> os.info nd = inl fi ->
  os.IsRegular (os.Mode fi) = true ->
  fileutils.constMaxFileSize = 2147483648 /\
  (sizeViolation (snd (fileutils.Entropy fs path)) <-> os.Size fi > 2147483648) /\
  (sizeViolation (snd (fileutils.HashMD5 fs path)) <-> os.Size fi > 2147483648) /\
  (sizeViolation (snd (fileutils.HashSHA1 fs path)) <-> os.Size fi > 2147483648) /\
  (sizeViolation (snd (fileutils.HashSHA256 fs path)) <-> os.Size fi > 2147483648) /\
  (sizeViolation (snd (fileutils.HashSHA512 fs path)) <-> os.Size fi > 2147483648) /\
  (os.Size fi = 2147483648 ->
   ~ sizeViolation (snd (fileutils.Entropy fs path)) /\
   ~ sizeViolation (snd (fileutils.HashMD5 fs path)) /\
   ~ sizeViolation (snd (fileutils.HashSHA1 fs path)) /\
   ~ sizeViolation (snd (fileutils.HashSHA256 fs path)) /\
   ~ sizeViolation (snd (fileutils.HashSHA512 fs path))).
Proof.
  intros Hpath Hopen Hinfo Hreg.
  pose proof (Entropy_size_violation fs path nd fi Hpath Hopen Hinfo Hreg) as HE.
  pose proof (hashFile_size_violation fs path nd fi Hpath Hopen Hinfo Hreg) as HH.
  change fileutils.constMaxFileSize with 2147483648 in HE, HH.
  unfold fileutils.HashMD5, fileutils.HashSHA1, fileutils.HashSHA256, fileutils.HashSHA512.
  repeat split; try apply HE; try apply HH;
    try (rewrite HE; lia); try (rewrite HH; lia).
Qed.

Lemma size_ceiling_witness :
  bigFS "/var/over-limit"%string = inl (sizedFile 2147483649) /\
  sizeViolation (snd (fileutils.Entropy bigFS "/var/over-limit")) /\
  sizeViolation (snd (fileutils.HashMD5 bigFS "/var/over-limit")) /\
  ~ sizeViolation (snd (fileutils.HashSHA256 bigFS "/var/at-limit")).
Proof.
  destruct (size_ceiling bigFS "/var/over-limit" (sizedFile 2147483649)
              {| os.Mode := os.ModeRegular; os.Size := 2147483649 |})
    as (_ & HE & HM & _); [discriminate | reflexivity | reflexivity | reflexivity |].
  destruct (size_ceiling bigFS "/var/at-limit" (sizedFile 2147483648)
              {| os.Mode := os.ModeRegular; os.Size := 2147483648 |})
    as (_ & _ & _ & _ & _ & _ & Hat); [discriminate | reflexivity | reflexivity | reflexivity |].
  split; [reflexivity|]. split; [apply HE; reflexivity|].
  split; [apply HM; reflexivity|]. now apply Hat.
Defined.

(** The two files of [bigFS]: at the ceiling the entropy is computed (here
    of no byte at all), one byte above it both functions refuse. *)
Example size_ceiling_samples :
  snd (fileutils.Entropy bigFS "/var/at-limit") = None /\
  snd (fileutils.HashMD5 bigFS "/var/at-limit") = None /\
  snd (fileutils.Entropy bigFS "/var/over-limit")
    = Some (Errorf "file size (%d) is too large to calculate entropy (max allowed: %d)"
              [Int 2147483649; Int 2147483648]) /\
  snd (fileutils.HashSHA512 bigFS "/var/over-limit")
    = Some (Errorf "file size (%d) is too large to calculate hash (max allowed: %d)"
              [Int 2147483649; Int 2147483648]).
Proof.
  repeat split; reflexivity.
Qed.

(** ** C8: digests of a zero-length file *)

(** On empty input the four algorithms give their well-known digests. *)
Example empty_input_digests :
  hex.EncodeToString (crypto.md5_Sum []) = "d41d8cd98f00b204e9800998ecf8427e"%string /\
  hex.EncodeToString (crypto.sha1_Sum [])
    = "da39a3ee5e6b4b0d3255bfef95601890afd80709"%string /\
  hex.EncodeToString (crypto.sha256_Sum [])
    = "e3b0c44298fc1c149afbf4c8996fb92427ae41e4649b934ca495991b7852b855"%string /\
  hex.EncodeToString (crypto.sha512_Sum [])
    = ("cf83e1357eefb8bdf1542850d66d8007d620e4050b5715dc83f4a921d36ce9ce"
       ++ "47d0d13c5d85f2b0ff8318d2877eec2f63b931bd47417a81a538327af927da3e")%string.
Proof. repeat split; vm_compute; reflexivity. Qed.

(** C8, as the code has it: the four functions do not hash a zero-length
    file; each returns the empty string, which is not the digest of the empty
    input. *)
Lemma empty_file_digest_counterexample :
  fileutils.HashMD5 sampleFS "/tmp/empty" = (EmptyString, None) /\
  fileutils.HashSHA1 sampleFS "/tmp/empty" = (EmptyString, None) /\
  fileutils.HashSHA256 sampleFS "/tmp/empty" = (EmptyString, None) /\
  fileutils.HashSHA512 sampleFS "/tmp/empty" = (EmptyString, None) /\
  fst (fileutils.HashMD5 sampleFS "/tmp/empty")
    <> "d41d8cd98f00b204e9800998ecf8427e"%string /\
  fst (fileutils.HashMD5 sampleFS "/tmp/empty")
    <> hex.EncodeToString (crypto.md5_Sum []).
Proof.
  repeat split; try reflexivity.
  - discriminate.
  - vm_compute. discriminate.
Qed.

(** Every character [hex.EncodeToString] writes is a lowercase digit. *)
Lemma digit_lower (n : Z) : In (hex.digit n) hex.hextable.
Proof.
  unfold hex.digit.
  destruct (Nat.lt_ge_cases (Z.to_nat n) (List.length hex.hextable)) as [H|H].
  - now apply nth_In.
  - rewrite nth_overflow by exact H. now left.
Qed.

Lemma EncodeToString_lower (bs : list byte) : lowerHex (hex.EncodeToString bs).
Proof.
  unfold lowerHex. induction bs as [|b bs IH]; [constructor|].
  cbn [hex.EncodeToString list_ascii_of_string].
  constructor; [apply digit_lower|]. constructor; [apply digit_lower | exact IH].
Qed.

(** ** Regular files that read without error *)

Section RegularFile.
Variables (fs : os.FileSystem) (path : string) (content : list byte).
Hypothesis Hpath : path <> EmptyString.
Hypothesis Hopen : fs path = inl (regularFile content).

Lemma IsElfType_regular : exists isElf, fileutils.IsElfType fs path = (isElf, None).
Proof.
  rewrite (IsElfType_opened fs path (regularFile content) _ Hpath Hopen eq_refl).
  cbn [regularFile os.IsRegular os.Mode os.Size negb].
  destruct (Z.ltb_spec (Z.of_nat (List.length content)) 4); [eauto|].
  unfold io.ReadFull. cbn [opened os.pending regularFile os.data].
  destruct (Nat.leb_spec 4 (List.length content)); [eauto | lia].
Qed.

Hypothesis Hsize : Z.of_nat (List.length content) <= fileutils.constMaxFileSize.

Lemma content_cases : content = [] \/ exists b rest, content = b :: rest.
Proof. destruct content; eauto. Qed.

Lemma size_tests_pass b rest :
  content = b :: rest ->
  (Z.of_nat (List.length content) =? 0) = false /\
  (Z.of_nat (List.length content) >? fileutils.constMaxFileSize) = false.
Proof.
  intros E. split.
  - apply Z.eqb_neq. rewrite E. cbn [List.length]. lia.
  - destruct (Z.gtb_spec (Z.of_nat (List.length content)) fileutils.constMaxFileSize);
      [lia | reflexivity].
Qed.

Lemma Entropy_regular : fileutils.Entropy fs path = (entropyOf content, None).
Proof.
  rewrite (Entropy_opened fs path (regularFile content) _ Hpath Hopen eq_refl).
  cbn [regularFile os.IsRegular os.Mode os.Size negb].
  destruct content_cases as [E | (b & rest & E)]; [now rewrite E|].
  destruct (size_tests_pass b rest E) as [-> ->].
  rewrite readLoop_spec. cbn [opened os.node os.bad os.pending os.data regularFile].
  unfold entropyOf, histogram. now rewrite E.
Qed.

Lemma hashFile_regular (new : Hash) (readErr : string) :
  written new = [] ->
  fileutils.hashFile new readErr fs path = (encodedDigest (digest new) content, None).
Proof.
  intros Hw.
  rewrite (hashFile_opened fs path (regularFile content) _ Hpath Hopen eq_refl).
  cbn [regularFile os.IsRegular os.Mode os.Size os.bad os.data negb].
  rewrite Hw. cbn [app].
  destruct content_cases as [E | (b & rest & E)]; [now rewrite E|].
  destruct (size_tests_pass b rest E) as [-> ->]. now rewrite E.
Qed.
End RegularFile.

(** C8 (amended). On a regular file that reads without error and is within
    the size ceiling, each digest function returns no error and: the empty
    string when the file has zero length (no digest is computed), the
    lowercase hexadecimal digest of the content otherwise. *)
Theorem digests_of_regular_file (fs : os.FileSystem) (path : string)
    (content : list byte) :
  path <> EmptyString -> fs path = inl (regularFile content) ->
  Z.of_nat (List.length content) <= fileutils.constMaxFileSize ->
  fileutils.HashMD5 fs path = (encodedDigest crypto.md5_Sum content, None) /\
  fileutils.HashSHA1 fs path = (encodedDigest crypto.sha1_Sum content, None) /\
  fileutils.HashSHA256 fs path = (encodedDigest crypto.sha256_Sum content, None) /\
  fileutils.HashSHA512 fs path = (encodedDigest crypto.sha512_Sum content, None) /\
  (forall sum, encodedDigest sum [] = EmptyString) /\
  (forall sum b rest,
      encodedDigest sum (b :: rest) = hex.EncodeToString (sum (b :: rest))) /\
  (forall sum, lowerHex (encodedDigest sum content)).
Proof.
  intros Hpath Hopen Hsize.
  unfold fileutils.HashMD5, fileutils.HashSHA1, fileutils.HashSHA256, fileutils.HashSHA512.
  rewrite !(hashFile_regular fs path content Hpath Hopen Hsize) by reflexivity.
  repeat split.
  intros sum. destruct content; [constructor | apply EncodeToString_lower].
Qed.

Lemma digests_of_regular_file_witness :
  sampleFS "/tmp/empty"%string = inl (regularFile []) /\
  fileutils.HashMD5 sampleFS "/tmp/empty" = (EmptyString, None) /\
  fileutils.HashSHA512 sampleFS "/tmp/empty" = (EmptyString, None).
Proof.
  destruct (digests_of_regular_file sampleFS "/tmp/empty" [])
    as (H1 & _ & _ & H4 & _); [discriminate | reflexivity | discriminate |].
  split; [reflexivity|]. split; [exact H1 | exact H4].
Defined.

(** ** C4: the ELF-only short cut *)

(** C4. With [elfOnly = true] and a threshold in [0, 8], a target the
    signature check finds not to be ELF (without error) gets a record with
    the sentinel entropy -1 and four empty digests: neither the entropy nor a
    digest is computed. *)
Theorem elfOnly_skips_non_elf (fs : os.FileSystem) (filePath : string)
    (entropyThreshold : float64) :
  (0 <= entropyThreshold <= 8)%R ->
  fileutils.IsElfType fs filePath = (false, None) ->
  main.checkFilePath fs filePath true entropyThreshold
    = Done ({| main.path := filePath;
               main.name := snd (filepath.Split filePath);
               main.entropy := (-1)%R;
               main.elf := false;
               main.hash := {| main.md5 := ""; main.sha1 := "";
                               main.sha256 := ""; main.sha512 := "" |} |},
            None).
Proof.
  intros Hthr Helf. unfold main.checkFilePath. rewrite Helf.
  destruct (filepath.Split filePath) as [dir fileName]. cbn [andb negb bind snd].
  destruct (Rge_dec _ _) as [Hge|_]; [cbn [main.entropy] in Hge; lra | reflexivity].
Qed.

Lemma elfOnly_skips_non_elf_witness :
  (0 <= 7.5 <= 8)%R /\
  fileutils.IsElfType sampleFS "/etc/motd" = (false, None) /\
  main.checkFilePath sampleFS "/etc/motd" true 7.5%R
    = Done ({| main.path := "/etc/motd"; main.name := "motd";
               main.entropy := (-1)%R; main.elf := false;
               main.hash := main.zeroHashes |}, None).
Proof.
  split; [lra|]. split; [reflexivity|].
  apply (elfOnly_skips_non_elf sampleFS "/etc/motd" 7.5%R); [lra | reflexivity].
Defined.

(** ** C10: which failures [checkFilePath] returns and which end the program *)

(** When the signature check succeeds, [checkFilePath] either returns a
    record without error or ends the program. *)
Lemma checkFilePath_after_signature fs filePath elfOnly thr isElf :
  fileutils.IsElfType fs filePath = (isElf, None) ->
  (exists fileInfo, main.checkFilePath fs filePath elfOnly thr = Done (fileInfo, None)) \/
  (exists format err,
      main.checkFilePath fs filePath elfOnly thr = Fatal format [Str filePath; Err err]).
Proof.
  intros Helf. unfold main.checkFilePath. rewrite Helf.
  destruct (filepath.Split filePath) as [dir fileName].
  destruct (fileutils.Entropy fs filePath) as [e [err|]];
    destruct elfOnly, isElf; cbn [andb negb bind orFatal]; eauto;
    destruct (Rge_dec _ _); cbn [bind]; eauto;
    destruct (fileutils.HashMD5 fs filePath) as [? [?|]]; cbn [bind orFatal]; eauto;
    destruct (fileutils.HashSHA1 fs filePath) as [? [?|]]; cbn [bind orFatal]; eauto;
    destruct (fileutils.HashSHA256 fs filePath) as [? [?|]]; cbn [bind orFatal]; eauto;
    destruct (fileutils.HashSHA512 fs filePath) as [? [?|]]; cbn [bind orFatal]; eauto.
Qed.

(** C10. [checkFilePath] returns an error exactly when [IsElfType] does (and
    it is that error).  When the entropy is computed and [Entropy] fails, and
    when the threshold test passes and one of the four digest functions
    fails, no value is returned: the program ends in [log.Fatalf]. *)
Theorem checkFilePath_errors (fs : os.FileSystem) (filePath : string)
    (elfOnly : bool) (entropyMaxVal : float64) :
  (forall err,
      (exists fileInfo,
          main.checkFilePath fs filePath elfOnly entropyMaxVal = Done (fileInfo, Some err))
      <-> (exists isElf, fileutils.IsElfType fs filePath = (isElf, Some err))) /\
  (forall isElf err,
      fileutils.IsElfType fs filePath = (isElf, None) ->
      negb elfOnly || isElf = true ->
      snd (fileutils.Entropy fs filePath) = Some err ->
      main.checkFilePath fs filePath elfOnly entropyMaxVal
        = Fatal "error calculating entropy for file (%s): %v\n" [Str filePath; Err err]) /\
  (forall isElf,
      fileutils.IsElfType fs filePath = (isElf, None) ->
      (negb elfOnly || isElf = true -> snd (fileutils.Entropy fs filePath) = None) ->
      (testedEntropy fs filePath elfOnly isElf >= entropyMaxVal)%R ->
      (snd (fileutils.HashMD5 fs filePath) <> None \/
       snd (fileutils.HashSHA1 fs filePath) <> None \/
       snd (fileutils.HashSHA256 fs filePath) <> None \/
       snd (fileutils.HashSHA512 fs filePath) <> None) ->
      exists format err,
        main.checkFilePath fs filePath elfOnly entropyMaxVal
          = Fatal format [Str filePath; Err err]).
Proof.
  split; [|split].
  - intros err. split.
    + intros [fileInfo H].
      destruct (fileutils.IsElfType fs filePath) as [isElf [e|]] eqn:Helf.
      * unfold main.checkFilePath in H. rewrite Helf in H. exists isElf. congruence.
      * destruct (checkFilePath_after_signature fs filePath elfOnly entropyMaxVal _ Helf)
          as [[fi' H']|(format & e & H')]; congruence.
    + intros [isElf Helf]. exists main.zeroFileData.
      unfold main.checkFilePath. now rewrite Helf.
  - intros isElf err Helf Hcomputed Herr. unfold main.checkFilePath. rewrite Helf.
    destruct (filepath.Split filePath) as [dir fileName].
    destruct (fileutils.Entropy fs filePath) as [e o]. cbn [snd] in Herr. subst o.
    destruct elfOnly, isElf; try discriminate Hcomputed; reflexivity.
  - intros isElf Helf Hentropy Htest Hhash. unfold main.checkFilePath. rewrite Helf.
    destruct (filepath.Split filePath) as [dir fileName].
    unfold testedEntropy in Htest.
    destruct (fileutils.Entropy fs filePath) as [e o]. cbn [snd fst] in *.
    assert (Hgo : forall fi, main.entropy fi = (if negb elfOnly || isElf then e else -1)%R ->
              exists format err,
                (fileInfo <-
                   (if Rge_dec (main.entropy fi) entropyMaxVal then
                      md5 <- orFatal (fileutils.HashMD5 fs filePath)
                               "error calculating MD5 hash for file (%s): %v\n" filePath ;;
                      sha1 <- orFatal (fileutils.HashSHA1 fs filePath)
                                "error calculating SHA1 hash for file (%s): %v\n" filePath ;;
                      sha256 <- orFatal (fileutils.HashSHA256 fs filePath)
                                  "error calculating SHA256 hash for file (%s): %v\n" filePath ;;
                      sha512 <- orFatal (fileutils.HashSHA512 fs filePath)
                                  "error calculating SHA512 hash for file (%s): %v\n" filePath ;;
                      Done (main.setHash fi
                              {| main.md5 := md5; main.sha1 := sha1;
                                 main.sha256 := sha256; main.sha512 := sha512 |})
                    else Done fi) ;;
                 Done (fileInfo, @None error))
                = Fatal format [Str filePath; Err err]).
    { intros fi Hfi. destruct (Rge_dec _ _) as [_|Hn]; [|rewrite Hfi in Hn; contradiction].
      destruct (fileutils.HashMD5 fs filePath) as [? [?|]]; cbn [bind orFatal snd] in *; eauto.
      destruct (fileutils.HashSHA1 fs filePath) as [? [?|]]; cbn [bind orFatal snd] in *; eauto.
      destruct (fileutils.HashSHA256 fs filePath) as [? [?|]]; cbn [bind orFatal snd] in *; eauto.
      destruct (fileutils.HashSHA512 fs filePath) as [? [?|]]; cbn [bind orFatal snd] in *; eauto.
      exfalso. intuition congruence. }
    destruct elfOnly, isElf; cbn [andb negb orb] in *;
      try (rewrite (Hentropy eq_refl)); cbn [bind orFatal]; apply Hgo; reflexivity.
Qed.

(** Both kinds of failure on the sample file system: a path that does not
    open is returned as an error; a device scanned without the ELF-only
    policy ends the program in the entropy step, and with a threshold of -1
    under the ELF-only policy in the first digest. *)
Example checkFilePath_failures :
  main.checkFilePath sampleFS "/root/secret" false 0%R
    = Done (main.zeroFileData, Some (PathError "open" "/root/secret" EACCES)) /\
  main.checkFilePath sampleFS "/dev/null" false 0%R
    = Fatal "error calculating entropy for file (%s): %v\n"
        [Str "/dev/null";
         Err (Errorf "file (%s) is not a regular file to calculate entropy"
                [Str "/dev/null"])] /\
  main.checkFilePath sampleFS "/dev/null" true (-1)%R
    = Fatal "error calculating MD5 hash for file (%s): %v\n"
        [Str "/dev/null";
         Err (Errorf "file (%s) is not a regular file to calculate hash"
                [Str "/dev/null"])].
Proof.
  split; [reflexivity|]. split; [reflexivity|].
  unfold main.checkFilePath.
  replace (fileutils.IsElfType sampleFS "/dev/null") with (false, @None error) by reflexivity.
  replace (filepath.Split "/dev/null") with ("/dev/"%string, "null"%string) by reflexivity.
  cbn [andb negb bind].
  destruct (Rge_dec _ _) as [_|Hn]; [reflexivity|].
  exfalso. apply Hn. cbn [main.entropy]. lra.
Qed.

(** ** C9: targets that are not regular files *)

(** C9, as the code has it: scanning a device without the ELF-only policy
    ends the whole program in [log.Fatalf], from [checkFilePath] and so from
    [main -file]. *)
Lemma non_regular_target_counterexample :
  sampleFS "/dev/null"%string = inl (specialFile os.ModeCharDevice) /\
  fileutils.IsElfType sampleFS "/dev/null" = (false, None) /\
  main.checkFilePath sampleFS "/dev/null" false 0%R
    = Fatal "error calculating entropy for file (%s): %v\n"
        [Str "/dev/null";
         Err (Errorf "file (%s) is not a regular file to calculate entropy"
                [Str "/dev/null"])] /\
  main.mainFile sampleFS "/dev/null" false 0%R false ","
    = ([], main.ExitFatal "error calculating entropy for file (%s): %v\n"
             [Str "/dev/null";
              Err (Errorf "file (%s) is not a regular file to calculate entropy"
                     [Str "/dev/null"])]).
Proof. repeat split; reflexivity. Qed.

(** C9 (amended). For a target that opens and is not a regular file: the
    signature check answers [false] without error; [Entropy] and the four
    digest functions each return an explicit not-a-regular-file error; under
    the ELF-only policy with a threshold above -1 the classifier returns a
    record (not ELF, sentinel entropy, no digests) and nothing ends the
    program; without the ELF-only policy the entropy error ends the program
    in [log.Fatalf]. *)
Theorem non_regular_target (fs : os.FileSystem) (filePath : string) (nd : os.Node)
    (fi : os.FileInfo) (entropyThreshold : float64) :
  filePath <> EmptyString -> fs filePath = inl nd -> os.info nd = inl fi ->
  os.IsRegular (os.Mode fi) = false ->
  fileutils.IsElfType fs filePath = (false, None) /\
  snd (fileutils.Entropy fs filePath)
    = Some (Errorf "file (%s) is not a regular file to calculate entropy" [Str filePath]) /\
  (forall hashOf,
      In hashOf [fileutils.HashMD5; fileutils.HashSHA1;
                 fileutils.HashSHA256; fileutils.HashSHA512] ->
      hashOf fs filePath
        = (EmptyString,
           Some (Errorf "file (%s) is not a regular file to calculate hash" [Str filePath]))) /\
  ((-1 < entropyThreshold)%R ->
   main.checkFilePath fs filePath true entropyThreshold
     = Done ({| main.path := filePath; main.name := snd (filepath.Split filePath);
                main.entropy := (-1)%R; main.elf := false;
                main.hash := main.zeroHashes |}, None)) /\
  main.checkFilePath fs filePath false entropyThreshold
    = Fatal "error calculating entropy for file (%s): %v\n"
        [Str filePath;
         Err (Errorf "file (%s) is not a regular file to calculate entropy" [Str filePath])].
Proof.
  intros Hpath Hopen Hinfo Hreg.
  assert (Helf : fileutils.IsElfType fs filePath = (false, None)).
  { rewrite (IsElfType_opened fs filePath nd fi Hpath Hopen Hinfo). now rewrite Hreg. }
  assert (Hent : fileutils.Entropy fs filePath
                 = (0%R, Some (Errorf "file (%s) is not a regular file to calculate entropy"
                                 [Str filePath]))).
  { rewrite (Entropy_opened fs filePath nd fi Hpath Hopen Hinfo). now rewrite Hreg. }
  split; [exact Helf|]. split; [now rewrite Hent|]. split; [|split].
  - intros hashOf Hin. cbn [In] in Hin.
    destruct Hin as [<-|[<-|[<-|[<-|[]]]]];
      unfold fileutils.HashMD5, fileutils.HashSHA1, fileutils.HashSHA256,
        fileutils.HashSHA512;
      rewrite (hashFile_opened fs filePath nd fi Hpath Hopen Hinfo); now rewrite Hreg.
  - intros Hthr. unfold main.checkFilePath. rewrite Helf.
    destruct (filepath.Split filePath) as [dir fileName]. cbn [andb negb bind snd].
    destruct (Rge_dec _ _) as [Hge|_]; [cbn [main.entropy] in Hge; lra | reflexivity].
  - unfold main.checkFilePath. rewrite Helf, Hent.
    now destruct (filepath.Split filePath) as [dir fileName].
Qed.

Lemma non_regular_target_witness :
  sampleFS "/run/fifo"%string = inl (specialFile os.ModeNamedPipe) /\
  fileutils.IsElfType sampleFS "/run/fifo" = (false, None) /\
  main.checkFilePath sampleFS "/run/fifo" true 0%R
    = Done ({| main.path := "/run/fifo"; main.name := "fifo";
               main.entropy := (-1)%R; main.elf := false;
               main.hash := main.zeroHashes |}, None).
Proof.
  destruct (non_regular_target sampleFS "/run/fifo" (specialFile os.ModeNamedPipe)
              {| os.Mode := os.ModeNamedPipe; os.Size := 0 |} 0%R)
    as (H1 & _ & _ & H4 & _); [discriminate | reflexivity | reflexivity | reflexivity |].
  split; [reflexivity|]. split; [exact H1|]. apply H4. lra.
Defined.

(** ** C7: candidates that do not open, in the process sweep *)

(** A record comes back without error only for a path that opens, and it
    carries that path. *)
Lemma checkFilePath_record fs filePath elfOnly thr fileInfo :
  main.checkFilePath fs filePath elfOnly thr = Done (fileInfo, None) ->
  main.path fileInfo = filePath /\ exists nd, fs filePath = inl nd.
Proof.
  intros H. split.
  - unfold main.checkFilePath in H.
    destruct (fileutils.IsElfType fs filePath) as [isElf [e|]]; [discriminate|].
    destruct (filepath.Split filePath) as [dir fileName].
    destruct (fileutils.Entropy fs filePath) as [e [err|]];
      destruct elfOnly, isElf; cbn [andb negb bind orFatal] in H; try discriminate;
      destruct (Rge_dec _ _); cbn [bind] in H; try (injection H as <-; reflexivity);
      destruct (fileutils.HashMD5 fs filePath) as [? [?|]]; cbn [bind orFatal] in H;
        try discriminate;
      destruct (fileutils.HashSHA1 fs filePath) as [? [?|]]; cbn [bind orFatal] in H;
        try discriminate;
      destruct (fileutils.HashSHA256 fs filePath) as [? [?|]]; cbn [bind orFatal] in H;
        try discriminate;
      destruct (fileutils.HashSHA512 fs filePath) as [? [?|]]; cbn [bind orFatal] in H;
        try discriminate;
      injection H as <-; reflexivity.
  - destruct (fs filePath) as [nd|errno] eqn:Hopen; [eauto|].
    destruct (IsElfType_unopened _ _ _ Hopen) as [err He].
    unfold main.checkFilePath in H. rewrite He in H. discriminate.
Qed.

Lemma checkFilePath_unopened fs filePath elfOnly thr errno :
  fs filePath = inr errno ->
  exists err, main.checkFilePath fs filePath elfOnly thr = Done (main.zeroFileData, Some err).
Proof.
  intros H. destruct (IsElfType_unopened _ _ _ H) as [err He]. exists err.
  unfold main.checkFilePath. now rewrite He.
Qed.

(** Every record the sweep adds to the output belongs to a candidate that
    opens. *)
Lemma procLoop_records fs thr csv delimChar pidPaths :
  forall stdout pr,
    In pr (fst (main.procLoop fs thr csv delimChar pidPaths stdout)) ->
    In pr stdout \/
    (In (main.path (main.record pr)) pidPaths /\
     exists nd, fs (main.path (main.record pr)) = inl nd).
Proof.
  induction pidPaths as [|p rest IH]; intros stdout pr Hin; cbn [main.procLoop fst] in Hin.
  - now left.
  - destruct (main.checkFilePath fs p true thr) as [[fileInfo [err|]]|format args] eqn:Hc;
      cbn [fst] in Hin.
    + destruct (IH _ _ Hin) as [?|[? ?]]; [now left | right; split; [now right | assumption]].
    + destruct (checkFilePath_record _ _ _ _ _ Hc) as [Hp Hnd].
      destruct (IH _ _ Hin) as [Hold|[? ?]]; [|right; split; [now right | assumption]].
      destruct (Rge_dec _ _); [|now left].
      apply in_app_or in Hold as [?|[<-|[]]]; [now left|].
      right. cbn [main.printResults main.record]. rewrite Hp. split; [now left | assumption].
    + now left.
Qed.

(** C7. In the process sweep a candidate whose open fails adds no record to
    the output and does not end the sweep: the sweep goes on exactly as if
    the candidate were not in the list, whatever comes before and after it;
    and no record of the output carries its path.  [main -proc] is this
    sweep over the paths of [genPIDExePaths]. *)
Theorem procLoop_skips_unopened (fs : os.FileSystem) (entropyMaxVal : float64)
    (csvOutput : bool) (delimChar : string) (before after : list string)
    (pidPath : string) (errno : Errno) :
  fs pidPath = inr errno ->
  (forall stdout,
      main.procLoop fs entropyMaxVal csvOutput delimChar (before ++ pidPath :: after) stdout
      = main.procLoop fs entropyMaxVal csvOutput delimChar (before ++ after) stdout) /\
  (forall pr,
      In pr (fst (main.procLoop fs entropyMaxVal csvOutput delimChar
                    (before ++ pidPath :: after) [])) ->
      main.path (main.record pr) <> pidPath) /\
  main.mainProc fs entropyMaxVal csvOutput delimChar
    = main.procLoop fs entropyMaxVal csvOutput delimChar (fst main.genPIDExePaths) [].
Proof.
  intros Hopen. split; [|split].
  - induction before as [|p before IH]; intros stdout; cbn [app main.procLoop].
    + destruct (checkFilePath_unopened fs pidPath true entropyMaxVal errno Hopen) as [err ->].
      reflexivity.
    + destruct (main.checkFilePath fs p true entropyMaxVal) as [[fileInfo err]|]; auto.
  - intros pr Hin Heq. apply procLoop_records in Hin.
    destruct Hin as [[]|[_ [nd Hnd]]]. rewrite Heq in Hnd. congruence.
  - unfold main.mainProc, main.genPIDExePaths. cbv beta iota delta [fst]. reflexivity.
Qed.

Lemma procLoop_skips_unopened_witness :
  sampleFS "/proc/2/exe"%string = inr ENOENT /\
  main.procLoop sampleFS 0%R false "," ["/proc/1/exe"; "/proc/2/exe"; "/proc/3/exe"]%string []
  = main.procLoop sampleFS 0%R false "," ["/proc/1/exe"; "/proc/3/exe"]%string [].
Proof.
  split; [reflexivity|].
  destruct (procLoop_skips_unopened sampleFS 0%R false "," ["/proc/1/exe"%string]
              ["/proc/3/exe"%string] "/proc/2/exe" ENOENT eq_refl) as [H _].
  exact (H []).
Defined.

(** ** C6: the process enumerator *)

Lemma digit_char_code (d : Z) :
  0 <= d < 10 -> Z.of_N (N_of_ascii (strconv.digit_char d)) = 48 + d.
Proof.
  intros Hd. unfold strconv.digit_char.
  rewrite N_ascii_embedding; [lia|].
  apply N2Z.inj_lt. rewrite Z2N.id by lia. change (Z.of_N 256) with 256. lia.
Qed.

Lemma digit_char_is_digit (d : Z) : 0 <= d < 10 -> is_digit (strconv.digit_char d) = true.
Proof.
  intros Hd. unfold is_digit. rewrite digit_char_code by exact Hd.
  apply andb_true_iff. split; apply Z.leb_le; lia.
Qed.

Lemma string_app_assoc (s t u : string) : ((s ++ t) ++ u = s ++ (t ++ u))%string.
Proof. induction s as [|c s IH]; cbn [String.append]; [reflexivity | now rewrite IH]. Qed.

(** [utoa] puts its digits in front of the accumulator. *)
Lemma utoa_acc (fuel : nat) : forall n acc,
  strconv.utoa fuel n acc = (strconv.utoa fuel n EmptyString ++ acc)%string.
Proof.
  induction fuel as [|k IH]; intros n acc; cbn [strconv.utoa]; [reflexivity|].
  destruct (n / 10 =? 0); [reflexivity|].
  rewrite IH. rewrite (IH _ (String _ EmptyString)).
  now rewrite string_app_assoc.
Qed.

Lemma all_digits_app (s t : string) :
  all_digits (s ++ t) = all_digits s && all_digits t.
Proof.
  induction s as [|c s IH]; cbn [String.append all_digits]; [reflexivity|].
  now rewrite IH, andb_assoc.
Qed.

Lemma decimal_value_app (s t : string) : forall acc,
  decimal_value acc (s ++ t) = decimal_value (decimal_value acc s) t.
Proof. induction s as [|c s IH]; intros acc; cbn [String.append decimal_value]; auto. Qed.

(** With enough fuel [utoa] writes the decimal digits of [n]: at least one,
    and they denote [n]. *)
Lemma utoa_spec (fuel : nat) : forall n,
  0 <= n < 2 ^ (Z.of_nat fuel + 1) ->
  all_digits (strconv.utoa fuel n EmptyString) = true /\
  strconv.utoa fuel n EmptyString <> EmptyString /\
  decimal_value 0 (strconv.utoa fuel n EmptyString) = n.
Proof.
  induction fuel as [|k IH]; intros n Hn.
  - change (2 ^ (Z.of_nat 0 + 1)) with 2 in Hn. cbn [strconv.utoa].
    assert (Hmod : n mod 10 = n) by (apply Z.mod_small; lia).
    rewrite Hmod. cbn [all_digits decimal_value].
    rewrite digit_char_is_digit, digit_char_code by lia.
    repeat split; [discriminate | lia].
  - cbn [strconv.utoa].
    pose proof (Z.mod_pos_bound n 10 ltac:(lia)) as Hd.
    pose proof (Z.div_mod n 10 ltac:(lia)) as Hdm.
    destruct (Z.eqb_spec (n / 10) 0) as [E|E].
    + cbn [all_digits decimal_value].
      rewrite digit_char_is_digit, digit_char_code by lia.
      repeat split; [discriminate | lia].
    + rewrite utoa_acc.
      destruct (IH (n / 10)) as (Hall & Hne & Hval).
      { split; [apply Z.div_pos; lia|].
        apply Z.div_lt_upper_bound; [lia|].
        replace (Z.of_nat (S k) + 1) with (Z.succ (Z.of_nat k + 1)) in Hn by lia.
        rewrite Z.pow_succ_r in Hn by lia. lia. }
      rewrite all_digits_app, decimal_value_app, Hall, Hval.
      cbn [all_digits decimal_value]. rewrite digit_char_is_digit, digit_char_code by lia.
      repeat split; [|lia].
      destruct (strconv.utoa k (n / 10) EmptyString); [contradiction | discriminate].
Qed.

(** [strconv.Itoa] of a natural number: its decimal digits. *)
Lemma Itoa_spec (i : Z) :
  0 <= i ->
  all_digits (strconv.Itoa i) = true /\ strconv.Itoa i <> EmptyString /\
  decimal_value 0 (strconv.Itoa i) = i.
Proof.
  intros Hi. unfold strconv.Itoa.
  destruct (Z.ltb_spec i 0); [lia|].
  apply utoa_spec. split; [exact Hi|].
  rewrite Z2Nat.id by apply Z.log2_nonneg.
  destruct (Z.eq_dec i 0) as [->|]; [reflexivity|].
  replace (Z.log2 i + 1) with (Z.succ (Z.log2 i)) by lia.
  apply Z.log2_spec. lia.
Qed.

Lemma digit_not_slash (c : ascii) : is_digit c = true -> Ascii.eqb c path.slash = false.
Proof.
  intros H. destruct (Ascii.eqb_spec c path.slash) as [->|]; [discriminate H | reflexivity].
Qed.

Lemma digit_not_dot (c : ascii) : is_digit c = true -> Ascii.eqb c "."%char = false.
Proof.
  intros H. destruct (Ascii.eqb_spec c "."%char) as [->|]; [discriminate H | reflexivity].
Qed.

(** A run of digits before a slash is one element of a path. *)
Lemma split_digits (d : string) : forall rest,
  all_digits d = true ->
  path.split (d ++ String path.slash rest) = d :: path.split rest.
Proof.
  induction d as [|c d IH]; intros rest Hd; cbn [String.append path.split].
  - reflexivity.
  - cbn [all_digits] in Hd. apply andb_true_iff in Hd as [Hc Hd].
    rewrite (digit_not_slash c Hc), (IH rest Hd). reflexivity.
Qed.

(** A non-empty run of digits is none of the elements [path.Clean] drops. *)
Lemma digits_kept (d : string) :
  all_digits d = true -> d <> EmptyString ->
  (d =? "")%string = false /\ (d =? ".")%string = false /\ (d =? "..")%string = false.
Proof.
  intros Hd Hne. destruct d as [|c d]; [contradiction|].
  cbn [all_digits] in Hd. apply andb_true_iff in Hd as [Hc _].
  cbn [String.eqb]. now rewrite (digit_not_dot c Hc).
Qed.

Lemma Clean_rooted (rest : string) :
  path.Clean (String path.slash rest)
  = String path.slash
      (String.concat "/" (path.cleanElems true (path.split (String path.slash rest)) [])).
Proof. reflexivity. Qed.

(** [path.Join] of the three elements [genPIDExePaths] passes: the slash
    that begins ["/exe"] is not doubled. *)
Lemma Join_proc_exe (d : string) :
  all_digits d = true -> d <> EmptyString ->
  path.Join [main.constProcDir; d; "/exe"%string] = ("/proc/" ++ d ++ "/exe")%string.
Proof.
  intros Hd Hne.
  assert (Hbuf : path.joinBuf EmptyString [main.constProcDir; d; "/exe"%string]
                 = String path.slash (String "p" (String "r" (String "o" (String "c"
                     (String path.slash (d ++ String path.slash "/exe"))))))).
  { reflexivity. }
  unfold path.Join. change (forallb _ _) with false. cbv iota.
  rewrite Hbuf, Clean_rooted.
  assert (Hsplit : path.split (String path.slash (String "p" (String "r" (String "o"
                     (String "c" (String path.slash (d ++ String path.slash "/exe")))))))
                   = [""; "proc"; d; ""; "exe"]%string).
  { pose proof (split_digits d "/exe" Hd) as Hs.
    cbn [path.split Ascii.eqb Bool.eqb path.slash] in *. rewrite Hs. reflexivity. }
  rewrite Hsplit.
  destruct (digits_kept d Hd Hne) as (H1 & H2 & H3).
  cbn [path.cleanElems String.eqb Ascii.eqb Bool.eqb andb orb].
  rewrite H1, H2, H3. reflexivity.
Qed.

(** The path built for a process id is the one the specification writes,
    and its digits denote the id. *)
Lemma exePath_built (pid : Z) :
  0 <= pid ->
  path.Join [main.constProcDir; strconv.Itoa pid; "/exe"%string] = exePath pid.
Proof.
  intros Hpid. destruct (Itoa_spec pid Hpid) as (Hd & Hne & _).
  now apply Join_proc_exe.
Qed.

(** The loop appends one path per turn, for consecutive ids. *)
Lemma pidLoop_spec (n : nat) : forall pid pidPaths,
  main.pidLoop n pid pidPaths
  = pidPaths ++ map (fun i => path.Join [main.constProcDir;
                                         strconv.Itoa (pid + Z.of_nat i);
                                         "/exe"%string]) (seq 0 n).
Proof.
  induction n as [|k IH]; intros pid pidPaths.
  - cbn [main.pidLoop seq map]. now rewrite app_nil_r.
  - cbn [main.pidLoop]. rewrite IH, <- app_assoc. f_equal.
    cbn [seq map app]. rewrite Z.add_0_r. f_equal.
    rewrite <- seq_shift, map_map. apply map_ext. intros i.
    now replace (pid + 1 + Z.of_nat i) with (pid + Z.of_nat (S i)) by lia.
Qed.

(** C6. [genPIDExePaths] returns no error and a list of exactly
    [constMaxPID - constMinPID] = 4,194,303 paths; the path at index [i]
    (counting from 0) is [/proc/<pid>/exe] for [pid = 1 + i], so the ids run
    through [1, 4194304) in increasing order; [<pid>] is written in decimal
    digits that denote [pid].  The function takes no file system: it cannot
    perform I/O. *)
Theorem genPIDExePaths_spec :
  exists pidPaths : list string,
    main.genPIDExePaths = (pidPaths, None) /\
    Z.of_nat (List.length pidPaths) = main.constMaxPID - main.constMinPID /\
    main.constMaxPID - main.constMinPID = 4194303 /\
    (forall i : Z,
        0 <= i < 4194303 ->
        nth_error pidPaths (Z.to_nat i) = Some (exePath (1 + i)) /\
        exePath (1 + i) = ("/proc/" ++ strconv.Itoa (1 + i) ++ "/exe")%string /\
        all_digits (strconv.Itoa (1 + i)) = true /\
        decimal_value 0 (strconv.Itoa (1 + i)) = 1 + i).
Proof.
  unfold main.genPIDExePaths. eexists. split; [reflexivity|].
  rewrite pidLoop_spec. cbn [app].
  change (main.constMaxPID - main.constMinPID) with 4194303.
  change main.constMinPID with 1.
  split; [|split; [reflexivity|]].
  - rewrite length_map, length_seq. lia.
  - intros i Hi. destruct (Itoa_spec (1 + i)) as (Hd & _ & Hv); [lia|].
    repeat split; auto.
    rewrite nth_error_map, nth_error_seq.
    destruct (Nat.ltb_spec (Z.to_nat i) (Z.to_nat 4194303)) as [_|Hge]; [|lia].
    cbn [option_map]. rewrite Nat.add_0_l, Z2Nat.id by lia.
    f_equal. apply exePath_built. lia.
Qed.

(** ** C3: the threshold test before the digests *)

Lemma be_bytes_length (n : nat) (x : Z) : List.length (crypto.be_bytes n x) = n.
Proof. induction n as [|k IH]; cbn [crypto.be_bytes List.length]; auto. Qed.

Lemma le_bytes_length (n : nat) (x : Z) : List.length (crypto.le_bytes n x) = n.
Proof. unfold crypto.le_bytes. now rewrite length_rev, be_bytes_length. Qed.

(** The sizes of the four digests: 16, 20, 32 and 64 bytes. *)
Lemma md5_Sum_length (data : list byte) : List.length (crypto.md5_Sum data) = 16%nat.
Proof.
  unfold crypto.md5_Sum. destruct (fold_left _ _ _) as [[[a b] c] d].
  now rewrite !length_app, !le_bytes_length.
Qed.

Lemma sha1_Sum_length (data : list byte) : List.length (crypto.sha1_Sum data) = 20%nat.
Proof.
  unfold crypto.sha1_Sum. destruct (fold_left _ _ _) as [[[[a b] c] d] e].
  now rewrite !length_app, !be_bytes_length.
Qed.

Lemma sha2_Sum_length (P : crypto.sha2_params) (K H0 : list Z) (data : list byte) :
  List.length (crypto.sha2_Sum P K H0 data) = (8 * Z.to_nat (crypto.width P / 8))%nat.
Proof.
  unfold crypto.sha2_Sum.
  generalize (fold_left (crypto.sha2_block P K)
                (crypto.chunks (16 * Z.to_nat (crypto.width P / 8))
                   (crypto.pad (16 * Z.to_nat (crypto.width P / 8))
                      (2 * Z.to_nat (crypto.width P / 8)) crypto.be_bytes data)) H0).
  intros st. generalize (Z.to_nat (crypto.width P / 8)). intros wb.
  cbn [seq flat_map]. rewrite !length_app, !be_bytes_length. cbn [List.length]. lia.
Qed.

Lemma sha256_Sum_length (data : list byte) : List.length (crypto.sha256_Sum data) = 32%nat.
Proof. unfold crypto.sha256_Sum. now rewrite sha2_Sum_length. Qed.

Lemma sha512_Sum_length (data : list byte) : List.length (crypto.sha512_Sum data) = 64%nat.
Proof. unfold crypto.sha512_Sum. now rewrite sha2_Sum_length. Qed.

Lemma EncodeToString_length (bs : list byte) :
  String.length (hex.EncodeToString bs) = (2 * List.length bs)%nat.
Proof.
  induction bs as [|b bs IH]; cbn [hex.EncodeToString String.length List.length];
    [reflexivity | lia].
Qed.

Lemma encoded_nonempty (sum : list byte -> list byte) (n : nat) (content : list byte) :
  (forall data, List.length (sum data) = S n) -> content <> [] ->
  encodedDigest sum content <> EmptyString.
Proof.
  intros Hlen Hne E. destruct content as [|b rest]; [contradiction|].
  apply (f_equal String.length) in E. cbn [encodedDigest] in E.
  rewrite EncodeToString_length, Hlen in E. discriminate E.
Qed.

(** What [checkFilePath] returns for a regular file that reads without error,
    whenever the policy has the entropy computed. *)
Lemma checkFilePath_regular fs filePath content elfOnly thr :
  filePath <> EmptyString -> fs filePath = inl (regularFile content) ->
  Z.of_nat (List.length content) <= fileutils.constMaxFileSize ->
  negb elfOnly || fst (fileutils.IsElfType fs filePath) = true ->
  main.checkFilePath fs filePath elfOnly thr
  = Done ({| main.path := filePath;
             main.name := snd (filepath.Split filePath);
             main.entropy := entropyOf content;
             main.elf := fst (fileutils.IsElfType fs filePath);
             main.hash :=
               if Rge_dec (entropyOf content) thr then
                 {| main.md5 := encodedDigest crypto.md5_Sum content;
                    main.sha1 := encodedDigest crypto.sha1_Sum content;
                    main.sha256 := encodedDigest crypto.sha256_Sum content;
                    main.sha512 := encodedDigest crypto.sha512_Sum content |}
               else main.zeroHashes |}, None).
Proof.
  intros Hpath Hopen Hsize Hcomputed. unfold main.checkFilePath.
  destruct (IsElfType_regular fs filePath content Hpath Hopen) as [isElf Helf].
  rewrite Helf in *. cbn [fst] in *.
  destruct (filepath.Split filePath) as [dir fileName]. cbn [snd].
  rewrite (Entropy_regular fs filePath content Hpath Hopen Hsize).
  unfold fileutils.HashMD5, fileutils.HashSHA1, fileutils.HashSHA256, fileutils.HashSHA512.
  rewrite !(hashFile_regular fs filePath content Hpath Hopen Hsize) by reflexivity.
  destruct elfOnly, isElf; try discriminate Hcomputed;
    cbn [andb negb bind orFatal main.setEntropy main.entropy main.path main.name
         main.elf main.hash];
    destruct (Rge_dec _ _); reflexivity.
Qed.

(** C3, as the code has it: the entropy of a zero-length file is computed
    (0) and meets the threshold 0, yet its four digests are empty. *)
Lemma threshold_inclusive_counterexample :
  sampleFS "/tmp/empty"%string = inl (regularFile []) /\
  fileutils.Entropy sampleFS "/tmp/empty" = (0%R, None) /\
  (0 >= 0)%R /\
  main.checkFilePath sampleFS "/tmp/empty" false 0%R
    = Done ({| main.path := "/tmp/empty"; main.name := "empty";
               main.entropy := 0%R; main.elf := false;
               main.hash := {| main.md5 := ""; main.sha1 := "";
                               main.sha256 := ""; main.sha512 := "" |} |}, None).
Proof.
  split; [reflexivity|]. split; [reflexivity|]. split; [lra|].
  rewrite (checkFilePath_regular sampleFS "/tmp/empty" [] false 0%R);
    [|discriminate|reflexivity|discriminate|reflexivity].
  cbn [entropyOf encodedDigest]. now destruct (Rge_dec 0 0).
Qed.

(** C3 (amended). For a regular target that reads without error, is within
    the size ceiling and has its entropy computed (no ELF-only policy, or an
    ELF file): the record carries the computed entropy; if the file is not
    empty, its four digests are all non-empty exactly when that entropy is
    greater than or equal to the threshold (so also when it equals the
    threshold) and all empty exactly when it is strictly below; if the file
    has zero length its four digests are empty whatever the threshold. *)
Theorem threshold_inclusive (fs : os.FileSystem) (filePath : string) (content : list byte)
    (elfOnly : bool) (entropyThreshold : float64) :
  filePath <> EmptyString -> fs filePath = inl (regularFile content) ->
  Z.of_nat (List.length content) <= fileutils.constMaxFileSize ->
  negb elfOnly || fst (fileutils.IsElfType fs filePath) = true ->
  exists fileInfo,
    main.checkFilePath fs filePath elfOnly entropyThreshold = Done (fileInfo, None) /\
    fileutils.Entropy fs filePath = (main.entropy fileInfo, None) /\
    let h := main.hash fileInfo in
    (content <> [] ->
     ((main.md5 h <> EmptyString /\ main.sha1 h <> EmptyString /\
       main.sha256 h <> EmptyString /\ main.sha512 h <> EmptyString)
      <-> (main.entropy fileInfo >= entropyThreshold)%R) /\
     (h = main.zeroHashes <-> (main.entropy fileInfo < entropyThreshold)%R) /\
     (main.entropy fileInfo = entropyThreshold -> main.md5 h <> EmptyString)) /\
    (content = [] -> h = main.zeroHashes).
Proof.
  intros Hpath Hopen Hsize Hcomputed. eexists. split; [|split].
  - now apply (checkFilePath_regular fs filePath content).
  - cbn [main.entropy]. now apply Entropy_regular.
  - cbn [main.hash main.entropy]. split.
    + intros Hne.
      pose proof (encoded_nonempty _ _ content md5_Sum_length Hne) as H1.
      pose proof (encoded_nonempty _ _ content sha1_Sum_length Hne) as H2.
      pose proof (encoded_nonempty _ _ content sha256_Sum_length Hne) as H3.
      pose proof (encoded_nonempty _ _ content sha512_Sum_length Hne) as H4.
      destruct (Rge_dec _ _) as [Hge|Hlt]; cbn [main.md5 main.sha1 main.sha256 main.sha512].
      * split; [|split].
        -- split; [intros _; exact Hge | intros _; now repeat split].
        -- split; [|intros; lra].
           intros E. exfalso. apply H1. unfold main.zeroHashes in E. now injection E.
        -- intros _. exact H1.
      * apply Rnot_ge_lt in Hlt. split; [|split].
        -- split; [|intros; lra]. intros (Habs & _). now contradiction Habs.
        -- split; [intros _; exact Hlt | reflexivity].
        -- intros E. lra.
    + intros ->. now destruct (Rge_dec _ _).
Qed.

Lemma threshold_inclusive_witness :
  sampleFS "/etc/motd"%string = inl (regularFile (list_byte_of_string "hello")) /\
  exists fileInfo,
    main.checkFilePath sampleFS "/etc/motd" false 2%R = Done (fileInfo, None) /\
    (main.md5 (main.hash fileInfo) <> EmptyString
     <-> (main.entropy fileInfo >= 2)%R).
Proof.
  split; [reflexivity|].
  destruct (threshold_inclusive sampleFS "/etc/motd" (list_byte_of_string "hello") false 2%R)
    as (fileInfo & Hc & _ & Hne & _);
    [discriminate | reflexivity | discriminate | reflexivity |].
  exists fileInfo. split; [exact Hc|].
  destruct Hne as (Hiff & Hzero & _); [discriminate|].
  split; [intros Hmd5 | intros Hge; now apply Hiff].
  destruct (Rge_dec (main.entropy fileInfo) 2) as [Hge|Hlt]; [exact Hge|].
  apply Rnot_ge_lt, Hzero in Hlt. rewrite Hlt in Hmd5. now contradiction Hmd5.
Defined.

(** ** C1: the entropy *)

(** *** The histogram *)

Lemma byte_index_bound (b : byte) : (byte_index b < 256)%nat.
Proof. unfold byte_index. pose proof (Byte.to_N_bounded b). lia. Qed.

Lemma wrap64_small (z : Z) : - 2 ^ 63 <= z < 2 ^ 63 -> wrap64 z = z.
Proof. intros Hz. unfold wrap64. rewrite Z.mod_small; lia. Qed.

Lemma update_length (i : nat) (v : Z) (l : list Z) :
  List.length (fileutils.update i v l) = List.length l.
Proof.
  revert i; induction l as [|x l IH]; intros [|i]; cbn [fileutils.update List.length]; auto.
Qed.

Lemma update_nth (i j : nat) (v : Z) (l : list Z) :
  (i < List.length l)%nat ->
  nth j (fileutils.update i v l) 0 = if (j =? i)%nat then v else nth j l 0.
Proof.
  revert i j; induction l as [|x l IH]; intros i j Hi; [cbn [List.length] in Hi; lia|].
  destruct i as [|i], j as [|j]; cbn [fileutils.update nth Nat.eqb]; try reflexivity.
  apply IH. cbn [List.length] in Hi. lia.
Qed.

Lemma occurrences_cons (v : nat) (b : byte) (content : list byte) :
  occurrences v (b :: content)
  = (if (v =? byte_index b)%nat then 1 else 0) + occurrences v content.
Proof.
  unfold occurrences. cbn [map count_occ].
  destruct (Nat.eq_dec (byte_index b) v) as [E|E], (Nat.eqb_spec v (byte_index b)); lia.
Qed.

Lemma occurrences_bounds (v : nat) (content : list byte) :
  0 <= occurrences v content <= Z.of_nat (List.length content).
Proof.
  unfold occurrences.
  pose proof (count_occ_bound Nat.eq_dec v (map byte_index content)) as H.
  rewrite length_map in H. lia.
Qed.

(** Counting the bytes of [content] adds, to each counter, the number of
    occurrences of its byte value; no counter wraps around. *)
Lemma countBytes_nth (content : list byte) : forall byteCounts,
  List.length byteCounts = 256%nat ->
  (forall v, 0 <= nth v byteCounts 0 /\
             nth v byteCounts 0 + Z.of_nat (List.length content) < 2 ^ 63) ->
  forall v, nth v (fold_left fileutils.countByte content byteCounts) 0
            = nth v byteCounts 0 + occurrences v content.
Proof.
  induction content as [|b content IH]; intros byteCounts Hlen Hbound v.
  - cbn [fold_left]. unfold occurrences. cbn [map count_occ Z.of_nat]. lia.
  - cbn [fold_left].
    assert (Hstep : forall w, nth w (fileutils.countByte byteCounts b) 0
                              = nth w byteCounts 0 + (if (w =? byte_index b)%nat then 1 else 0)).
    { intros w. unfold fileutils.countByte.
      rewrite update_nth by (rewrite Hlen; apply byte_index_bound).
      destruct (Nat.eqb_spec w (byte_index b)) as [->|]; [|lia].
      apply wrap64_small. specialize (Hbound (byte_index b)).
      cbn [List.length] in Hbound. lia. }
    rewrite IH.
    + rewrite Hstep, occurrences_cons. lia.
    + unfold fileutils.countByte. now rewrite update_length.
    + intros w. rewrite Hstep. specialize (Hbound w). cbn [List.length] in Hbound.
      destruct (w =? byte_index b)%nat; lia.
Qed.

Lemma nth_repeat_0 (v n : nat) : nth v (repeat 0 n) 0 = 0.
Proof.
  destruct (Nat.lt_ge_cases v n) as [H|H].
  - now rewrite nth_repeat_lt. 
  - apply nth_overflow. now rewrite repeat_length.
Qed.

(** The histogram holds the number of occurrences of every byte value. *)
Lemma histogram_nth (content : list byte) (v : nat) :
  Z.of_nat (List.length content) < 2 ^ 63 ->
  nth v (histogram content) 0 = occurrences v content.
Proof.
  intros Hlen. unfold histogram.
  rewrite countBytes_nth; [rewrite nth_repeat_0; lia | apply repeat_length |].
  intros w. rewrite nth_repeat_0. lia.
Qed.

(** Every byte is counted once: the 256 counters add up to the length. *)
Lemma indicator_sum (x m : nat) :
  list_sum (map (fun v => if Nat.eq_dec x v then 1 else 0)%nat (seq 0 m))
  = if (x <? m)%nat then 1%nat else 0%nat.
Proof.
  induction m as [|m IH]; [reflexivity|].
  rewrite seq_S, map_app, list_sum_app, IH. cbn [map list_sum]. rewrite Nat.add_0_l.
  destruct (Nat.eq_dec x m), (Nat.ltb_spec x m), (Nat.ltb_spec x (S m));
    cbn [list_sum fold_right]; lia.
Qed.

Lemma count_occ_sum (l : list nat) (m : nat) :
  Forall (fun x => x < m)%nat l ->
  list_sum (map (count_occ Nat.eq_dec l) (seq 0 m)) = List.length l.
Proof.
  induction 1 as [|x l Hx Hl IH].
  - induction (seq 0 m) as [|v vs IHv]; [reflexivity|]. simpl in *. exact IHv.
  - cbn [List.length]. rewrite <- IH.
    pose proof (indicator_sum x m) as Hind.
    destruct (Nat.ltb_spec x m); [|lia].
    rewrite <- (Nat.add_1_l (list_sum _)), <- Hind. clear.
    induction (seq 0 m) as [|v vs IHv]; [reflexivity|].
    simpl in *. rewrite IHv.
    destruct (Nat.eq_dec x v); lia.
Qed.

(** *** Sums of real numbers *)

Lemma Rsum_map_ext {A} (f g : A -> R) (l : list A) :
  (forall x, In x l -> f x = g x) -> Rsum (map f l) = Rsum (map g l).
Proof.
  intros H. f_equal. apply map_ext_in. exact H.
Qed.

(** A sum over the elements that pass a test is the sum, over all elements,
    of the terms of those that pass. *)
Lemma Rsum_filter {A} (f : A -> R) (keep : A -> bool) (l : list A) :
  Rsum (map f (filter keep l)) = Rsum (map (fun x => if keep x then f x else 0%R) l).
Proof.
  unfold Rsum. induction l as [|x l IH]; [reflexivity|].
  cbn [filter map]. destruct (keep x); cbn [map fold_right]; lra.
Qed.

Lemma Rsum_INR {A} (f : A -> nat) (d : R) (l : list A) :
  Rsum (map (fun x => INR (f x) / d)%R l) = (INR (list_sum (map f l)) / d)%R.
Proof.
  unfold Rsum, list_sum. induction l as [|x l IH]; cbn [map fold_right].
  - unfold Rdiv. cbn [INR]. lra.
  - rewrite IH, plus_INR. unfold Rdiv. lra.
Qed.

(** The term one byte value contributes to the sum of [Entropy]. *)
Lemma addTerm_eq (size : Z) (entropy : R) (c : Z) :
  0 < size ->
  fileutils.addTerm size entropy c
  = (entropy + (if 0 <? c then - (IZR c / IZR size) * math_Log2 (IZR c / IZR size)
                else 0))%R.
Proof.
  intros Hsize. unfold fileutils.addTerm.
  assert (Hs : (0 < IZR size)%R) by now apply IZR_lt.
  destruct (Z.ltb_spec 0 c) as [Hc|Hc].
  - apply IZR_lt in Hc. destruct (Rlt_dec _ _) as [_|Hn]; [reflexivity|].
    exfalso. apply Hn. now apply Rdiv_lt_0_compat.
  - apply IZR_le in Hc. destruct (Rlt_dec _ _) as [Hp|_]; [|lra].
    exfalso. apply (Rmult_lt_compat_r (IZR size)) in Hp; [|exact Hs].
    unfold Rdiv in Hp. rewrite Rmult_assoc, Rinv_l in Hp; lra.
Qed.

Lemma sumLoop_fold (size : Z) (g : nat -> Z) (l : list nat) : forall entropy,
  0 < size ->
  fold_left (fun entropy i => fileutils.addTerm size entropy (g i)) l entropy
  = (entropy + Rsum (map (fun i => if 0 <? g i
                                   then - (IZR (g i) / IZR size) * math_Log2 (IZR (g i) / IZR size)
                                   else 0) l))%R.
Proof.
  unfold Rsum.
  induction l as [|i l IH]; intros entropy Hsize; cbn [fold_left map fold_right].
  - lra.
  - rewrite IH, addTerm_eq by exact Hsize. lra.
Qed.

(** The sum [Entropy] accumulates is the Shannon entropy of the content. *)
Lemma sumLoop_shannon (content : list byte) :
  content <> [] -> Z.of_nat (List.length content) < 2 ^ 63 ->
  fileutils.sumLoop (histogram content) (Z.of_nat (List.length content)) = shannon content.
Proof.
  intros Hne Hlen. unfold fileutils.sumLoop, shannon.
  assert (Hpos : 0 < Z.of_nat (List.length content)).
  { destruct content; [contradiction | cbn [List.length]; lia]. }
  rewrite sumLoop_fold by exact Hpos. rewrite Rsum_filter, Rplus_0_l.
  apply Rsum_map_ext. intros v _.
  rewrite histogram_nth by exact Hlen. reflexivity.
Qed.

(** *** Bounds of the Shannon entropy *)

Lemma ln_2_pos : (0 < ln 2)%R.
Proof. pose proof ln_lt_2. lra. Qed.

Lemma ln_256 : ln 256 = (8 * ln 2)%R.
Proof.
  replace 256%R with (2 ^ 8)%R by (simpl; lra).
  rewrite ln_pow by lra. simpl. lra.
Qed.

(** [ln x <= x - 1]. *)
Lemma ln_le_minus_1 (x : R) : (0 < x)%R -> (ln x <= x - 1)%R.
Proof.
  intros Hx. pose proof (exp_ineq1_le (ln x)) as H.
  rewrite exp_ln in H by exact Hx. lra.
Qed.

(** One term of the entropy, in nats ([- p * ln p] at [p > 0]), against the
    tangent bound that sums to [ln m]. *)
Lemma term_bound (p m : R) :
  (0 < p)%R -> (0 < m)%R -> (- p * ln p <= p * ln m + / m - p)%R.
Proof.
  intros Hp Hm.
  assert (Hx : (0 < / (m * p))%R) by (apply Rinv_0_lt_compat; nra).
  pose proof (ln_le_minus_1 _ Hx) as H.
  rewrite ln_Rinv, ln_mult in H by nra.
  apply (Rmult_le_compat_l p) in H; [|lra].
  replace (p * (/ (m * p) - 1))%R with (/ m - p)%R in H by (field; lra).
  lra.
Qed.

Lemma term_nonneg (p : R) : (0 < p <= 1)%R -> (0 <= - p * math_Log2 p)%R.
Proof.
  intros [Hp Hp1]. unfold math_Log2.
  assert (Hln : (ln p <= 0)%R).
  { destruct (Req_dec p 1) as [->|Hneq]; [rewrite ln_1; lra|].
    rewrite <- ln_1. left. apply ln_increasing; lra. }
  pose proof ln_2_pos as H2.
  assert (H : (0 <= p * (- ln p) * / ln 2)%R).
  { apply Rmult_le_pos; [apply Rmult_le_pos; lra|]. left. now apply Rinv_0_lt_compat. }
  unfold Rdiv. lra.
Qed.

Section Shannon.
Variable content : list byte.
Hypothesis Hne : content <> [].

Lemma length_pos : (0 < INR (List.length content))%R.
Proof. apply lt_0_INR. destruct content; [contradiction | cbn [List.length]; lia]. Qed.

Lemma probability_INR (v : nat) :
  probability v content
  = (INR (count_occ Nat.eq_dec (map byte_index content) v) / INR (List.length content))%R.
Proof. unfold probability, occurrences. now rewrite <- !INR_IZR_INZ. Qed.

Lemma probability_bounds (v : nat) : (0 <= probability v content <= 1)%R.
Proof.
  rewrite probability_INR. pose proof length_pos as Hpos.
  pose proof (count_occ_bound Nat.eq_dec v (map byte_index content)) as Hb.
  rewrite length_map in Hb. apply le_INR in Hb.
  pose proof (pos_INR (count_occ Nat.eq_dec (map byte_index content) v)) as H0.
  split.
  - apply Rmult_le_pos; [exact H0 | left; now apply Rinv_0_lt_compat].
  - apply (Rmult_le_reg_r (INR (List.length content))); [exact Hpos|].
    unfold Rdiv. rewrite Rmult_assoc, Rinv_l; lra.
Qed.

Lemma probability_pos (v : nat) :
  (0 <? occurrences v content) = true -> (0 < probability v content)%R.
Proof.
  intros H. apply Z.ltb_lt in H. unfold probability.
  apply Rdiv_lt_0_compat; [now apply IZR_lt|].
  rewrite <- INR_IZR_INZ. apply length_pos.
Qed.

Lemma probability_zero (v : nat) :
  (0 <? occurrences v content) = false -> probability v content = 0%R.
Proof.
  intros H. apply Z.ltb_ge in H. pose proof (occurrences_bounds v content) as Hb.
  unfold probability. replace (occurrences v content) with 0 by lia.
  unfold Rdiv. lra.
Qed.

(** The probabilities of the 256 byte values add up to 1. *)
Lemma probability_total :
  Rsum (map (fun v => probability v content) (seq 0 256)) = 1%R.
Proof.
  rewrite (Rsum_map_ext _ _ _ (fun v _ => probability_INR v)).
  rewrite (Rsum_INR (count_occ Nat.eq_dec (map byte_index content))).
  rewrite count_occ_sum.
  - rewrite length_map. apply Rinv_r. pose proof length_pos. lra.
  - apply Forall_forall. intros x Hx. apply in_map_iff in Hx as (b & <- & _).
    apply byte_index_bound.
Qed.

Lemma shannon_terms :
  shannon content
  = Rsum (map (fun v => if 0 <? occurrences v content
                        then - probability v content * math_Log2 (probability v content)
                        else 0)%R (seq 0 256)).
Proof. unfold shannon. apply Rsum_filter. Qed.

Lemma shannon_nonneg : (0 <= shannon content)%R.
Proof.
  rewrite shannon_terms. unfold Rsum.
  induction (seq 0 256) as [|v vs IH]; cbn [map fold_right].
  - lra.
  - destruct (0 <? occurrences v content) eqn:E; [|lra].
    pose proof (term_nonneg (probability v content)) as H.
    pose proof (probability_pos v E). pose proof (probability_bounds v). lra.
Qed.

Lemma shannon_le_8 : (shannon content <= 8)%R.
Proof.
  assert (Hsum : forall vs,
             (Rsum (map (fun v => if 0 <? occurrences v content
                                  then - probability v content
                                       * math_Log2 (probability v content)
                                  else 0) vs) * ln 2
              <= (ln 256 - 1) * Rsum (map (fun v => probability v content) vs)
                 + INR (List.length vs) / 256)%R).
  { unfold Rsum. induction vs as [|v vs IH]; cbn [map fold_right List.length].
    - cbn [INR]. lra.
    - rewrite S_INR.
      pose proof (probability_bounds v) as Hb.
      destruct (0 <? occurrences v content) eqn:E.
      + pose proof (probability_pos v E) as Hp.
        pose proof (term_bound (probability v content) 256 Hp ltac:(lra)) as Ht.
        assert (Hterm : (- probability v content * math_Log2 (probability v content) * ln 2
                         = - probability v content * ln (probability v content))%R).
        { unfold math_Log2. field. pose proof ln_2_pos. lra. }
        unfold Rdiv in *. lra.
      + rewrite (probability_zero v E). unfold Rdiv in *. lra. }
  specialize (Hsum (seq 0 256)).
  rewrite <- shannon_terms, probability_total, length_seq, ln_256 in Hsum.
  replace (INR 256) with 256%R in Hsum by (rewrite INR_IZR_INZ; reflexivity).
  pose proof ln_2_pos. nra.
Qed.
End Shannon.

(** *** Rounding to two decimal places *)

Lemma Round_bounds (y : R) :
  (0 <= y)%R ->
  exists k : Z, math_Round y = IZR k /\ (- / 2 <= IZR k - y <= / 2)%R /\
                (forall n : Z, (y <= IZR n)%R -> k <= n) /\ 0 <= k.
Proof.
  intros Hy. unfold math_Round. destruct (Rle_dec 0 y) as [_|Hn]; [|contradiction].
  exists (Zfloor (y + / 2)). pose proof (Zfloor_bound (y + / 2)) as [Hlo Hhi].
  split; [reflexivity|]. split; [lra|]. split.
  - intros n Hle. apply Z.lt_succ_r. apply lt_IZR. rewrite succ_IZR. lra.
  - apply Zfloor_lub. lra.
Qed.

(** [math.Round(x * 100) / 100] is [x] rounded to two decimal places, and
    stays between 0 and 8 when [x] does. *)
Lemma round2_spec (x : R) :
  (0 <= x <= 8)%R ->
  roundedTo2 (math_Round (x * 100) / 100)%R x /\
  (0 <= math_Round (x * 100) / 100 <= 8)%R.
Proof.
  intros Hx. destruct (Round_bounds (x * 100)) as (k & -> & Habs & Hub & Hk0); [lra|].
  assert (Hk8 : k <= 800) by (apply Hub; lra).
  apply IZR_le in Hk0, Hk8.
  split; [split|].
  - now exists k.
  - apply Rabs_le. lra.
  - lra.
Qed.


(** *** A single repeated byte value *)



Lemma entropyOf_spec (content : list byte) :
  Z.of_nat (List.length content) < 2 ^ 63 ->
  roundedTo2 (entropyOf content) (shannon content) /\
  (0 <= entropyOf content <= 8)%R.
Proof.
  intros Hlen. destruct content as [|b rest] eqn:E.
  - change (shannon []) with 0%R. cbn [entropyOf]. split; [split|lra].
    + exists 0. lra.
    + rewrite Rminus_diag, Rabs_R0. lra.
  - rewrite <- E in *. assert (Hne : content <> []) by (rewrite E; discriminate).
    replace (entropyOf content)
      with (math_Round (shannon content * 100) / 100)%R.
    + apply round2_spec. split; [now apply shannon_nonneg | now apply shannon_le_8].
    + rewrite <- sumLoop_shannon by assumption. now rewrite E.
Qed.



(** Two byte values, each half of the time: one bit per byte. *)
Example Entropy_coin :
  fileutils.Entropy (fun _ => inl (regularFile [x00; xff])) "/tmp/coin" = (1%R, None).
Proof.
  rewrite (Entropy_regular _ "/tmp/coin" [x00; xff]); [|discriminate|reflexivity|discriminate].
  f_equal. unfold entropyOf.
  rewrite sumLoop_shannon; [|discriminate|cbn [List.length]; lia].
  assert (Hs : shannon [x00; xff] = 1%R).
  { unfold shannon.
    replace (filter _ _) with [0%nat; 255%nat] by (vm_compute; reflexivity).
    unfold Rsum, probability. cbn [map fold_right List.length].
    replace (occurrences 0 [x00; xff]) with 1 by reflexivity.
    replace (occurrences 255 [x00; xff]) with 1 by reflexivity.
    change (Z.of_nat 2) with 2. unfold math_Log2.
    replace (1 / 2)%R with (/ 2)%R by lra. rewrite ln_Rinv by lra.
    pose proof ln_2_pos. field. lra. }
  rewrite Hs. unfold math_Round. destruct (Rle_dec 0 (1 * 100)) as [_|Hn]; [|lra].
  rewrite (Zfloor_eq 100); lra.
Qed.

(** * Further properties of the code *)

(** ** The record [checkFilePath] returns *)


Lemma checkFilePath_empty :
  main.checkFilePath sampleFS "/tmp/empty" false 0%R = Done (emptyRecord, None).
Proof.
  rewrite (checkFilePath_regular sampleFS "/tmp/empty" [] false 0%R);
    [|discriminate|reflexivity|discriminate|reflexivity].
  cbn [entropyOf encodedDigest]. now destruct (Rge_dec 0 0).
Qed.



(** ** Failures of the functions of [fileutils] *)

(** X2. A function of [fileutils] that reports an error returns no value
    with it: [IsElfType] answers [false], [Entropy] 0 and the digest
    functions the empty string, whatever failed (the path, the open, [Stat],
    the type or size test, or a read at any offset). *)
Theorem errors_carry_no_value (fs : os.FileSystem) (path : string) :
  (snd (fileutils.IsElfType fs path) <> None -> fst (fileutils.IsElfType fs path) = false) /\
  (snd (fileutils.Entropy fs path) <> None -> fst (fileutils.Entropy fs path) = 0%R) /\
  (forall hashOf,
      In hashOf [fileutils.HashMD5; fileutils.HashSHA1;
                 fileutils.HashSHA256; fileutils.HashSHA512] ->
      snd (hashOf fs path) <> None -> fst (hashOf fs path) = EmptyString).
Proof.
  split; [|split].
  - destruct (fileutils.IsElfType fs path) as [[|] [err|]] eqn:E; cbn [fst snd]; auto.
    + intros _. now apply IsElfType_true_no_error in E.
    + intros H. now contradiction H.
  - unfold fileutils.Entropy.
    repeat match goal with
           | |- context [if ?c then _ else _] => destruct c
           | |- context [match ?x with _ => _ end] => destruct x
           end; cbn [fst snd]; auto; intros H; now contradiction H.
  - intros hashOf Hin. cbn [In] in Hin.
    destruct Hin as [<-|[<-|[<-|[<-|[]]]]];
      unfold fileutils.HashMD5, fileutils.HashSHA1, fileutils.HashSHA256,
        fileutils.HashSHA512, fileutils.hashFile;
      repeat match goal with
             | |- context [if ?c then _ else _] => destruct c
             | |- context [match ?x with _ => _ end] => destruct x
             end; cbn [fst snd]; auto; intros H; now contradiction H.
Qed.

Lemma Entropy_succeeds_iff (fs : os.FileSystem) (path : string) (new : Hash)
    (readErr : string) :
  snd (fileutils.Entropy fs path) = None
  <-> snd (fileutils.hashFile new readErr fs path) = None.
Proof.
  destruct (String.eqb_spec path "") as [->|Hp]; [split; discriminate|].
  destruct (fs path) as [nd|errno] eqn:Hopen.
  2:{ unfold fileutils.Entropy, fileutils.hashFile, os.Open.
      rewrite (path_eqb_false _ Hp), Hopen. split; discriminate. }
  destruct (os.info nd) as [fi|errno] eqn:Hinfo.
  2:{ unfold fileutils.Entropy, fileutils.hashFile, os.Open, os.Stat.
      rewrite (path_eqb_false _ Hp), Hopen. cbn [os.node]. rewrite Hinfo.
      split; discriminate. }
  rewrite (Entropy_opened fs path nd fi Hp Hopen Hinfo),
    (hashFile_opened fs path nd fi Hp Hopen Hinfo).
  destruct (negb _); [split; discriminate|].
  destruct (os.Size fi =? 0); [tauto|].
  destruct (os.Size fi >? _); [split; discriminate|].
  rewrite readLoop_spec. cbn [opened os.node os.Name].
  destruct (os.bad nd); [split; discriminate | tauto].
Qed.

(** X3. On an unchanged file system [Entropy] and the four digest functions
    succeed on exactly the same paths: a file whose entropy was computed is
    one every digest function accepts. *)
Theorem same_preconditions (fs : os.FileSystem) (path : string) :
  (snd (fileutils.Entropy fs path) = None <-> snd (fileutils.HashMD5 fs path) = None) /\
  (snd (fileutils.Entropy fs path) = None <-> snd (fileutils.HashSHA1 fs path) = None) /\
  (snd (fileutils.Entropy fs path) = None <-> snd (fileutils.HashSHA256 fs path) = None) /\
  (snd (fileutils.Entropy fs path) = None <-> snd (fileutils.HashSHA512 fs path) = None).
Proof. repeat split; apply Entropy_succeeds_iff. Qed.

(** X4. With a threshold above the sentinel -1, the only [log.Fatalf] that
    [checkFilePath] can reach is the one of the entropy step, with the error
    [Entropy] returned: the digests are only computed after the entropy was,
    and then they cannot fail. *)
Theorem fatal_only_from_entropy (fs : os.FileSystem) (filePath : string)
    (elfOnly : bool) (entropyMaxVal : float64) (format : string) (args : list arg) :
  (-1 < entropyMaxVal)%R ->
  main.checkFilePath fs filePath elfOnly entropyMaxVal = Fatal format args ->
  format = "error calculating entropy for file (%s): %v\n"%string /\
  exists err, args = [Str filePath; Err err] /\
              snd (fileutils.Entropy fs filePath) = Some err.
Proof.
  intros Hthr H. unfold main.checkFilePath in H.
  destruct (fileutils.IsElfType fs filePath) as [isElf [e|]]; [discriminate|].
  destruct (filepath.Split filePath) as [dir fileName].
  assert (H1 : snd (fileutils.Entropy fs filePath) = None
               <-> snd (fileutils.HashMD5 fs filePath) = None)
    by apply Entropy_succeeds_iff.
  assert (H2 : snd (fileutils.Entropy fs filePath) = None
               <-> snd (fileutils.HashSHA1 fs filePath) = None)
    by apply Entropy_succeeds_iff.
  assert (H3 : snd (fileutils.Entropy fs filePath) = None
               <-> snd (fileutils.HashSHA256 fs filePath) = None)
    by apply Entropy_succeeds_iff.
  assert (H4 : snd (fileutils.Entropy fs filePath) = None
               <-> snd (fileutils.HashSHA512 fs filePath) = None)
    by apply Entropy_succeeds_iff.
  destruct (fileutils.Entropy fs filePath) as [e [err|]] eqn:HE; cbn [snd] in *.
  - destruct elfOnly, isElf; cbn [andb negb bind orFatal] in H;
      try (injection H as <- <-; split; [reflexivity | now exists err]);
      destruct (Rge_dec _ _) as [Hge|_]; cbn [bind main.entropy] in *;
      try discriminate; lra.
  - destruct (fileutils.HashMD5 fs filePath) as [m [?|]];
      [cbn [snd] in H1; now apply proj1 in H1; specialize (H1 eq_refl)|].
    destruct (fileutils.HashSHA1 fs filePath) as [s1 [?|]];
      [cbn [snd] in H2; now apply proj1 in H2; specialize (H2 eq_refl)|].
    destruct (fileutils.HashSHA256 fs filePath) as [s2 [?|]];
      [cbn [snd] in H3; now apply proj1 in H3; specialize (H3 eq_refl)|].
    destruct (fileutils.HashSHA512 fs filePath) as [s5 [?|]];
      [cbn [snd] in H4; now apply proj1 in H4; specialize (H4 eq_refl)|].
    destruct elfOnly, isElf; cbn [andb negb bind orFatal] in H;
      destruct (Rge_dec _ _); discriminate H.
Qed.

Lemma fatal_only_from_entropy_witness :
  (-1 < 0)%R /\
  main.checkFilePath faultyFS "/mnt/bad" true 0%R
    = Fatal "error calculating entropy for file (%s): %v\n"
        [Str "/mnt/bad"; Err (PathError "read" "/mnt/bad" EIO)] /\
  snd (fileutils.Entropy faultyFS "/mnt/bad") = Some (PathError "read" "/mnt/bad" EIO).
Proof.
  assert (Hthr : (-1 < 0)%R) by lra.
  assert (H : main.checkFilePath faultyFS "/mnt/bad" true 0%R
              = Fatal "error calculating entropy for file (%s): %v\n"
                  [Str "/mnt/bad"; Err (PathError "read" "/mnt/bad" EIO)]) by reflexivity.
  destruct (fatal_only_from_entropy faultyFS "/mnt/bad" true 0%R _ _ Hthr H)
    as (_ & err & Hargs & Herr).
  injection Hargs as <-. auto.
Defined.

(** X5. A read that fails, after any number of bytes, leaves nothing of the
    work done: on a regular file of positive size within the ceiling whose
    stream ends in an error, [Entropy] returns 0 with that error and each
    digest function the empty string with that error wrapped in its own
    message; no partial entropy or digest comes back. *)
Theorem read_error_discards_work (fs : os.FileSystem) (path : string) (nd : os.Node)
    (fi : os.FileInfo) (errno : Errno) :
  path <> EmptyString -> fs path = inl nd -> os.info nd = inl fi ->
  os.IsRegular (os.Mode fi) = true ->
  0 < os.Size fi <= fileutils.constMaxFileSize ->
  os.bad nd = Some errno ->
  let readError := PathError "read" path errno in
  fileutils.Entropy fs path = (0%R, Some readError) /\
  fileutils.HashMD5 fs path
    = (EmptyString,
       Some (Errorf "couldn't read path (%s) to get MD5 hash: %v" [Str path; Err readError])) /\
  fileutils.HashSHA1 fs path
    = (EmptyString,
       Some (Errorf "couldn't read path (%s) to get SHA1 hash: %v" [Str path; Err readError])) /\
  fileutils.HashSHA256 fs path
    = (EmptyString,
       Some (Errorf "couldn't read path (%s) to get SHA256 hash: %v" [Str path; Err readError])) /\
  fileutils.HashSHA512 fs path
    = (EmptyString,
       Some (Errorf "couldn't read path (%s) to get SHA512 hash: %v" [Str path; Err readError])).
Proof.
  intros Hpath Hopen Hinfo Hreg Hsize Hbad readError.
  assert (H0 : (os.Size fi =? 0) = false) by (apply Z.eqb_neq; lia).
  assert (Hmax : (os.Size fi >? fileutils.constMaxFileSize) = false).
  { destruct (Z.gtb_spec (os.Size fi) fileutils.constMaxFileSize); [lia | reflexivity]. }
  split.
  - rewrite (Entropy_opened fs path nd fi Hpath Hopen Hinfo), Hreg, H0, Hmax.
    cbn [negb]. rewrite readLoop_spec. cbn [opened os.node os.Name]. now rewrite Hbad.
  - unfold fileutils.HashMD5, fileutils.HashSHA1, fileutils.HashSHA256, fileutils.HashSHA512.
    rewrite !(hashFile_opened fs path nd fi Hpath Hopen Hinfo), Hreg, H0, Hmax, Hbad.
    repeat split.
Qed.

Lemma read_error_discards_work_witness :
  faultyFS "/mnt/bad"%string
    = inl {| os.info := inl {| os.Mode := os.ModeRegular; os.Size := 8 |};
             os.data := elfMagic; os.bad := Some EIO |} /\
  fileutils.Entropy faultyFS "/mnt/bad" = (0%R, Some (PathError "read" "/mnt/bad" EIO)).
Proof.
  split; [reflexivity|].
  destruct (read_error_discards_work faultyFS "/mnt/bad"
              {| os.info := inl {| os.Mode := os.ModeRegular; os.Size := 8 |};
                 os.data := elfMagic; os.bad := Some EIO |}
              {| os.Mode := os.ModeRegular; os.Size := 8 |} EIO) as [H _];
    [discriminate | reflexivity | reflexivity | reflexivity
    | cbn [os.Size]; unfold fileutils.constMaxFileSize; lia | reflexivity |].
  exact H.
Defined.

(** X6. A regular file that [Stat] announces with at least 4 bytes but whose
    stream ends before them is never ELF and always an error: [io.EOF] when
    no byte could be read, [io.ErrUnexpectedEOF] after one to three bytes,
    the read error when the stream ends in one. *)
Theorem truncated_magic (fs : os.FileSystem) (path : string) (nd : os.Node)
    (fi : os.FileInfo) :
  path <> EmptyString -> fs path = inl nd -> os.info nd = inl fi ->
  os.IsRegular (os.Mode fi) = true -> 4 <= os.Size fi ->
  (List.length (os.data nd) < 4)%nat ->
  fileutils.IsElfType fs path
  = (false,
     Some (match os.bad nd, os.data nd with
           | Some errno, _ => PathError "read" path errno
           | None, [] => EOF
           | None, _ :: _ => ErrUnexpectedEOF
           end)).
Proof.
  intros Hpath Hopen Hinfo Hreg Hsize Hshort.
  rewrite (IsElfType_opened fs path nd fi Hpath Hopen Hinfo), Hreg. cbn [negb].
  destruct (Z.ltb_spec (os.Size fi) 4); [lia|].
  unfold io.ReadFull, os.ending. cbn [opened os.pending os.node os.Name].
  destruct (Nat.leb_spec 4 (List.length (os.data nd))); [lia|].
  destruct (os.data nd), (os.bad nd); reflexivity.
Qed.

Lemma truncated_magic_witness :
  fileutils.IsElfType faultyFS "/mnt/short" = (false, Some ErrUnexpectedEOF).
Proof.
  apply (truncated_magic faultyFS "/mnt/short"
           {| os.info := inl {| os.Mode := os.ModeRegular; os.Size := 4 |};
              os.data := [x7f; x45]; os.bad := None |}
           {| os.Mode := os.ModeRegular; os.Size := 4 |});
    [discriminate | reflexivity | reflexivity | reflexivity
    | cbn [os.Size]; lia | cbn [os.data List.length]; lia].
Defined.

(** X7. For a non-empty regular file within the ceiling the four digest
    strings have the lengths of their algorithms: 32, 40, 64 and 128
    characters. *)
Theorem digest_lengths (fs : os.FileSystem) (path : string) (content : list byte) :
  path <> EmptyString -> fs path = inl (regularFile content) -> content <> [] ->
  Z.of_nat (List.length content) <= fileutils.constMaxFileSize ->
  String.length (fst (fileutils.HashMD5 fs path)) = 32%nat /\
  String.length (fst (fileutils.HashSHA1 fs path)) = 40%nat /\
  String.length (fst (fileutils.HashSHA256 fs path)) = 64%nat /\
  String.length (fst (fileutils.HashSHA512 fs path)) = 128%nat.
Proof.
  intros Hpath Hopen Hne Hsize.
  unfold fileutils.HashMD5, fileutils.HashSHA1, fileutils.HashSHA256, fileutils.HashSHA512.
  rewrite !(hashFile_regular fs path content Hpath Hopen Hsize) by reflexivity.
  destruct content as [|b rest]; [contradiction|].
  cbn [fst encodedDigest md5_New sha1_New sha256_New sha512_New digest].
  rewrite !EncodeToString_length, md5_Sum_length, sha1_Sum_length, sha256_Sum_length,
    sha512_Sum_length.
  repeat split.
Qed.

Lemma digest_lengths_witness :
  sampleFS "/etc/motd"%string = inl (regularFile (list_byte_of_string "hello")) /\
  String.length (fst (fileutils.HashMD5 sampleFS "/etc/motd")) = 32%nat /\
  String.length (fst (fileutils.HashSHA512 sampleFS "/etc/motd")) = 128%nat.
Proof.
  split; [reflexivity|].
  destruct (digest_lengths sampleFS "/etc/motd" (list_byte_of_string "hello"))
    as (H1 & _ & _ & H4); [discriminate | reflexivity | discriminate | discriminate |].
  split; [exact H1 | exact H4].
Defined.

(** ** The histogram and the entropy *)

Lemma countBytes_length (content : list byte) : forall byteCounts,
  List.length (fold_left fileutils.countByte content byteCounts) = List.length byteCounts.
Proof.
  induction content as [|b content IH]; intros byteCounts; cbn [fold_left]; [reflexivity|].
  rewrite IH. unfold fileutils.countByte. apply update_length.
Qed.

Lemma histogram_length (content : list byte) : List.length (histogram content) = 256%nat.
Proof. unfold histogram. now rewrite countBytes_length, repeat_length. Qed.

Lemma Zsum_nth (l : list Z) :
  Zsum l = Zsum (map (fun v => nth v l 0) (seq 0 (List.length l))).
Proof.
  induction l as [|x l IH]; [reflexivity|].
  cbn [List.length seq map nth]. unfold Zsum in *. cbn [fold_right].
  now rewrite <- seq_shift, map_map, <- IH.
Qed.

Lemma Zsum_of_nat {A} (g : A -> nat) (l : list A) :
  Zsum (map (fun x => Z.of_nat (g x)) l) = Z.of_nat (list_sum (map g l)).
Proof.
  unfold Zsum, list_sum. induction l as [|x l IH]; cbn [map fold_right]; [reflexivity|].
  rewrite IH. lia.
Qed.

Lemma occurrences_total (content : list byte) :
  Zsum (map (fun v => occurrences v content) (seq 0 256))
  = Z.of_nat (List.length content).
Proof.
  unfold occurrences.
  rewrite (Zsum_of_nat (count_occ Nat.eq_dec (map byte_index content))), count_occ_sum.
  - now rewrite length_map.
  - apply Forall_forall. intros x Hx. apply in_map_iff in Hx as (b & <- & _).
    apply byte_index_bound.
Qed.

(** X8. When the read loop of [Entropy] has read a regular file to its end,
    the histogram has its 256 counters, the counter of each byte value is the
    number of bytes of that value in the file, none is negative, and together
    they add up to the number of bytes read: every byte was counted once,
    wherever the chunks of 256000 bytes ended. *)
Theorem histogram_counts (path : string) (content : list byte) :
  Z.of_nat (List.length content) < 2 ^ 63 ->
  exists byteCounts,
    fileutils.readLoop (opened path (regularFile content)) (repeat 0 256) = inl byteCounts /\
    List.length byteCounts = 256%nat /\
    (forall v, nth v byteCounts 0 = occurrences v content /\ 0 <= nth v byteCounts 0) /\
    Zsum byteCounts = Z.of_nat (List.length content).
Proof.
  intros Hlen. exists (histogram content). split; [|split; [|split]].
  - rewrite readLoop_spec. reflexivity.
  - apply histogram_length.
  - intros v. rewrite histogram_nth by exact Hlen.
    split; [reflexivity | apply occurrences_bounds].
  - rewrite Zsum_nth, histogram_length, <- occurrences_total. f_equal.
    apply map_ext. intros v. now apply histogram_nth.
Qed.

Lemma histogram_counts_witness :
  exists byteCounts,
    fileutils.readLoop (opened "/etc/motd" (regularFile (list_byte_of_string "hello")))
      (repeat 0 256) = inl byteCounts /\
    nth 108 byteCounts 0 = 2 /\ Zsum byteCounts = 5.
Proof.
  destruct (histogram_counts "/etc/motd" (list_byte_of_string "hello"))
    as (byteCounts & Hloop & _ & Hnth & Hsum); [reflexivity|].
  exists byteCounts. split; [exact Hloop|]. split; [|exact Hsum].
  now rewrite (proj1 (Hnth 108%nat)).
Defined.

(** X9. The entropy depends on the bytes of a file and not on their order:
    two regular files within the ceiling whose contents are permutations of
    each other get the same result from [Entropy]. *)
Theorem Entropy_permutation (fs : os.FileSystem) (path1 path2 : string)
    (content1 content2 : list byte) :
  path1 <> EmptyString -> path2 <> EmptyString ->
  fs path1 = inl (regularFile content1) -> fs path2 = inl (regularFile content2) ->
  Z.of_nat (List.length content1) <= fileutils.constMaxFileSize ->
  Permutation content1 content2 ->
  fileutils.Entropy fs path1 = fileutils.Entropy fs path2.
Proof.
  intros Hp1 Hp2 Ho1 Ho2 Hsize Hperm.
  pose proof (Permutation_length Hperm) as Hlen.
  rewrite (Entropy_regular fs path1 content1 Hp1 Ho1 Hsize).
  rewrite (Entropy_regular fs path2 content2 Hp2 Ho2) by (rewrite <- Hlen; exact Hsize).
  f_equal.
  assert (Hh : histogram content1 = histogram content2).
  { apply (nth_ext _ _ 0 0); [now rewrite !histogram_length|].
    intros v _. unfold fileutils.constMaxFileSize in Hsize.
    rewrite !histogram_nth by lia. unfold occurrences. f_equal.
    apply Permutation_count_occ. now apply Permutation_map. }
  destruct content1 as [|b1 r1], content2 as [|b2 r2]; try discriminate Hlen;
    [reflexivity|].
  unfold entropyOf. now rewrite Hh, Hlen.
Qed.

Lemma Entropy_permutation_witness :
  Permutation [x00; xff] [xff; x00] /\
  fileutils.Entropy (fun p => if (p =? "/a")%string then inl (regularFile [x00; xff])
                              else inl (regularFile [xff; x00])) "/a"
  = fileutils.Entropy (fun p => if (p =? "/a")%string then inl (regularFile [x00; xff])
                                else inl (regularFile [xff; x00])) "/b".
Proof.
  split; [apply perm_swap|].
  apply (Entropy_permutation _ "/a" "/b" [x00; xff] [xff; x00]);
    [discriminate | discriminate | reflexivity | reflexivity | discriminate | apply perm_swap].
Defined.

(** *** Equally frequent byte values *)

Lemma entropyOf_shannon (content : list byte) :
  content <> [] -> Z.of_nat (List.length content) < 2 ^ 63 ->
  entropyOf content = (math_Round (shannon content * 100) / 100)%R.
Proof.
  intros Hne Hlen. rewrite <- sumLoop_shannon by assumption.
  destruct content; [contradiction | reflexivity].
Qed.

Lemma Round_integer (z : Z) : 0 <= z -> math_Round (IZR z) = IZR z.
Proof.
  intros Hz. unfold math_Round. apply IZR_le in Hz.
  destruct (Rle_dec 0 (IZR z)) as [_|Hn]; [|contradiction].
  rewrite (Zfloor_eq z); [reflexivity | lra].
Qed.

Lemma Rsum_const {A} (f : A -> R) (c : R) (l : list A) :
  (forall x, In x l -> f x = c) -> Rsum (map f l) = (INR (List.length l) * c)%R.
Proof.
  unfold Rsum. induction l as [|x l IH]; intros H; cbn [map fold_right List.length].
  - cbn [INR]. lra.
  - rewrite S_INR, IH, (H x) by (intros; apply H; now right) || now left. lra.
Qed.

Lemma log2_pow2 (j : nat) : math_Log2 (2 ^ j)%R = INR j.
Proof.
  unfold math_Log2, Rdiv. rewrite ln_pow by lra.
  rewrite Rmult_assoc, Rinv_r; [lra | pose proof ln_2_pos; lra].
Qed.

Section Equiprobable.
Variables (content : list byte) (k : Z) (j : nat).
Hypothesis Hk : 0 < k.
Hypothesis Hocc : forall v, (v < 256)%nat ->
  occurrences v content = 0 \/ occurrences v content = k.
Hypothesis Hvalues :
  List.length (filter (fun v => 0 <? occurrences v content) (seq 0 256)) = (2 ^ j)%nat.

Lemma equiprobable_size : Z.of_nat (List.length content) = k * Z.of_nat (2 ^ j).
Proof.
  rewrite <- occurrences_total, <- Hvalues.
  assert (H : forall l, (forall v, In v l -> (v < 256)%nat) ->
            Zsum (map (fun v => occurrences v content) l)
            = k * Z.of_nat (List.length (filter (fun v => 0 <? occurrences v content) l))).
  { unfold Zsum. induction l as [|v l IH]; intros Hl; cbn [map fold_right filter];
      [cbn [List.length]; lia|].
    rewrite IH by (intros; apply Hl; now right).
    destruct (Hocc v (Hl v (or_introl eq_refl))) as [E|E]; rewrite E.
    - cbn [Z.ltb Z.compare]. lia.
    - destruct (Z.ltb_spec 0 k); [|lia]. cbn [List.length]. lia. }
  apply H. intros v Hv. apply in_seq in Hv. lia.
Qed.

Lemma equiprobable_probability (v : nat) :
  In v (filter (fun v => 0 <? occurrences v content) (seq 0 256)) ->
  probability v content = (/ 2 ^ j)%R.
Proof.
  intros Hv. apply filter_In in Hv as [Hv Hpos]. apply in_seq in Hv.
  apply Z.ltb_lt in Hpos. unfold probability.
  destruct (Hocc v ltac:(lia)) as [E|E]; [lia|].
  rewrite E, equiprobable_size, mult_IZR, <- INR_IZR_INZ, pow_INR.
  replace (INR 2) with 2%R by reflexivity.
  assert (0 < 2 ^ j)%R by (apply pow_lt; lra).
  assert (0 < IZR k)%R by now apply IZR_lt.
  field. lra.
Qed.

Lemma equiprobable_shannon : shannon content = INR j.
Proof.
  unfold shannon.
  rewrite (Rsum_const _ (/ 2 ^ j * INR j)%R).
  - rewrite Hvalues, pow_INR. replace (INR 2) with 2%R by reflexivity.
    assert (0 < 2 ^ j)%R by (apply pow_lt; lra). field. lra.
  - intros v Hv. rewrite (equiprobable_probability v Hv).
    unfold math_Log2. rewrite ln_Rinv by (apply pow_lt; lra).
    pose proof (log2_pow2 j) as Hl. unfold math_Log2 in Hl.
    replace (- ln (2 ^ j) / ln 2)%R with (- (ln (2 ^ j) / ln 2))%R
      by (unfold Rdiv; ring).
    rewrite Hl. ring.
Qed.

Lemma equiprobable_entropyOf :
  Z.of_nat (List.length content) < 2 ^ 63 -> entropyOf content = INR j.
Proof.
  intros Hlen. pose proof equiprobable_size as Hsize.
  assert (Hpow : (0 < 2 ^ j)%nat) by (apply Nat.neq_0_lt_0, Nat.pow_nonzero; lia).
  assert (Hne : content <> []).
  { intros E. rewrite E in Hsize. cbn [List.length] in Hsize. nia. }
  rewrite (entropyOf_shannon content Hne Hlen), equiprobable_shannon.
  rewrite INR_IZR_INZ, <- mult_IZR, Round_integer by lia.
  rewrite mult_IZR. lra.
Qed.
End Equiprobable.

(** X10. When the byte values that occur in a regular file all occur equally
    often and there are [2 ^ j] of them, [Entropy] returns exactly [j] (on the
    idealised [float64]): 0 for one repeated value, 1 for two values, ..., 8
    for a file in which all 256 values are equally frequent. *)
Theorem Entropy_equiprobable (fs : os.FileSystem) (path : string) (content : list byte)
    (k : Z) (j : nat) :
  path <> EmptyString -> fs path = inl (regularFile content) ->
  Z.of_nat (List.length content) <= fileutils.constMaxFileSize ->
  0 < k ->
  (forall v, (v < 256)%nat -> occurrences v content = 0 \/ occurrences v content = k) ->
  List.length (filter (fun v => 0 <? occurrences v content) (seq 0 256)) = (2 ^ j)%nat ->
  fileutils.Entropy fs path = (INR j, None).
Proof.
  intros Hpath Hopen Hsize Hk Hocc Hvalues.
  rewrite (Entropy_regular fs path content Hpath Hopen Hsize). f_equal.
  apply (equiprobable_entropyOf content k j Hk Hocc Hvalues).
  unfold fileutils.constMaxFileSize in Hsize. lia.
Qed.

Lemma uniform_occurrences (content : list byte) (k : Z) :
  forallb (fun v => (occurrences v content =? 0) || (occurrences v content =? k))
    (seq 0 256) = true ->
  forall v, (v < 256)%nat -> occurrences v content = 0 \/ occurrences v content = k.
Proof.
  intros H v Hv. rewrite forallb_forall in H.
  specialize (H v ltac:(apply in_seq; lia)). apply orb_true_iff in H.
  destruct H as [H|H]; apply Z.eqb_eq in H; auto.
Qed.

Lemma Entropy_equiprobable_witness :
  fileutils.Entropy (fun _ => inl (regularFile allBytes)) "/tmp/uniform" = (8%R, None).
Proof.
  replace 8%R with (INR 8) by (rewrite INR_IZR_INZ; reflexivity).
  apply (Entropy_equiprobable _ "/tmp/uniform" allBytes 1 8);
    [discriminate | reflexivity | discriminate | lia
    | apply uniform_occurrences; vm_compute; reflexivity
    | vm_compute; reflexivity].
Defined.

(** ** The sweeps of [main] *)

Lemma procLoop_prefix fs thr csv delimChar (paths : list string) :
  forall stdout,
    exists more, fst (main.procLoop fs thr csv delimChar paths stdout) = stdout ++ more.
Proof.
  induction paths as [|p paths IH]; intros stdout; cbn [main.procLoop].
  - exists []. now rewrite app_nil_r.
  - destruct (main.checkFilePath fs p true thr) as [[fileInfo [err|]]|];
      [apply IH | | exists []; now rewrite app_nil_r].
    destruct (Rge_dec _ _); [|apply IH].
    destruct (IH (stdout ++ [main.printResults fileInfo csv delimChar])) as [more ->].
    eexists. now rewrite <- app_assoc.
Qed.

(** X11. The process sweep over two lists in a row is the sweep over the
    first followed, unless a [log.Fatalf] ended it, by the sweep over the
    second from the output reached; and a sweep only ever appends to the
    output it started from. *)
Theorem procLoop_app (fs : os.FileSystem) (entropyMaxVal : float64) (csvOutput : bool)
    (delimChar : string) (first second : list string) (stdout : list main.printed) :
  main.procLoop fs entropyMaxVal csvOutput delimChar (first ++ second) stdout
  = (match main.procLoop fs entropyMaxVal csvOutput delimChar first stdout with
     | (stdout', main.Exit0) =>
         main.procLoop fs entropyMaxVal csvOutput delimChar second stdout'
     | (stdout', main.ExitFatal format args) => (stdout', main.ExitFatal format args)
     end) /\
  exists more,
    fst (main.procLoop fs entropyMaxVal csvOutput delimChar first stdout) = stdout ++ more.
Proof.
  split; [|apply procLoop_prefix].
  revert stdout. induction first as [|p first IH]; intros stdout; [reflexivity|].
  cbn [app main.procLoop].
  destruct (main.checkFilePath fs p true entropyMaxVal) as [[fileInfo err]|]; auto.
Qed.

(** *** The directory walk as a flat sweep *)

Lemma Tree_induction (P : walk.Tree -> Prop) :
  (forall mode, P (walk.Leaf mode)) ->
  (forall entries, Forall (fun e => P (snd e)) entries -> P (walk.Dir entries)) ->
  (forall errno, P (walk.Unlisted errno)) ->
  (forall errno, P (walk.Vanished errno)) ->
  forall t, P t.
Proof.
  intros HL HD HU HV. fix IH 1.
  intros [mode|entries|errno|errno]; [apply HL | | apply HU | apply HV].
  apply HD. induction entries as [|[name child] rest IHrest]; constructor;
    [apply IH | exact IHrest].
Qed.

Lemma strictLoop_app fs elfOnly thr csv delimChar (first second : list visited) :
  forall stdout,
    strictLoop fs elfOnly thr csv delimChar (first ++ second) stdout
    = match strictLoop fs elfOnly thr csv delimChar first stdout with
      | (stdout', main.Exit0) => strictLoop fs elfOnly thr csv delimChar second stdout'
      | (stdout', main.ExitFatal format args) => (stdout', main.ExitFatal format args)
      end.
Proof.
  induction first as [|[p|p err] first IH]; intros stdout; cbn [app strictLoop]; auto.
  destruct (main.checkFilePath fs p elfOnly thr) as [[fileInfo [err|]]|]; auto.
Qed.

(** The walk of one tree, against the flat sweep over what it visits. *)
Lemma visit_strictLoop fs elfOnly thr csv delimChar (t : walk.Tree) :
  forall p stdout,
    match walk.visit (main.search fs elfOnly thr csv delimChar) p t stdout with
    | (stdout', Some e) =>
        strictLoop fs elfOnly thr csv delimChar (visits p t) stdout = (stdout', e) /\
        e <> main.Exit0
    | (stdout', None) =>
        strictLoop fs elfOnly thr csv delimChar (visits p t) stdout = (stdout', main.Exit0)
    end.
Proof.
  induction t as [mode|entries IH|errno|errno] using Tree_induction; intros p stdout.
  - cbn [walk.visit visits main.search walk.IsDir walk.IsRegular negb].
    destruct mode; try reflexivity. cbn [strictLoop].
    destruct (main.checkFilePath fs p elfOnly thr) as [[fileInfo [err|]]|];
      try (split; [reflexivity | discriminate]).
    now destruct (Rge_dec _ _).
  - cbn [walk.visit visits main.search walk.IsDir negb].
    revert stdout. induction entries as [|[name child] rest IHrest]; intros stdout;
      [reflexivity|].
    inversion IH as [|? ? Hchild Hrest]; subst. cbn [snd] in Hchild.
    specialize (Hchild (path.Join [p; name]) stdout). rewrite strictLoop_app.
    destruct (walk.visit _ (path.Join [p; name]) child stdout) as [stdout' [e|]].
    + destruct Hchild as [-> He]. destruct e; [contradiction|]. split; [reflexivity|exact He].
    + rewrite Hchild. apply IHrest. exact Hrest.
  - cbn [walk.visit visits main.search strictLoop]. split; [reflexivity | discriminate].
  - cbn [walk.visit visits main.search strictLoop]. split; [reflexivity | discriminate].
Qed.

Lemma mainDir_strictLoop fs dirs dirPath elfOnly thr csv delimChar :
  main.mainDir fs dirs dirPath elfOnly thr csv delimChar
  = strictLoop fs elfOnly thr csv delimChar (visits dirPath (dirs dirPath)) [].
Proof.
  unfold main.mainDir, walk.Walk.
  pose proof (visit_strictLoop fs elfOnly thr csv delimChar (dirs dirPath) dirPath []) as H.
  destruct (walk.visit _ dirPath (dirs dirPath) []) as [stdout [e|]];
    [now destruct H as [-> _] | now rewrite H].
Qed.

Lemma mainFile_strictLoop fs filePath elfOnly thr csv delimChar :
  main.mainFile fs filePath elfOnly thr csv delimChar
  = strictLoop fs elfOnly thr csv delimChar [Check filePath] [].
Proof.
  unfold main.mainFile. cbn [strictLoop].
  destruct (main.checkFilePath fs filePath elfOnly thr) as [[fileInfo [err|]]|];
    try reflexivity.
  now destruct (Rge_dec _ _).
Qed.

(** X12. The directory mode is the sweep, in which every failure ends the
    program, over what the walk visits in order: the regular files of the
    tree (as [Lstat] sees them, so no symbolic link, device or pipe is ever
    checked) and the entries whose [Lstat] or listing fails.  The single
    file mode is the same sweep over its one path. *)
Theorem mainDir_flat (fs : os.FileSystem) (dirs : main.Forest) (dirPath filePath : string)
    (elfOnly : bool) (entropyMaxVal : float64) (csvOutput : bool) (delimChar : string) :
  main.mainDir fs dirs dirPath elfOnly entropyMaxVal csvOutput delimChar
  = strictLoop fs elfOnly entropyMaxVal csvOutput delimChar
      (visits dirPath (dirs dirPath)) [] /\
  main.mainFile fs filePath elfOnly entropyMaxVal csvOutput delimChar
  = strictLoop fs elfOnly entropyMaxVal csvOutput delimChar [Check filePath] [].
Proof.
  split; [apply mainDir_strictLoop | apply mainFile_strictLoop].
Qed.

Example mainDir_samples :
  visits "/"%string (sampleForest "/"%string)
    = [Check "/bin/true"; Check "/etc/motd"; Check "/tmp/empty"]%string /\
  visits "/srv"%string (sampleForest "/srv"%string)
    = [Check "/srv/motd"; Broken "/srv/private" (PathError "open" "/srv/private" EACCES)]
        %string /\
  main.mainDir sampleFS sampleForest "/srv"%string false 0%R false ","%string
    = ([], main.ExitFatal "error processing file (%s): %v\n"
             [Str "/srv/motd"; Err (PathError "open" "/srv/motd" ENOENT)]) /\
  main.mainDir sampleFS sampleForest "/nowhere"%string false 0%R false ","%string
    = ([], main.ExitFatal "error walking directory (%s) inside search function: %v\n"
             [Str "/nowhere"; Err (PathError "lstat" "/nowhere" ENOENT)]).
Proof. repeat split; reflexivity. Qed.

(** X13. The directory mode does not survive a file it cannot open: when the
    walk reaches a regular file whose open fails, after files that were all
    processed, the program ends in [log.Fatalf] with the output written so
    far, and nothing after that file is examined (the process mode skips
    such a path instead). *)
Theorem mainDir_stops_at_unopened (fs : os.FileSystem) (dirs : main.Forest)
    (dirPath : string) (elfOnly : bool) (entropyMaxVal : float64) (csvOutput : bool)
    (delimChar : string) (before after : list visited) (filePath : string)
    (errno : Errno) (stdout : list main.printed) :
  filePath <> EmptyString -> fs filePath = inr errno ->
  visits dirPath (dirs dirPath) = before ++ Check filePath :: after ->
  strictLoop fs elfOnly entropyMaxVal csvOutput delimChar before [] = (stdout, main.Exit0) ->
  main.mainDir fs dirs dirPath elfOnly entropyMaxVal csvOutput delimChar
  = (stdout,
     main.ExitFatal "error processing file (%s): %v\n"
       [Str filePath; Err (PathError "open" filePath errno)]).
Proof.
  intros Hpath Hopen Hvisits Hbefore.
  rewrite mainDir_strictLoop, Hvisits, strictLoop_app, Hbefore. cbn [strictLoop].
  unfold main.checkFilePath, fileutils.IsElfType, os.Open.
  now rewrite (path_eqb_false _ Hpath), Hopen.
Qed.

Lemma mainDir_stops_at_unopened_witness :
  sampleFS "/srv/motd"%string = inr ENOENT /\
  main.mainDir sampleFS sampleForest "/srv"%string false 0%R false ","%string
  = ([], main.ExitFatal "error processing file (%s): %v\n"
           [Str "/srv/motd"; Err (PathError "open" "/srv/motd" ENOENT)]).
Proof.
  split; [reflexivity|].
  apply (mainDir_stops_at_unopened sampleFS sampleForest "/srv"%string false 0%R false ","%string
           [] [Broken "/srv/private" (PathError "open" "/srv/private" EACCES)]
           "/srv/motd" ENOENT []);
    [discriminate | reflexivity | reflexivity | reflexivity].
Defined.

(** ** What the program prints *)

Lemma checkFilePath_done fs filePath elfOnly thr fileInfo :
  main.checkFilePath fs filePath elfOnly thr = Done (fileInfo, None) ->
  main.name fileInfo = snd (filepath.Split filePath) /\
  (elfOnly = true -> main.elf fileInfo = false -> main.entropy fileInfo = (-1)%R).
Proof.
  intros H. unfold main.checkFilePath in H.
  destruct (fileutils.IsElfType fs filePath) as [isElf [e|]]; [discriminate|].
  destruct (filepath.Split filePath) as [dir fileName]. cbn [snd].
  destruct (fileutils.Entropy fs filePath) as [e [err|]];
    destruct elfOnly, isElf; cbn [andb negb bind orFatal] in H; try discriminate;
    destruct (Rge_dec _ _); cbn [bind] in H;
    try (injection H as <-; (split; [reflexivity | intros; (discriminate || reflexivity)]));
    destruct (fileutils.HashMD5 fs filePath) as [? [?|]]; cbn [bind orFatal] in H;
      try discriminate;
    destruct (fileutils.HashSHA1 fs filePath) as [? [?|]]; cbn [bind orFatal] in H;
      try discriminate;
    destruct (fileutils.HashSHA256 fs filePath) as [? [?|]]; cbn [bind orFatal] in H;
      try discriminate;
    destruct (fileutils.HashSHA512 fs filePath) as [? [?|]]; cbn [bind orFatal] in H;
      try discriminate;
    injection H as <-; (split; [reflexivity | intros; (discriminate || reflexivity)]).
Qed.

Lemma reported_printResults fs filePath elfOnly thr csv delimChar fileInfo :
  main.checkFilePath fs filePath elfOnly thr = Done (fileInfo, None) ->
  (main.entropy fileInfo >= thr)%R ->
  reported fs elfOnly thr csv delimChar (main.printResults fileInfo csv delimChar).
Proof.
  intros Hc Hge. destruct (checkFilePath_record _ _ _ _ _ Hc) as [Hp _].
  unfold reported. cbn [main.printResults main.record main.csvFormat main.delim].
  now rewrite Hp.
Qed.

Lemma procLoop_reported fs thr csv delimChar (paths : list string) :
  forall stdout,
    Forall (reported fs true thr csv delimChar) stdout ->
    Forall (reported fs true thr csv delimChar)
      (fst (main.procLoop fs thr csv delimChar paths stdout)).
Proof.
  induction paths as [|p paths IH]; intros stdout Hout; cbn [main.procLoop]; [exact Hout|].
  destruct (main.checkFilePath fs p true thr) as [[fileInfo [err|]]|] eqn:Hc;
    [now apply IH | | exact Hout].
  apply IH. destruct (Rge_dec _ _) as [Hge|]; [|exact Hout].
  apply Forall_app. split; [exact Hout|]. constructor; [|constructor].
  now apply (reported_printResults fs p).
Qed.

Lemma strictLoop_reported fs elfOnly thr csv delimChar (todo : list visited) :
  forall stdout,
    Forall (reported fs elfOnly thr csv delimChar) stdout ->
    Forall (reported fs elfOnly thr csv delimChar)
      (fst (strictLoop fs elfOnly thr csv delimChar todo stdout)).
Proof.
  induction todo as [|[p|p e] todo IH]; intros stdout Hout; cbn [strictLoop];
    [exact Hout | | exact Hout].
  destruct (main.checkFilePath fs p elfOnly thr) as [[fileInfo [err|]]|] eqn:Hc;
    [exact Hout | | exact Hout].
  apply IH. destruct (Rge_dec _ _) as [Hge|]; [|exact Hout].
  apply Forall_app. split; [exact Hout|]. constructor; [|constructor].
  now apply (reported_printResults fs p).
Qed.

Lemma in_results (pr : main.printed) (r : list main.printed * main.exit) :
  In (main.Result pr) (fst (main.results r)) -> In pr (fst r).
Proof.
  destruct r as [l e]. unfold main.results. cbn [fst].
  induction l as [|x l IH]; cbn [map In]; [auto|].
  intros [[= ->]|H]; [now left | right; auto].
Qed.

Lemma mainProc_procLoop fs thr csv delimChar :
  main.mainProc fs thr csv delimChar
  = main.procLoop fs thr csv delimChar (fst main.genPIDExePaths) [].
Proof.
  unfold main.mainProc, main.genPIDExePaths. cbv beta iota delta [fst]. reflexivity.
Qed.

(** X14. Whatever the flags, every record [main] prints is the record
    [checkFilePath] returns without error for the path the record carries
    (with only-ELF in force under [-proc] and [-elf]), in the layout the
    flags ask for; its entropy is at least the threshold, and the threshold
    lies in [0, 8], so the placeholder [-1] of a file that was not measured
    is never printed; and under [-proc] or [-elf] the record is that of an
    ELF file. *)
Theorem main_prints_reported (fs : os.FileSystem) (dirs : main.Forest) (fl : main.flags)
    (pr : main.printed) :
  In (main.Result pr) (fst (main.main fs dirs fl)) ->
  (0 <= main.flagEntropy fl <= 8)%R /\
  (exists elfOnly,
      (main.flagProc fl = true -> elfOnly = true) /\
      (main.flagProc fl = false -> elfOnly = main.flagElf fl) /\
      reported fs elfOnly (main.flagEntropy fl) (main.flagCsv fl) (main.flagDelim fl) pr /\
      (elfOnly = true -> main.elf (main.record pr) = true)) /\
  (0 <= main.entropy (main.record pr))%R.
Proof.
  intros Hin. unfold main.main in Hin.
  destruct (main.flagVersion fl).
  { cbn [fst In] in Hin. destruct Hin as [H|[H|[]]]; discriminate. }
  destruct (Rgt_dec _ _) as [|Hmax]; [destruct Hin|].
  destruct (Rlt_dec _ _) as [|Hmin]; [destruct Hin|].
  assert (Hrange : (0 <= main.flagEntropy fl <= 8)%R) by lra.
  assert (Hall : exists elfOnly,
             (main.flagProc fl = true -> elfOnly = true) /\
             (main.flagProc fl = false -> elfOnly = main.flagElf fl) /\
             reported fs elfOnly (main.flagEntropy fl) (main.flagCsv fl)
               (main.flagDelim fl) pr).
  { destruct (main.flagProc fl).
    - exists true. split; [reflexivity|]. split; [discriminate|].
      apply in_results in Hin.
      rewrite mainProc_procLoop in Hin.
      pose proof (procLoop_reported fs (main.flagEntropy fl) (main.flagCsv fl)
                    (main.flagDelim fl) (fst main.genPIDExePaths) [] (Forall_nil _)) as Hf.
      rewrite Forall_forall in Hf. exact (Hf _ Hin).
    - exists (main.flagElf fl). split; [discriminate|]. split; [reflexivity|].
      destruct (negb (main.flagFile fl =? "")%string).
      + unfold main.results in Hin. cbn [fst] in Hin.
        apply in_map_iff in Hin as (pr' & [= ->] & Hin).
        rewrite mainFile_strictLoop in Hin.
        pose proof (strictLoop_reported fs (main.flagElf fl) (main.flagEntropy fl)
                      (main.flagCsv fl) (main.flagDelim fl) [Check (main.flagFile fl)] []
                      (Forall_nil _)) as Hf.
        rewrite Forall_forall in Hf. exact (Hf _ Hin).
      + destruct (negb (main.flagDir fl =? "")%string); [|destruct Hin].
        apply in_results in Hin.
        rewrite mainDir_strictLoop in Hin.
        pose proof (strictLoop_reported fs (main.flagElf fl) (main.flagEntropy fl)
                      (main.flagCsv fl) (main.flagDelim fl)
                      (visits (main.flagDir fl) (dirs (main.flagDir fl))) []
                      (Forall_nil _)) as Hf.
        rewrite Forall_forall in Hf. exact (Hf _ Hin). }
  destruct Hall as (elfOnly & Hp & Hq & Hrep).
  pose proof Hrep as (Hc & Hge & _).
  split; [exact Hrange|]. split; [|lra].
  exists elfOnly. split; [exact Hp|]. split; [exact Hq|]. split; [exact Hrep|].
  intros ->. destruct (checkFilePath_done _ _ _ _ _ Hc) as [_ Helf].
  destruct (main.elf (main.record pr)) eqn:E; [reflexivity|].
  specialize (Helf eq_refl eq_refl). lra.
Qed.

Lemma main_prints_reported_witness :
  In (main.Result (main.printResults emptyRecord false ","))
     (fst (main.main sampleFS sampleForest sampleFlags)) /\
  (0 <= main.entropy emptyRecord)%R.
Proof.
  assert (Hin : In (main.Result (main.printResults emptyRecord false ","))
                  (fst (main.main sampleFS sampleForest sampleFlags))).
  { unfold main.main, sampleFlags.
    cbn [main.flagVersion main.flagEntropy main.flagProc main.flagFile main.flagElf
         main.flagCsv main.flagDelim].
    destruct (Rgt_dec 0 8); [lra|]. destruct (Rlt_dec 0 0); [lra|].
    change (negb ("/tmp/empty" =? "")%string) with true. cbv iota.
    unfold main.results, main.mainFile. rewrite checkFilePath_empty.
    cbn [main.entropy emptyRecord]. destruct (Rge_dec 0 0); [|lra].
    left. reflexivity. }
  split; [exact Hin|].
  destruct (main_prints_reported sampleFS sampleForest sampleFlags _ Hin) as (_ & _ & H).
  exact H.
Defined.

(** ** The candidate paths of the process sweep *)

Lemma digits_before_slash (a b rest : string) :
  all_digits a = true -> all_digits b = true ->
  (a ++ String path.slash rest)%string = (b ++ String path.slash rest)%string -> a = b.
Proof.
  revert b. induction a as [|c a IH]; intros [|d b] Ha Hb H; cbn [String.append] in H.
  - reflexivity.
  - injection H as <- _. discriminate Hb.
  - injection H as -> _. discriminate Ha.
  - injection H as -> H. cbn [all_digits] in Ha, Hb.
    apply andb_prop in Ha as [_ Ha]. apply andb_prop in Hb as [_ Hb].
    f_equal. now apply IH.
Qed.

Lemma exePath_inj (a b : Z) : 0 <= a -> 0 <= b -> exePath a = exePath b -> a = b.
Proof.
  intros Ha Hb H. unfold exePath in H.
  destruct (Itoa_spec a Ha) as (Hda & _ & Hva). destruct (Itoa_spec b Hb) as (Hdb & _ & Hvb).
  cbn [String.append] in H. injection H as H.
  apply digits_before_slash in H; [congruence | assumption | assumption].
Qed.

Lemma Split_prepend (s rest dir file : string) :
  filepath.Split rest = (dir, file) -> dir <> EmptyString ->
  filepath.Split (s ++ rest) = ((s ++ dir)%string, file).
Proof.
  intros Hrest Hdir. induction s as [|c s IH]; cbn [String.append]; [exact Hrest|].
  cbn [filepath.Split]. rewrite IH.
  destruct (s ++ dir)%string as [|d sd] eqn:E; [|reflexivity].
  destruct s; [|discriminate E]. cbn [String.append] in E. contradiction.
Qed.

Lemma Split_exePath (pid : Z) :
  filepath.Split (exePath pid)
  = (("/proc/" ++ strconv.Itoa pid ++ "/")%string, "exe"%string).
Proof.
  unfold exePath. rewrite <- !string_app_assoc.
  apply Split_prepend; [reflexivity | discriminate].
Qed.

Lemma fst_genPIDExePaths :
  fst main.genPIDExePaths
  = main.pidLoop (Z.to_nat (main.constMaxPID - main.constMinPID)) main.constMinPID [].
Proof. unfold main.genPIDExePaths. cbv beta iota delta [fst]. reflexivity. Qed.

(** X15. The paths [genPIDExePaths] returns are pairwise distinct: no process
    id is probed twice. *)
Theorem genPIDExePaths_distinct : NoDup (fst main.genPIDExePaths).
Proof.
  rewrite fst_genPIDExePaths, pidLoop_spec. cbn [app].
  apply NoDup_map_NoDup_ForallPairs; [|apply seq_NoDup].
  intros i j Hi Hj H. apply in_seq in Hi, Hj.
  change main.constMinPID with 1 in H.
  rewrite !exePath_built in H by lia.
  apply exePath_inj in H; lia.
Qed.

Lemma In_genPIDExePaths (p : string) :
  In p (fst main.genPIDExePaths) ->
  exists pid, main.constMinPID <= pid < main.constMaxPID /\ p = exePath pid.
Proof.
  rewrite fst_genPIDExePaths, pidLoop_spec. cbn [app]. intros Hpath.
  apply in_map_iff in Hpath as (i & Hi & Hseq). apply in_seq in Hseq.
  exists (main.constMinPID + Z.of_nat i). split; [lia|].
  rewrite <- Hi. apply exePath_built. unfold main.constMinPID. lia.
Qed.

Lemma genPIDExePaths_head :
  exists rest, fst main.genPIDExePaths = "/proc/1/exe"%string :: rest.
Proof.
  rewrite fst_genPIDExePaths, pidLoop_spec. cbn [app].
  change (main.constMaxPID - main.constMinPID) with 4194303.
  replace (Z.to_nat 4194303) with (S (Z.to_nat 4194302)) by lia.
  rewrite <- cons_seq, map_cons. eexists. f_equal.
Qed.

Lemma procLoop_first fs thr csv delimChar (p : string) (rest : list string) fileInfo :
  main.checkFilePath fs p true thr = Done (fileInfo, None) ->
  (main.entropy fileInfo >= thr)%R ->
  In (main.printResults fileInfo csv delimChar)
     (fst (main.procLoop fs thr csv delimChar (p :: rest) [])).
Proof.
  intros Hc Hge. cbn [main.procLoop]. rewrite Hc.
  destruct (Rge_dec _ _) as [_|Hn]; [|contradiction].
  destruct (procLoop_prefix fs thr csv delimChar rest
              ([] ++ [main.printResults fileInfo csv delimChar])) as [more ->].
  cbn [app]. now left.
Qed.

(** X16. Every record the process mode prints belongs to a process id of
    [constMinPID, constMaxPID): its path is [/proc/<pid>/exe], which the
    file system opens, and its name is [exe] whatever the executable behind
    the link is called; it is the record [checkFilePath] returns for that
    path with only-ELF in force, with an entropy of at least the
    threshold. *)
Theorem mainProc_records (fs : os.FileSystem) (entropyMaxVal : float64) (csvOutput : bool)
    (delimChar : string) (pr : main.printed) :
  In pr (fst (main.mainProc fs entropyMaxVal csvOutput delimChar)) ->
  (exists pid,
      main.constMinPID <= pid < main.constMaxPID /\
      main.path (main.record pr) = exePath pid /\
      exists nd, fs (exePath pid) = inl nd) /\
  main.name (main.record pr) = "exe"%string /\
  reported fs true entropyMaxVal csvOutput delimChar pr.
Proof.
  intros Hin. rewrite mainProc_procLoop in Hin.
  pose proof (procLoop_reported fs entropyMaxVal csvOutput delimChar
                (fst main.genPIDExePaths) [] (Forall_nil _)) as Hf.
  rewrite Forall_forall in Hf. specialize (Hf _ Hin).
  apply procLoop_records in Hin as [[]|[Hpath [nd Hnd]]].
  apply In_genPIDExePaths in Hpath as (pid & Hpid & Hi).
  assert (Hname : main.name (main.record pr) = "exe"%string).
  { destruct Hf as (Hc & _). apply checkFilePath_done in Hc as [-> _].
    rewrite Hi, Split_exePath. reflexivity. }
  split; [|split; [exact Hname | exact Hf]].
  exists pid. split; [exact Hpid|]. split; [exact Hi|].
  exists nd. now rewrite <- Hi.
Qed.

Lemma mainProc_records_witness :
  exists pr,
    In pr (fst (main.mainProc sampleFS 0%R false ",")) /\
    main.path (main.record pr) = "/proc/1/exe"%string /\
    main.name (main.record pr) = "exe"%string.
Proof.
  assert (Hrec : exists fileInfo,
             main.checkFilePath sampleFS "/proc/1/exe" true 0%R = Done (fileInfo, None) /\
             (main.entropy fileInfo >= 0)%R).
  { eexists. split.
    - apply (checkFilePath_regular sampleFS "/proc/1/exe"
               (elfMagic ++ [x02; x01; x01; x00]) true 0%R);
        [discriminate | reflexivity | discriminate | reflexivity].
    - cbn [main.entropy].
      destruct (entropyOf_spec (elfMagic ++ [x02; x01; x01; x00])) as (_ & H);
        [reflexivity|]. lra. }
  destruct Hrec as (fileInfo & Hc & Hge).
  destruct (checkFilePath_record _ _ _ _ _ Hc) as [Hp _].
  exists (main.printResults fileInfo false ",").
  assert (Hin : In (main.printResults fileInfo false ",")
                  (fst (main.mainProc sampleFS 0%R false ","))).
  { rewrite mainProc_procLoop. destruct genPIDExePaths_head as [rest ->].
    now apply procLoop_first. }
  split; [exact Hin|].
  destruct (mainProc_records sampleFS 0%R false "," _ Hin) as (_ & Hname & _).
  split; [exact Hp | exact Hname].
Defined.

(** ** Raising the threshold *)

(** [checkFilePath] at two thresholds above the placeholder: the same
    failure or the same error, the same entropy, and the same record once
    the entropy meets the higher threshold. *)
Lemma checkFilePath_threshold fs filePath elfOnly (thr1 thr2 : float64) :
  (-1 < thr1)%R -> (thr1 <= thr2)%R ->
  match main.checkFilePath fs filePath elfOnly thr1,
        main.checkFilePath fs filePath elfOnly thr2 with
  | Fatal format1 args1, Fatal format2 args2 => format1 = format2 /\ args1 = args2
  | Done (fileInfo1, err1), Done (fileInfo2, err2) =>
      err1 = err2 /\
      ((main.entropy fileInfo2 >= thr2)%R ->
       fileInfo1 = fileInfo2 /\ (main.entropy fileInfo1 >= thr1)%R)
  | _, _ => False
  end.
Proof.
  intros Hthr Hle. unfold main.checkFilePath.
  destruct (fileutils.IsElfType fs filePath) as [isElf [e|]]; [split; [reflexivity|]|].
  { cbn [main.entropy main.zeroFileData]. intros H. split; [reflexivity|lra]. }
  destruct (filepath.Split filePath) as [dir fileName].
  assert (H1 : snd (fileutils.Entropy fs filePath) = None
               <-> snd (fileutils.HashMD5 fs filePath) = None)
    by apply Entropy_succeeds_iff.
  assert (H2 : snd (fileutils.Entropy fs filePath) = None
               <-> snd (fileutils.HashSHA1 fs filePath) = None)
    by apply Entropy_succeeds_iff.
  assert (H3 : snd (fileutils.Entropy fs filePath) = None
               <-> snd (fileutils.HashSHA256 fs filePath) = None)
    by apply Entropy_succeeds_iff.
  assert (H4 : snd (fileutils.Entropy fs filePath) = None
               <-> snd (fileutils.HashSHA512 fs filePath) = None)
    by apply Entropy_succeeds_iff.
  destruct (fileutils.Entropy fs filePath) as [v [err|]] eqn:HE; cbn [snd] in *.
  - destruct elfOnly, isElf; cbn [andb negb bind orFatal main.entropy];
      try (split; reflexivity);
      destruct (Rge_dec (-1) thr1); [lra|]; destruct (Rge_dec (-1) thr2); [lra|];
      cbn [bind main.entropy]; (split; [reflexivity | intros; lra]).
  - destruct (fileutils.HashMD5 fs filePath) as [m [?|]];
      [cbn [snd] in H1; now apply proj1 in H1; specialize (H1 eq_refl)|].
    destruct (fileutils.HashSHA1 fs filePath) as [s1 [?|]];
      [cbn [snd] in H2; now apply proj1 in H2; specialize (H2 eq_refl)|].
    destruct (fileutils.HashSHA256 fs filePath) as [s2 [?|]];
      [cbn [snd] in H3; now apply proj1 in H3; specialize (H3 eq_refl)|].
    destruct (fileutils.HashSHA512 fs filePath) as [s5 [?|]];
      [cbn [snd] in H4; now apply proj1 in H4; specialize (H4 eq_refl)|].
    destruct elfOnly, isElf;
      cbn [andb negb bind orFatal main.entropy main.setEntropy];
      destruct (Rge_dec _ thr1), (Rge_dec _ thr2);
      cbn [bind orFatal main.entropy main.setEntropy main.setHash];
      (split; [reflexivity | intros; first [lra | split; [reflexivity | lra]]]).
Qed.

Lemma incl_printed (out1 out2 : list main.printed) (fileInfo1 fileInfo2 : main.fileData)
    (thr1 thr2 : float64) csv delimChar :
  incl out2 out1 ->
  ((main.entropy fileInfo2 >= thr2)%R ->
   fileInfo1 = fileInfo2 /\ (main.entropy fileInfo1 >= thr1)%R) ->
  incl (if Rge_dec (main.entropy fileInfo2) thr2
        then out2 ++ [main.printResults fileInfo2 csv delimChar] else out2)
       (if Rge_dec (main.entropy fileInfo1) thr1
        then out1 ++ [main.printResults fileInfo1 csv delimChar] else out1).
Proof.
  intros Hincl Hsame. destruct (Rge_dec (main.entropy fileInfo2) thr2) as [Hge|_].
  - destruct (Hsame Hge) as [-> Hge1].
    destruct (Rge_dec _ _) as [_|Hn]; [|contradiction].
    apply incl_app; [now apply incl_appl | now apply incl_appr, incl_refl].
  - destruct (Rge_dec _ _); [now apply incl_appl | exact Hincl].
Qed.

Lemma procLoop_threshold fs (thr1 thr2 : float64) csv delimChar (paths : list string) :
  (-1 < thr1)%R -> (thr1 <= thr2)%R ->
  forall out1 out2,
    incl out2 out1 ->
    incl (fst (main.procLoop fs thr2 csv delimChar paths out2))
         (fst (main.procLoop fs thr1 csv delimChar paths out1)) /\
    snd (main.procLoop fs thr2 csv delimChar paths out2)
    = snd (main.procLoop fs thr1 csv delimChar paths out1).
Proof.
  intros Hthr Hle. induction paths as [|p paths IH]; intros out1 out2 Hincl;
    cbn [main.procLoop]; [now split|].
  pose proof (checkFilePath_threshold fs p true thr1 thr2 Hthr Hle) as Hc.
  destruct (main.checkFilePath fs p true thr1) as [[fileInfo1 err1]|format1 args1],
           (main.checkFilePath fs p true thr2) as [[fileInfo2 err2]|format2 args2];
    try contradiction.
  - destruct Hc as [<- Hsame]. destruct err1 as [err|]; [now apply IH|].
    apply IH. now apply incl_printed.
  - destruct Hc as [<- <-]. now split.
Qed.

Lemma strictLoop_threshold fs elfOnly (thr1 thr2 : float64) csv delimChar
    (todo : list visited) :
  (-1 < thr1)%R -> (thr1 <= thr2)%R ->
  forall out1 out2,
    incl out2 out1 ->
    incl (fst (strictLoop fs elfOnly thr2 csv delimChar todo out2))
         (fst (strictLoop fs elfOnly thr1 csv delimChar todo out1)) /\
    snd (strictLoop fs elfOnly thr2 csv delimChar todo out2)
    = snd (strictLoop fs elfOnly thr1 csv delimChar todo out1).
Proof.
  intros Hthr Hle. induction todo as [|[p|p e] todo IH]; intros out1 out2 Hincl;
    cbn [strictLoop]; [now split | | now split].
  pose proof (checkFilePath_threshold fs p elfOnly thr1 thr2 Hthr Hle) as Hc.
  destruct (main.checkFilePath fs p elfOnly thr1) as [[fileInfo1 err1]|format1 args1],
           (main.checkFilePath fs p elfOnly thr2) as [[fileInfo2 err2]|format2 args2];
    try contradiction.
  - destruct Hc as [<- Hsame]. destruct err1 as [err|]; [now split|].
    apply IH. now apply incl_printed.
  - destruct Hc as [<- <-]. now split.
Qed.

Lemma results_incl (r1 r2 : list main.printed * main.exit) :
  incl (fst r2) (fst r1) /\ snd r2 = snd r1 ->
  snd (main.results r2) = snd (main.results r1) /\
  forall pr,
    In (main.Result pr) (fst (main.results r2)) ->
    In (main.Result pr) (fst (main.results r1)).
Proof.
  intros [Hincl Hexit]. split; [exact Hexit|].
  intros pr Hin. apply in_results in Hin. unfold main.results. cbn [fst].
  apply in_map. now apply Hincl.
Qed.

(** X17. Raising the threshold within [0, 8] never adds output and never
    changes how the program ends: with every other flag unchanged, each
    record [main] prints at the higher threshold is printed, identical, at
    the lower one, and the exit (0, or the [log.Fatalf] reached) is the
    same. *)
Theorem threshold_monotone (fs : os.FileSystem) (dirs : main.Forest) (fl : main.flags)
    (entropyMaxVal : float64) :
  (0 <= main.flagEntropy fl)%R -> (main.flagEntropy fl <= entropyMaxVal)%R ->
  (entropyMaxVal <= 8)%R ->
  snd (main.main fs dirs (atThreshold fl entropyMaxVal)) = snd (main.main fs dirs fl) /\
  forall pr,
    In (main.Result pr) (fst (main.main fs dirs (atThreshold fl entropyMaxVal))) ->
    In (main.Result pr) (fst (main.main fs dirs fl)).
Proof.
  intros H0 Hle H8. unfold main.main, atThreshold.
  cbn [main.flagVersion main.flagEntropy main.flagProc main.flagFile main.flagDir
       main.flagElf main.flagCsv main.flagDelim].
  destruct (main.flagVersion fl); [split; [reflexivity | auto]|].
  destruct (Rgt_dec entropyMaxVal 8); [lra|]. destruct (Rlt_dec entropyMaxVal 0); [lra|].
  destruct (Rgt_dec (main.flagEntropy fl) 8); [lra|].
  destruct (Rlt_dec (main.flagEntropy fl) 0); [lra|].
  assert (Hthr : (-1 < main.flagEntropy fl)%R) by lra.
  destruct (main.flagProc fl).
  { apply results_incl. rewrite !mainProc_procLoop.
    apply procLoop_threshold; [exact Hthr | exact Hle | apply incl_refl]. }
  destruct (negb (main.flagFile fl =? "")%string).
  { apply results_incl. rewrite !mainFile_strictLoop.
    apply strictLoop_threshold; [exact Hthr | exact Hle | apply incl_refl]. }
  destruct (negb (main.flagDir fl =? "")%string); [|split; [reflexivity | auto]].
  apply results_incl. rewrite !mainDir_strictLoop.
  apply strictLoop_threshold; [exact Hthr | exact Hle | apply incl_refl].
Qed.

Lemma threshold_monotone_witness :
  (0 <= main.flagEntropy sampleFlags <= 8)%R /\
  snd (main.main sampleFS sampleForest (atThreshold sampleFlags 8%R))
  = snd (main.main sampleFS sampleForest sampleFlags).
Proof.
  assert (H : (0 <= main.flagEntropy sampleFlags <= 8)%R)
    by (cbn [main.flagEntropy sampleFlags]; lra).
  split; [exact H|].
  destruct (threshold_monotone sampleFS sampleForest sampleFlags 8%R) as [Hexit _];
    [apply H | apply H | lra | exact Hexit].
Defined.
